(** * DayPlanner: the scheduling and layout core

    A shallow embedding of the scheduling code of the planner:
    - [toMins]/[fromMins] (src/main/ollama.ts) and their twins
      [timeToMins]/[minsToTime] (src/preload/index.ts);
    - [extractJson], [fallbackOptimize] and [optimizePlanWithOllama] with
      the system message of its prompt (src/main/ollama.ts);
    - [computeColumns], the drag handlers of [handleTaskMouseDown],
      [handleTimelineClick] with [openNewTask], [handleDeleteTag],
      [normalizeState]/[toDbState] and the handlers of the optimization
      proposal (src/preload/index.ts).

    JavaScript numbers are kept as integers plus [NaN]: every number the
    scheduling code computes from a time text of the form dd:dd is an
    integer far below 2^53, so the arithmetic on them is exact. *)

From Stdlib Require Import ZArith List String Ascii Bool Lia Permutation Sorted.
From Stdlib Require Import DecimalString.
From Stdlib Require QArith.QArith_base QArith.Qround QArith.Qminmax.
From Stdlib Require Import Lqa.
From stdpp Require Import gmap strings.
Import ListNotations.

Set Warnings "-register-all".

Local Open Scope string_scope.
Local Open Scope list_scope.
Local Open Scope Z_scope.

(** ** JavaScript numbers *)

Inductive number : Type :=
| NaN
| Num (z : Z).

Declare Scope js_scope.
Delimit Scope js_scope with js.

Definition num_lift2 (f : Z -> Z -> Z) (a b : number) : number :=
  match a, b with
  | Num x, Num y => Num (f x y)
  | _, _ => NaN
  end.

Definition num_cmp (f : Z -> Z -> bool) (a b : number) : bool :=
  match a, b with
  | Num x, Num y => f x y
  | _, _ => false
  end.

Definition num_add := num_lift2 Z.add.
Definition num_sub := num_lift2 Z.sub.
Definition num_mul := num_lift2 Z.mul.
Definition num_ltb := num_cmp Z.ltb.
Definition num_leb := num_cmp Z.leb.
Definition num_gtb := num_cmp Z.gtb.
Definition num_geb := num_cmp Z.geb.

Infix "+" := num_add : js_scope.
Infix "-" := num_sub : js_scope.
Infix "*" := num_mul : js_scope.
Infix "<?" := num_ltb : js_scope.
Infix "<=?" := num_leb : js_scope.
Infix ">?" := num_gtb : js_scope.
Infix ">=?" := num_geb : js_scope.

(** [Math.max(a, b)]: [NaN] as soon as one argument is. *)
Definition Math_max (a b : number) : number := num_lift2 Z.max a b.
Definition Math_min (a b : number) : number := num_lift2 Z.min a b.

Definition number_eqb (a b : number) : bool :=
  match a, b with
  | NaN, NaN => true
  | Num x, Num y => Z.eqb x y
  | _, _ => false
  end.

(** ** Texts and times *)

(** [Number(s)] on the texts the time fields hold: a run of decimal digits
    is its value and the empty text is 0.  Every other text is taken to
    [NaN]; JavaScript reads a few more forms (blanks, signs, fractions,
    exponents), none of which a time of the form dd:dd contains. *)
Definition Number (s : string) : number :=
  match s with
  | EmptyString => Num 0
  | _ => match NilEmpty.uint_of_string s with
         | Some d => Num (Z.of_uint d)
         | None => NaN
         end
  end.

(** [String(z)] for an integer. *)
Definition String_of (n : number) : string :=
  match n with
  | NaN => "NaN"
  | Num z => NilZero.string_of_int (Z.to_int z)
  end.

(** [s.padStart(2, '0')]. *)
Definition padStart2 (s : string) : string :=
  match s with
  | EmptyString => "00"
  | String c EmptyString => String "0" (String c EmptyString)
  | _ => s
  end.

(** [s.split(c)] for a one-character separator. *)
Fixpoint split (c : ascii) (s : string) : list string :=
  match s with
  | EmptyString => [EmptyString]
  | String a rest =>
      if Ascii.eqb a c then EmptyString :: split c rest
      else match split c rest with
           | w :: ws => String a w :: ws
           | [] => [String a EmptyString]
           end
  end.

(** [const [h, m] = t.split(':').map(Number); return h * 60 + m]: a missing
    second part is [undefined], which makes the sum [NaN]. *)
Definition toMins (t : string) : number :=
  match List.map Number (split ":" t) with
  | h :: m :: _ => (h * Num 60 + m)%js
  | _ => NaN
  end.

(** [Math.floor(m / 60)] and [m % 60] (the remainder has the sign of [m]). *)
Definition floor_div (m : number) (k : Z) : number :=
  match m with NaN => NaN | Num z => Num (z / k) end.
Definition js_rem (m : number) (k : Z) : number :=
  match m with NaN => NaN | Num z => Num (Z.rem z k) end.

Definition fromMins (m : number) : string :=
  (padStart2 (String_of (floor_div m 60)) ++ ":" ++ padStart2 (String_of (js_rem m 60)))%string.

(** The renderer has its own copies of the two conversions. *)
Definition timeToMins := toMins.
Definition minsToTime := fromMins.

(** [/^\d{2}:\d{2}$/.test(s)] on a text. *)
Definition isDigit (c : ascii) : bool :=
  (48 <=? N_of_ascii c)%N && (N_of_ascii c <=? 57)%N.

Definition isHHMM (s : string) : bool :=
  match s with
  | String a (String b (String c (String d (String e EmptyString)))) =>
      isDigit a && isDigit b && Ascii.eqb c ":" && isDigit d && isDigit e
  | _ => false
  end.

(** [a.localeCompare(b)]: on texts made of digits and a colon at the same
    place the collation order is the order of the character codes. *)
Definition localeCompare (a b : string) : comparison := String.compare a b.

(** ** Tasks (src/main/db.ts) *)

Record Tag : Type := mkTag {
  tag_id : string;
  name : string;
  color : string
}.

Record Task : Type := mkTask {
  id : string;
  title : string;
  taskDate : string;
  startTime : string;
  endTime : string;
  tagId : option string;
  notes : string;
  fixed : Z;
  done : Z
}.

Record PlannerState : Type := mkState {
  tags : list Tag;
  tasks : list Task
}.

Record OptimizeResult : Type := mkResult {
  res_tasks : list Task;
  summary : string
}.

(** [{ ...task, startTime: s, endTime: e }] *)
Definition withTimes (task : Task) (s e : string) : Task :=
  mkTask (id task) (title task) (taskDate task) s e
         (tagId task) (notes task) (fixed task) (done task).

(** Truthiness of the [fixed] column (an integer in the store). *)
Definition isFixed (t : Task) : bool := negb (fixed t =? 0).

(** [[...l].sort(cmp)]: the sort is stable, so an element goes in front of
    the first one that must come strictly after it. *)
Section Sort.
Context {A : Type} (cmp : A -> A -> comparison).

Fixpoint insertSorted (x : A) (l : list A) : list A :=
match l with
| [] => [x]
| y :: rest =>
    match cmp y x with
    | Gt => x :: y :: rest
    | _ => y :: insertSorted x rest
    end
end.

Definition sortBy (l : list A) : list A :=
  fold_left (fun acc x => insertSorted x acc) l [].
End Sort.

Definition byStartTime (a b : Task) : comparison :=
  localeCompare (startTime a) (startTime b).

(** ** The local fallback scheduler (src/main/ollama.ts) *)

Record Window : Type := mkWindow {
  w_start : number;
  w_end : number
}.

(** [occupied.some((w) => slotStart < w.end && slotEnd > w.start)] *)
Definition conflicts (occupied : list Window) (slotStart slotEnd : number) : bool :=
  existsb (fun w => (slotStart <? w_end w)%js && (slotEnd >? w_start w)%js) occupied.

(** The inner loop: at most [attempts] candidate starts, 15 minutes apart;
    the first free one that ends by 23:00 is returned. *)
Fixpoint scan (attempts : nat) (occupied : list Window) (duration slotStart : number)
  : option number :=
  match attempts with
  | O => None
  | S n =>
      let slotEnd := (slotStart + duration)%js in
      if negb (conflicts occupied slotStart slotEnd) && (slotEnd <=? Num (23 * 60))%js
      then Some slotStart
      else scan n occupied duration (slotStart + Num 15)%js
  end.

Definition durationOf (task : Task) : number :=
  (toMins (endTime task) - toMins (startTime task))%js.

(** The outer loop over the sorted flexible tasks; the result is [placed]. *)
Fixpoint placeLoop (sortedFlex : list Task) (occupied : list Window) (cursor : number)
  : list Task :=
  match sortedFlex with
  | [] => []
  | task :: rest =>
      let duration := durationOf task in
      if (duration <=? Num 0)%js then task :: placeLoop rest occupied cursor
      else
        match scan (24 * 4) occupied duration cursor with
        | Some slotStart =>
            let slotEnd := (slotStart + duration)%js in
            withTimes task (fromMins slotStart) (fromMins slotEnd)
              :: placeLoop rest (occupied ++ [mkWindow slotStart slotEnd]) slotEnd
        | None => task :: placeLoop rest occupied cursor
        end
  end.

Definition fixedOf (state : PlannerState) : list Task :=
  List.filter (fun t => isFixed t) (tasks state).
Definition flexibleOf (state : PlannerState) : list Task :=
  List.filter (fun t => negb (isFixed t)) (tasks state).
Definition sortedFlexOf (state : PlannerState) : list Task :=
  sortBy byStartTime (flexibleOf state).
Definition occupiedOf (state : PlannerState) : list Window :=
  List.map (fun t => mkWindow (toMins (startTime t)) (toMins (endTime t))) (fixedOf state).

Definition fallbackSummary : string :=
  "Flexible tasks were rearranged to minimize gaps and avoid conflicts with fixed commitments.".

Definition fallbackOptimize (state : PlannerState) : OptimizeResult :=
  let placed := placeLoop (sortedFlexOf state) (occupiedOf state) (Num (7 * 60)) in
  mkResult (sortBy byStartTime (fixedOf state ++ placed)) fallbackSummary.

(** ** The plan optimization orchestrator (src/main/ollama.ts) *)

(** What [JSON.parse] returns, and [undefined] for a property that is not
    there. An object is the list of its own properties, one entry a key. *)
Inductive JsValue : Type :=
| JUndefined
| JNull
| JBool (b : bool)
| JNum (q : QArith_base.Q)
| JStr (s : string)
| JArr (items : list JsValue)
| JObj (props : list (string * JsValue)).

(** A computation that returns or throws. *)
Inductive exc (A : Type) : Type :=
| Normal (a : A)
| Throw.
Arguments Normal {A} a.
Arguments Throw {A}.

Definition bind {A B : Type} (c : exc A) (k : A -> exc B) : exc B :=
  match c with
  | Normal a => k a
  | Throw => Throw
  end.

Notation "'let*' x := c 'in' k" := (bind c (fun x => k))
  (at level 10, x name, c at level 100, k at level 200).

(** [try { body } catch { handler }] *)
Definition try_catch {A : Type} (body handler : exc A) : exc A :=
  match body with
  | Normal a => Normal a
  | Throw => handler
  end.

Fixpoint mapM {A B : Type} (f : A -> exc B) (l : list A) : exc (list B) :=
  match l with
  | [] => Normal []
  | x :: rest => let* y := f x in let* ys := mapM f rest in Normal (y :: ys)
  end.

Fixpoint lookupProp (k : string) (props : list (string * JsValue)) : option JsValue :=
  match props with
  | [] => None
  | (k', v) :: rest => if String.eqb k' k then Some v else lookupProp k rest
  end.

(** [v.k] for the property names the orchestrator reads ([tasks], [summary],
    [id], [startTime], [endTime]); none of them is inherited from a
    prototype, so only an object can have one. Reading a property of
    [null] or [undefined] throws a TypeError. *)
Definition getProp (v : JsValue) (k : string) : exc JsValue :=
  match v with
  | JUndefined | JNull => Throw
  | JObj props =>
      match lookupProp k props with
      | Some x => Normal x
      | None => Normal JUndefined
      end
  | _ => Normal JUndefined
  end.

(** [v === s] for a text [s]. *)
Definition strictEqualsText (v : JsValue) (s : string) : bool :=
  match v with
  | JStr x => String.eqb x s
  | _ => false
  end.

(** [String(v)] throws when [v] is, or holds in an array, an object with an
    own [toString] property: a parsed property is never callable, and the
    inherited [valueOf] returns the object itself. *)
Fixpoint toStringThrows (v : JsValue) : bool :=
  match v with
  | JObj props =>
      match lookupProp "toString" props with
      | Some _ => true
      | None => false
      end
  | JArr items => existsb toStringThrows items
  | _ => false
  end.

(** The text [String(v)] when it has the form dd:dd. The texts of [null],
    [undefined], a boolean, a number and an object ("[object Object]")
    never have it; an array is rendered as its items joined by commas, so
    only a one-item array can have it. *)
Fixpoint timeText (v : JsValue) : option string :=
  match v with
  | JStr s => if isHHMM s then Some s else None
  | JArr [x] => timeText x
  | _ => None
  end.

(** [/^\d{2}:\d{2}$/.test(v)] *)
Definition regexTest (v : JsValue) : exc bool :=
  if toStringThrows v then Throw
  else Normal (match timeText v with Some _ => true | None => false end).

(** The value stored in a time field of the result. A time that passes the
    test is a text, except for a one-item array around such a text: the
    code stores that array, and since a time field of [Task] is a text
    (src/main/db.ts) it is kept here by the text the test has seen. The
    properties below that name a stored time take it from an update whose
    times are texts. *)
Definition storedTime (v : JsValue) : string :=
  match timeText v with
  | Some s => s
  | None => ""
  end.

(** [parsed.tasks.find((p) => p.id === taskId)] *)
Fixpoint findUpdate (updates : list JsValue) (taskId : string) : exc (option JsValue) :=
  match updates with
  | [] => Normal None
  | p :: rest =>
      let* pid := getProp p "id" in
      if strictEqualsText pid taskId then Normal (Some p)
      else findUpdate rest taskId
  end.

(** The callback of [state.tasks.map]. *)
Definition applyUpdates (updates : list JsValue) (task : Task) : exc Task :=
  if isFixed task then Normal task
  else
    let* found := findUpdate updates (id task) in
    match found with
    | None => Normal task
    | Some update =>
        let* s := getProp update "startTime" in
        let* okStart := regexTest s in
        if negb okStart then Normal task
        else
          let* e := getProp update "endTime" in
          let* okEnd := regexTest e in
          if negb okEnd then Normal task
          else Normal (withTimes task (storedTime s) (storedTime e))
    end.

Fixpoint indexOf (c : ascii) (s : string) : option nat :=
  match s with
  | EmptyString => None
  | String a rest =>
      if Ascii.eqb a c then Some O
      else match indexOf c rest with
           | Some i => Some (S i)
           | None => None
           end
  end.

Fixpoint lastIndexOf (c : ascii) (s : string) : option nat :=
  match s with
  | EmptyString => None
  | String a rest =>
      match lastIndexOf c rest with
      | Some i => Some (S i)
      | None => if Ascii.eqb a c then Some O else None
      end
  end.

(** The outermost [{ ... }] span of the reply, or the whole reply. *)
Definition extractJson (text : string) : string :=
  match indexOf "{" text, lastIndexOf "}" text with
  | Some start, Some stop =>
      if (start <? stop)%nat then substring start (stop + 1 - start) text
      else text
  | _, _ => text
  end.

(** What [callAvailableProvider] comes back with. *)
Inductive ProviderReply : Type :=
| ProviderFails
| ProviderReturns (raw : string).

Section Orchestrator.
(** [JSON.parse], a built-in of the platform; [None] is a SyntaxError. *)
Variable JSON_parse : string -> option JsValue.

(** The body of the [try] block. The prompt is built from the state by
  text operations before the block; the reply is any text at all. *)
Definition advisorPlan (reply : ProviderReply) (state : PlannerState)
: exc OptimizeResult :=
let* raw := match reply with
       | ProviderFails => Throw
       | ProviderReturns r => Normal r
       end in
let json := extractJson raw in
let* parsed := match JSON_parse json with
          | Some v => Normal v
          | None => Throw
          end in
let* ptasks := getProp parsed "tasks" in
match ptasks with
| JArr updates =>
    let* psummary := getProp parsed "summary" in
    match psummary with
    | JStr text =>
        let* newTasks := mapM (applyUpdates updates) (tasks state) in
        Normal (mkResult newTasks text)
    | _ => Throw
    end
| _ => Throw
end.

Definition optimizePlanWithOllama (reply : ProviderReply) (state : PlannerState)
  : exc OptimizeResult :=
  try_catch (advisorPlan reply state) (Normal (fallbackOptimize state)).
End Orchestrator.

(** ** Ghost view of the scheduler's loop

    A [Visit] is the state of the outer loop when it takes up a task; a
    found slot tells the placed tasks from the ones passed through. *)

Record Visit : Type := mkVisit {
  v_task : Task;
  v_occupied : list Window;
  v_cursor : number
}.

Definition slotOf (v : Visit) : option number :=
  let duration := durationOf (v_task v) in
  if (duration <=? Num 0)%js then None
  else scan (24 * 4) (v_occupied v) duration (v_cursor v).

Definition resultOf (v : Visit) : Task :=
  match slotOf v with
  | Some slotStart =>
      withTimes (v_task v) (fromMins slotStart)
                (fromMins (slotStart + durationOf (v_task v))%js)
  | None => v_task v
  end.

Fixpoint visits (sortedFlex : list Task) (occupied : list Window) (cursor : number)
  : list Visit :=
  match sortedFlex with
  | [] => []
  | task :: rest =>
      let v := mkVisit task occupied cursor in
      match slotOf v with
      | Some slotStart =>
          let slotEnd := (slotStart + durationOf task)%js in
          v :: visits rest (occupied ++ [mkWindow slotStart slotEnd]) slotEnd
      | None => v :: visits rest occupied cursor
      end
  end.

Definition visitsOf (state : PlannerState) : list Visit :=
  visits (sortedFlexOf state) (occupiedOf state) (Num (7 * 60)).

(** The interval of a task, in minutes. *)
Definition startOf (t : Task) : number := toMins (startTime t).
Definition endOf (t : Task) : number := toMins (endTime t).

(** Two half-open intervals [[start, end)] overlap. *)
Definition overlaps (a b : Task) : bool :=
  (startOf a <? endOf b)%js && (startOf b <? endOf a)%js.

#[global] Arguments scan : simpl never.
#[global] Arguments toMins : simpl never.
#[global] Arguments fromMins : simpl never.
#[global] Arguments durationOf : simpl never.

(** The ways the advisor can fail: its call throws, its reply holds no
    text that parses, or the parsed value has no array under [tasks] or
    no text under [summary]. *)
Inductive AdvisorFailure (JSON_parse : string -> option JsValue) : ProviderReply -> Prop :=
| call_throws : AdvisorFailure JSON_parse ProviderFails
| no_json (raw : string) :
    JSON_parse (extractJson raw) = None ->
    AdvisorFailure JSON_parse (ProviderReturns raw)
| tasks_not_array (raw : string) (parsed : JsValue) :
    JSON_parse (extractJson raw) = Some parsed ->
    (forall l, getProp parsed "tasks" <> Normal (JArr l)) ->
    AdvisorFailure JSON_parse (ProviderReturns raw)
| summary_not_text (raw : string) (parsed : JsValue) :
    JSON_parse (extractJson raw) = Some parsed ->
    (forall s, getProp parsed "summary" <> Normal (JStr s)) ->
    AdvisorFailure JSON_parse (ProviderReturns raw).

(** ** Example states *)

Definition mkExampleTask (i s e : string) (f : Z) : Task :=
  mkTask i i "2024-05-06" s e None "" f 0.

(** The scenario of three tasks: one fixed hour from 07:00 and two flexible
    tasks. *)
Definition morning : PlannerState :=
  mkState [] [ mkExampleTask "a" "07:00" "08:00" 1;
               mkExampleTask "b" "07:30" "08:30" 0;
               mkExampleTask "c" "09:00" "09:15" 0 ].

(** Two fixed commitments that overlap each other. *)
Definition doubleBooked : PlannerState :=
  mkState [] [ mkExampleTask "a" "08:00" "10:00" 1;
               mkExampleTask "b" "09:00" "11:00" 1 ].

(** ** Reading the entries of a reply *)

(** [v.k], where reading cannot throw. *)
Definition propOf (v : JsValue) (k : string) : JsValue :=
  match getProp v k with
  | Normal x => x
  | Throw => JUndefined
  end.

(** The predicate of [find]: [p.id === task.id]. *)
Definition matchesTask (t : Task) (p : JsValue) : bool :=
  strictEqualsText (propOf p "id") (id t).

(** ** Example replies *)

(** The text of a JSON string literal around [s] (no character of [s] needs
    an escape in the examples). *)
Definition quoted (s : string) : string :=
  String (ascii_of_nat 34) (s ++ String (ascii_of_nat 34) EmptyString)%string.

Definition updateText (i s e : string) : string :=
  ("{" ++ quoted "id" ++ ":" ++ quoted i ++ ","
       ++ quoted "startTime" ++ ":" ++ quoted s ++ ","
       ++ quoted "endTime" ++ ":" ++ quoted e ++ "}")%string.

Definition replyText (sum : string) (updates : list string) : string :=
  ("{" ++ quoted "summary" ++ ":" ++ quoted sum ++ ","
       ++ quoted "tasks" ++ ":[" ++ String.concat "," updates ++ "]}")%string.

Definition updateValue (i s e : string) : JsValue :=
  JObj [("id", JStr i); ("startTime", JStr s); ("endTime", JStr e)].

Definition replyValue (sum : string) (updates : list JsValue) : JsValue :=
  JObj [("summary", JStr sum); ("tasks", JArr updates)].

(** [JSON.parse] on one given text, which it reads as [value]. *)
Definition parseOnly (text : string) (value : JsValue) : string -> option JsValue :=
  fun s => if String.eqb s text then Some value else None.

(** A day with a fixed early block and two flexible tasks. *)
Definition workday : PlannerState :=
  mkState [] [ mkExampleTask "f" "05:00" "06:30" 1;
               mkExampleTask "a" "09:00" "10:00" 0;
               mkExampleTask "b" "14:00" "14:30" 0 ].

(** A reply wrapped in chatter: a malformed time for [a], a well-formed
    update for [b], and an update for an id no task has. *)
Definition mixedJson : string :=
  replyText "ok" [ updateText "a" "9:00" "10:00";
                   updateText "b" "11:00" "11:30";
                   updateText "zz" "12:00" "13:00" ].
Definition mixedRaw : string := ("Sure! " ++ mixedJson ++ " thanks")%string.
Definition mixedUpdates : list JsValue :=
  [ updateValue "a" "9:00" "10:00";
    updateValue "b" "11:00" "11:30";
    updateValue "zz" "12:00" "13:00" ].

(** A reply that halves the hour of [a]. *)
Definition shorterJson : string := replyText "ok" [ updateText "a" "09:00" "09:30" ].
Definition shorterUpdates : list JsValue := [ updateValue "a" "09:00" "09:30" ].

(** A reply that moves [a] before 07:00 and onto the fixed block. *)
Definition earlyUpdates : list JsValue := [ updateValue "a" "05:30" "06:30" ].

(** ** The drag controller (src/preload/index.ts, [handleTaskMouseDown])

    Pointer coordinates are whole pixels. The one division of the handler,
    by 2.2 pixels a minute, is done on rationals: for whole pixels and whole
    minutes the value that is rounded is never closer than 1/110 to a tie,
    so the rounding is the one the floating-point code makes. *)

Definition TIMELINE_START : Z := 6.
Definition TIMELINE_END : Z := 23.
Definition DRAG_PX_PER_MIN : QArith_base.Q := QArith_base.Qmake 22 10.

(** [Math.round(q)]: the nearest integer, a tie going up. *)
Definition Math_round (q : QArith_base.Q) : Z :=
  Qround.Qfloor (QArith_base.Qplus q (QArith_base.Qmake 1 2)).

(** [Math.round(n / k) * k] *)
Definition roundToGrid (k : Z) (n : number) : number :=
  match n with
  | NaN => NaN
  | Num z =>
      Num (Math_round (QArith_base.Qdiv (QArith_base.inject_Z z) (QArith_base.inject_Z k)) * k)
  end.

Record DragState : Type := mkDrag {
  taskId : string;
  startClientY : Z;
  originalStart : number;
  duration : number;
  moved : bool;
  currentStart : number
}.

Record EditState : Type := mkEdit {
  edit_task : Task;
  isNew : bool
}.

(** The part of the component's state the handlers touch. *)
Record App : Type := mkApp {
  app_tasks : list Task;
  dragStateRef : option DragState;
  draggingTaskId : option string;
  dragPreviewMins : option number;
  editState : option EditState;
  suppressTimelineClick : bool
}.

(** The variables the handlers of one gesture close over. *)
Record Gesture : Type := mkGesture {
  g_task : Task;
  latestClientY : Z;
  frameRequested : bool;
  listening : bool
}.

(** [handleTaskMouseDown(e, task)] up to the registration of the listeners;
    a button other than the main one starts nothing. *)
Definition handleTaskMouseDown (button clientY : Z) (task : Task) (app : App)
  : App * option Gesture :=
  if negb (button =? 0) then (app, None)
  else
    let originalStart := timeToMins (startTime task) in
    let duration := Math_max (Num 15) (timeToMins (endTime task) - originalStart)%js in
    (mkApp (app_tasks app)
           (Some (mkDrag (id task) clientY originalStart duration false originalStart))
           (Some (id task))
           (Some (roundToGrid 15 originalStart))
           (editState app)
           (suppressTimelineClick app),
     Some (mkGesture task clientY false true)).

(** The start the frame shows: moved by the pointer's travel, kept inside the
    timeline, on the 5-minute grid. *)
Definition smoothedStart (originalStart duration : number) (dy : Z) : number :=
  match originalStart, duration with
  | Num os, Num d =>
      let deltaMinutesRaw := QArith_base.Qdiv (QArith_base.inject_Z dy) DRAG_PX_PER_MIN in
      let minStart := QArith_base.inject_Z (TIMELINE_START * 60) in
      let maxStart := QArith_base.inject_Z (TIMELINE_END * 60 - d) in
      let nextStart :=
        Qminmax.Qmax minStart
          (Qminmax.Qmin maxStart
             (QArith_base.Qplus (QArith_base.inject_Z os) deltaMinutesRaw)) in
      Num (Math_round (QArith_base.Qdiv nextStart (QArith_base.inject_Z 5)) * 5)
  | _, _ => NaN
  end.

(** The updater the frame hands to [setTasks]. *)
Definition previewTimes (dragId nextStartTime nextEndTime : string) (prev : list Task)
  : list Task :=
  List.map (fun item =>
              if negb (String.eqb (id item) dragId) then item
              else if String.eqb (startTime item) nextStartTime
                      && String.eqb (endTime item) nextEndTime then item
              else withTimes item nextStartTime nextEndTime) prev.

(** [applyDragFrame], run by the animation frame that a move asked for. *)
Definition applyDragFrame (g : Gesture) (app : App) : App * Gesture :=
  let g' := mkGesture (g_task g) (latestClientY g) false (listening g) in
  match dragStateRef app with
  | None => (app, g')
  | Some drag =>
      if negb (String.eqb (taskId drag) (id (g_task g))) then (app, g')
      else
        let dy := latestClientY g - startClientY drag in
        let moved' := moved drag || (Z.abs dy >? 3) in
        let nextStartSmoothed := smoothedStart (originalStart drag) (duration drag) dy in
        let nextEnd := (nextStartSmoothed + duration drag)%js in
        let quarterSnap := roundToGrid 15 nextStartSmoothed in
        (mkApp (previewTimes (taskId drag) (minsToTime nextStartSmoothed)
                             (minsToTime nextEnd) (app_tasks app))
               (Some (mkDrag (taskId drag) (startClientY drag) (originalStart drag)
                             (duration drag) moved' nextStartSmoothed))
               (draggingTaskId app)
               (Some quarterSnap)
               (editState app)
               (suppressTimelineClick app),
         g')
  end.

(** [onMouseMove]: remember the pointer and ask for one frame. *)
Definition onMouseMove (clientY : Z) (g : Gesture) : Gesture :=
  mkGesture (g_task g) clientY true (listening g).

(** [onMouseUp]: a moved gesture commits the start snapped to the quarter
    hour; one that did not move opens the task for editing. *)
Definition onMouseUp (g : Gesture) (app : App) : App * Gesture :=
  let g' := mkGesture (g_task g) (latestClientY g) (frameRequested g) false in
  let committed :=
    match dragStateRef app with
    | Some drag =>
        if moved drag then
          let snappedStart := roundToGrid 15 (currentStart drag) in
          let minStart := Num (TIMELINE_START * 60) in
          let maxStart := (Num (TIMELINE_END * 60) - duration drag)%js in
          let finalStart := Math_max minStart (Math_min maxStart snappedStart) in
          let finalEnd := (finalStart + duration drag)%js in
          Some (List.map (fun item =>
                            if String.eqb (id item) (id (g_task g))
                            then withTimes item (minsToTime finalStart) (minsToTime finalEnd)
                            else item) (app_tasks app))
        else None
    | None => None
    end in
  match committed with
  | Some newTasks => (mkApp newTasks None None None (editState app) true, g')
  | None =>
      (mkApp (app_tasks app) None None None
             (Some (mkEdit (g_task g) false)) (suppressTimelineClick app), g')
  end.

(** What the browser delivers during a gesture. *)
Inductive PointerEvent : Type :=
| MouseMove (clientY : Z)
| AnimationFrame
| MouseUp.

Definition deliver (ev : PointerEvent) (st : App * Gesture) : App * Gesture :=
  let (app, g) := st in
  match ev with
  | MouseMove y => if listening g then (app, onMouseMove y g) else st
  | AnimationFrame => if frameRequested g then applyDragFrame g app else st
  | MouseUp => if listening g then onMouseUp g app else st
  end.

Definition deliverAll (evs : list PointerEvent) (st : App * Gesture) : App * Gesture :=
  fold_left (fun s ev => deliver ev s) evs st.

Definition idleApp (ts : list Task) : App := mkApp ts None None None None false.

(** A 30-minute task that starts off the 5-minute grid. *)
Definition oddTask : Task := mkExampleTask "t" "09:02" "09:32" 0.

(** ** The lane assignment (src/preload/index.ts, [computeColumns])

    The renderer's tasks are the same records with booleans for [fixed] and
    [done]; the lane assignment reads the id and the two times only. *)

(** [timeToMins(task.startTime) < Math.max(...group.map(end))]; the maximum
    of no number is -Infinity, which nothing is below. *)
Definition startsBefore (task : Task) (group : list Task) : bool :=
  match List.map (fun t => timeToMins (endTime t)) group with
  | [] => false
  | e :: es => (timeToMins (startTime task) <? fold_left Math_max es e)%js
  end.

(** The inner loop over [groups]: the task joins the first group whose
    latest end is after its start, or opens a group. *)
Fixpoint addToGroups (task : Task) (groups : list (list Task)) : list (list Task) :=
  match groups with
  | [] => [[task]]
  | group :: rest =>
      if startsBefore task group then (group ++ [task]) :: rest
      else group :: addToGroups task rest
  end.

Definition buildGroups (sorted : list Task) : list (list Task) :=
  fold_left (fun groups task => addToGroups task groups) sorted [].

(** [timeToMins(task.startTime) >= timeToMins(last.endTime)] for the last
    task of a column; a column is never empty. *)
Definition fitsAfter (task : Task) (col : list Task) : bool :=
  match list.last col with
  | Some lastTask => (timeToMins (startTime task) >=? timeToMins (endTime lastTask))%js
  | None => false
  end.

Fixpoint addToCols (task : Task) (cols : list (list Task)) : list (list Task) :=
  match cols with
  | [] => [[task]]
  | col :: rest =>
      if fitsAfter task col then (col ++ [task]) :: rest
      else col :: addToCols task rest
  end.

Definition assignCols (group : list Task) : list (list Task) :=
  fold_left (fun cols task => addToCols task cols) group [].

(** [col.forEach((task) => result.set(task.id, { col: ci, totalCols }))] *)
Definition setCol (ci totalCols : nat) (col : list Task) (result : gmap string (nat * nat))
  : gmap string (nat * nat) :=
  fold_left (fun m task => <[id task := (ci, totalCols)]> m) col result.

(** [cols.forEach((col, ci) => ...)], from index [ci] on. *)
Fixpoint setCols (ci totalCols : nat) (cols : list (list Task))
         (result : gmap string (nat * nat)) : gmap string (nat * nat) :=
  match cols with
  | [] => result
  | col :: rest => setCols (S ci) totalCols rest (setCol ci totalCols col result)
  end.

Definition setGroup (result : gmap string (nat * nat)) (group : list Task)
  : gmap string (nat * nat) :=
  let cols := assignCols group in
  setCols 0 (length cols) cols result.

Definition computeColumns (ts : list Task) : gmap string (nat * nat) :=
  let sorted := sortBy byStartTime ts in
  let groups := buildGroups sorted in
  fold_left setGroup groups ∅.

(** A busy morning: three tasks around 09:00-10:30, one after, one at noon. *)
Definition busy : list Task :=
  [ mkExampleTask "c" "09:30" "10:30" 0; mkExampleTask "a" "09:00" "10:00" 0;
    mkExampleTask "b" "09:00" "10:00" 0; mkExampleTask "d" "10:00" "10:15" 0;
    mkExampleTask "e" "12:00" "13:00" 0 ].

(** A well-formed time: the text of a minute of the day, 00:00 to 23:59. *)
Definition isClockTime (s : string) : Prop :=
  exists m, 0 <= m < 1440 /\ s = fromMins (Num m).

Definition wellFormed (t : Task) : Prop :=
  isClockTime (startTime t) /\ isClockTime (endTime t).

(** The minutes of a task's start and end. *)
Definition minutes (n : number) : Z :=
  match n with
  | Num z => z
  | NaN => 0
  end.
Definition startMin (t : Task) : Z := minutes (startOf t).
Definition endMin (t : Task) : Z := minutes (endOf t).

(** ** The order of the time texts is the order of the minutes *)

Definition twoDigits (n : Z) : string := padStart2 (String_of (Num n)).

Definition comparison_eqb (c d : comparison) : bool :=
  match c, d with
  | Eq, Eq | Lt, Lt | Gt, Gt => true
  | _, _ => false
  end.

Definition isTwoChars (s : string) : bool :=
  match s with
  | String _ (String _ EmptyString) => true
  | _ => false
  end.

(** ** Sorting well-formed tasks orders them by their start minute *)

Definition hasMinutes (t : Task) : Prop :=
  startOf t = Num (startMin t) /\ endOf t = Num (endMin t).

Definition byStart (a b : Task) : Prop := startMin a <= startMin b.

(** Groups: none is empty, an earlier group ends before a later one starts,
    and each is in the order of the starts. *)
Definition apart (g g' : list Task) : Prop :=
  forall a b, In a g -> In b g' -> endMin a <= startMin b.

Definition GroupsInv (groups : list (list Task)) : Prop :=
  Forall (fun g => g <> []) groups /\
  StronglySorted apart groups /\
  Forall (StronglySorted byStart) groups.

(** Columns: none is empty, and in a column every task ends before the ones
    after it start. *)
Definition before (a b : Task) : Prop := endMin a <= startMin b.

Definition ColsInv (cols : list (list Task)) : Prop :=
  Forall (fun c => c <> []) cols /\ Forall (StronglySorted before) cols.

(** ** The map that [computeColumns] returns *)

Definition setEntry (m : gmap string (nat * nat)) (kv : string * (nat * nat))
  : gmap string (nat * nat) :=
  <[kv.1 := kv.2]> m.

Definition colEntries (ci totalCols : nat) (col : list Task) : list (string * (nat * nat)) :=
  List.map (fun t => (id t, (ci, totalCols))) col.

Fixpoint colsEntries (ci totalCols : nat) (cols : list (list Task))
  : list (string * (nat * nat)) :=
  match cols with
  | [] => []
  | col :: rest => colEntries ci totalCols col ++ colsEntries (S ci) totalCols rest
  end.

Definition groupEntries (g : list Task) : list (string * (nat * nat)) :=
  colsEntries 0 (length (assignCols g)) (assignCols g).

Definition allEntries (groups : list (list Task)) : list (string * (nat * nat)) :=
  concat (List.map groupEntries groups).

(** A test for well-formed times that computes. *)
Definition isClockTimeb (s : string) : bool :=
  match toMins s with
  | Num m => (0 <=? m) && (m <? 1440) && String.eqb (fromMins (Num m)) s
  | NaN => false
  end.

Definition wellFormedb (t : Task) : bool :=
  isClockTimeb (startTime t) && isClockTimeb (endTime t).

(** ** Texts with and without a given character *)

Fixpoint occurs (c : ascii) (s : string) : bool :=
  match s with
  | EmptyString => false
  | String a rest => Ascii.eqb a c || occurs c rest
  end.

(** ** More views of the scheduler *)

(** The test of the inner loop on a candidate start: free of every occupied
    window and over by 23:00. *)
Definition fitsAt (occupied : list Window) (duration slotStart : number) : bool :=
  negb (conflicts occupied slotStart (slotStart + duration)%js)
  && ((slotStart + duration)%js <=? Num (23 * 60))%js.

(** The visits whose scan found a slot. *)
Definition isPlaced (v : Visit) : bool :=
  match slotOf v with
  | Some _ => true
  | None => false
  end.

(** Tasks laid end to start from minute [c] on. *)
Fixpoint contiguous (c : Z) (l : list Task) : Prop :=
  match l with
  | [] => True
  | t :: rest =>
      startOf t = Num c /\ exists e, c < e /\ endOf t = Num e /\ contiguous e rest
  end.

(** A task with its times blanked: everything the schedulers must keep. *)
Definition stripTimes (t : Task) : Task := withTimes t "" "".

(** A day without fixed commitments. *)
Definition freeDay : PlannerState :=
  mkState [] [ mkExampleTask "a" "14:00" "15:00" 0;
               mkExampleTask "b" "09:10" "09:40" 0;
               mkExampleTask "c" "11:00" "11:00" 0 ].

(** A day whose tasks are all fixed. *)
Definition pinnedDay : PlannerState :=
  mkState [] [ mkExampleTask "a" "08:00" "10:00" 1;
               mkExampleTask "b" "12:30" "13:00" 1 ].

(** The ten digit characters. *)
Definition digitChars : list ascii :=
  ["0"; "1"; "2"; "3"; "4"; "5"; "6"; "7"; "8"; "9"]%char.

(** ** Views of a gesture *)

(** An event of a gesture in progress whose pointer stays within [limit]
    pixels of the press at [y0]. *)
Definition staysWithin (limit y0 : Z) (ev : PointerEvent) : Prop :=
  match ev with
  | MouseMove y => Z.abs (y - y0) <= limit
  | AnimationFrame => True
  | MouseUp => False
  end.

Definition beforeRelease (ev : PointerEvent) : Prop :=
  match ev with
  | MouseUp => False
  | _ => True
  end.

(** A gesture in progress on [task], pressed at [y0]. *)
Definition dragging (task : Task) (y0 : Z) (st : App * Gesture) : Prop :=
  listening (snd st) = true /\ g_task (snd st) = task /\
  exists drag, dragStateRef (fst st) = Some drag /\
               taskId drag = id task /\ startClientY drag = y0.

Definition movedFlag (st : App * Gesture) : bool :=
  match dragStateRef (fst st) with
  | Some drag => moved drag
  | None => false
  end.

(** The handlers rewrite the two times of the dragged task and nothing
    else. *)
Definition sameButDragged (task : Task) (before after : list Task) : Prop :=
  Forall2 (fun t u => stripTimes u = stripTimes t /\ (id t <> id task -> u = t))
          before after.

(** A gesture on [task] that has not moved: the drag state still holds the
    start [os] and the duration [d] taken at the press, the pointer is
    within 3 pixels of the press, and the task list is [ts]. *)
Definition atRest (task : Task) (y0 os d : Z) (ts : list Task) (st : App * Gesture)
  : Prop :=
  listening (snd st) = true /\ g_task (snd st) = task /\
  Z.abs (latestClientY (snd st) - y0) <= 3 /\
  app_tasks (fst st) = ts /\
  exists drag, dragStateRef (fst st) = Some drag /\
               taskId drag = id task /\ startClientY drag = y0 /\
               originalStart drag = Num os /\ duration drag = Num d /\
               moved drag = false.

(** ** The renderer's state (src/preload/index.ts)

    In the renderer a task has booleans for [fixed] and [done]. The lane
    assignment and the drag handlers above read only the id and the two
    times of a task and are stated on the stored records. *)

Module Ui.
Record Task : Type := mkTask {
  id : string;
  title : string;
  taskDate : string;
  startTime : string;
  endTime : string;
  tagId : option string;
  notes : string;
  fixed : bool;
  done : bool
}.
End Ui.

(** [{ ...t, fixed: Boolean(t.fixed), done: Boolean(t.done ?? 0) }] *)
Definition normalizeTask (t : Task) : Ui.Task :=
  Ui.mkTask (id t) (title t) (taskDate t) (startTime t) (endTime t) (tagId t) (notes t)
            (negb (fixed t =? 0)) (negb (done t =? 0)).

(** [{ ...t, fixed: t.fixed ? 1 : 0, done: t.done ? 1 : 0 }] *)
Definition toDbTask (t : Ui.Task) : Task :=
  mkTask (Ui.id t) (Ui.title t) (Ui.taskDate t) (Ui.startTime t) (Ui.endTime t)
         (Ui.tagId t) (Ui.notes t)
         (if Ui.fixed t then 1 else 0) (if Ui.done t then 1 else 0).

Definition normalizeState (s : PlannerState) : list Tag * list Ui.Task :=
  (tags s, List.map normalizeTask (tasks s)).


Record OptimizationPreview : Type := mkPreview {
  preview_tasks : list Ui.Task;
  preview_summary : string
}.

Record Planner : Type := mkPlanner {
  ui_tags : list Tag;
  ui_tasks : list Ui.Task;
  tagFilter : option string;
  optimization : option OptimizationPreview;
  optimizing : bool
}.




Definition option_string_eqb (a : option string) (b : string) : bool :=
  match a with
  | Some x => String.eqb x b
  | None => false
  end.

(** [handleDeleteTag(id)] *)
Definition handleDeleteTag (i : string) (p : Planner) : Planner :=
  mkPlanner
    (List.filter (fun t => negb (String.eqb (tag_id t) i)) (ui_tags p))
    (List.map (fun t => if option_string_eqb (Ui.tagId t) i
                        then Ui.mkTask (Ui.id t) (Ui.title t) (Ui.taskDate t)
                                       (Ui.startTime t) (Ui.endTime t) None (Ui.notes t)
                                       (Ui.fixed t) (Ui.done t)
                        else t) (ui_tasks p))
    (if option_string_eqb (tagFilter p) i then None else tagFilter p)
    (optimization p) (optimizing p).

(** Every tag a task names is one of the tags. *)
Definition tagsResolve (p : Planner) : Prop :=
  forall t i, In t (ui_tasks p) -> Ui.tagId t = Some i ->
              exists g, In g (ui_tags p) /\ tag_id g = i.

Definition examplePlanner : Planner :=
  mkPlanner [mkTag "tag-work" "Work" "#6C8CFF"; mkTag "tag-family" "Family" "#FF8CCF"]
            [ Ui.mkTask "f" "Deep work" "2024-05-06" "08:00" "10:30" (Some "tag-work") "" true false;
              Ui.mkTask "a" "Call" "2024-05-06" "12:30" "13:00" (Some "tag-family") "" false false ]
            (Some "tag-work") None false.

Inductive ViewMode : Type :=
| DayView
| WeekView
| MonthView.

Definition BASE_PX_PER_MIN : QArith_base.Q := QArith_base.inject_Z 1.

(** [openNewTask(startTime)]: the draft put up for editing as a new task;
    [uuid] is what [crypto.randomUUID()] returns. *)
Definition openNewTask (uuid selectedDate : string) (tgs : list Tag)
           (filter : option string) (startTime : option string) : Ui.Task :=
  let start := match startTime with Some s => s | None => "09:00" end in
  let startM := timeToMins start in
  let endTime := minsToTime (Math_min (startM + Num 45)%js (Num (TIMELINE_END * 60 - 5))) in
  Ui.mkTask uuid "" selectedDate start endTime
            (match filter with
             | Some f => Some f
             | None => match tgs with
                       | g :: _ => Some (tag_id g)
                       | [] => None
                       end
             end)
            "" false false.

(** [handleTimelineClick]: [y] is the pointer's distance from the top of
    the grid, in pixels, and the division by the pixels per minute is done
    on rationals; nothing happens outside the day view or right after a
    drag. *)
Definition handleTimelineClick (viewMode : ViewMode) (suppressed : bool)
           (draggingId : option string) (y : QArith_base.Q)
           (uuid selectedDate : string) (tgs : list Tag) (filter : option string)
  : option Ui.Task :=
  match viewMode with
  | DayView =>
      if suppressed then None
      else
        let effectivePxPerMin :=
          match draggingId with
          | Some _ => DRAG_PX_PER_MIN
          | None => BASE_PX_PER_MIN
          end in
        let rawMins :=
          QArith_base.Qplus (QArith_base.Qdiv y effectivePxPerMin)
                            (QArith_base.inject_Z (TIMELINE_START * 60)) in
        let snapped :=
          Math_round (QArith_base.Qdiv rawMins (QArith_base.inject_Z 15)) * 15 in
        let clamped :=
          Z.max (TIMELINE_START * 60) (Z.min (TIMELINE_END * 60 - 45) snapped) in
        Some (openNewTask uuid selectedDate tgs filter (Some (minsToTime (Num clamped))))
  | _ => None
  end.

(** ** Entries of a reply on which the callback cannot throw *)

(** Reading [p.id] throws on [null] (and on [undefined], which a parsed
    array never holds); the format test throws on a time that is, or holds
    in an array, an object with a [toString] property of its own. On an
    entry that is neither, no step of the callback throws. *)
Definition neverThrows (u : JsValue) : bool :=
  match u with
  | JUndefined | JNull => false
  | _ => negb (toStringThrows (propOf u "startTime"))
         && negb (toStringThrows (propOf u "endTime"))
  end.

(** A reply whose update for [a] has an object for its start time, and a
    well-formed update for [b]. *)
Definition brokenTimeText : string :=
  ("{" ++ quoted "id" ++ ":" ++ quoted "a" ++ ","
       ++ quoted "startTime" ++ ":{" ++ quoted "toString" ++ ":" ++ quoted "x" ++ "},"
       ++ quoted "endTime" ++ ":" ++ quoted "10:00" ++ "}")%string.
Definition brokenTimeValue : JsValue :=
  JObj [("id", JStr "a"); ("startTime", JObj [("toString", JStr "x")]);
        ("endTime", JStr "10:00")].
Definition brokenJson : string :=
  replyText "ok" [ brokenTimeText; updateText "b" "11:00" "11:30" ].
Definition brokenUpdates : list JsValue :=
  [ brokenTimeValue; updateValue "b" "11:00" "11:30" ].

(** ** The prompt of the optimizer (src/main/ollama.ts, 281-295) *)

Record ChatMessage : Type := mkMessage {
  role : string;
  content : string
}.

Module OptimizePrompt.
(** The sentences that are joined into the system message. *)
Definition sentences : list string :=
  [ "You are a scheduling optimizer. Your job is to return a JSON object — nothing else.";
    ("Schema: { " ++ quoted "summary" ++ ": " ++ quoted "<one sentence describing what changed>"
       ++ ", " ++ quoted "tasks" ++ ": [ { " ++ quoted "id" ++ ": " ++ quoted "<task id>"
       ++ ", " ++ quoted "startTime" ++ ": " ++ quoted "HH:MM"
       ++ ", " ++ quoted "endTime" ++ ": " ++ quoted "HH:MM" ++ " }, ... ] }")%string;
    "Rules:";
    "1. NEVER change tasks marked as FIXED.";
    "2. Only adjust flexible tasks.";
    "3. Minimize context switching by grouping similar categories together.";
    "4. Avoid scheduling tasks before 07:00 or after 22:00.";
    "5. Ensure no two tasks overlap.";
    "6. Preserve task durations (do not make tasks shorter or longer).";
    "7. Return valid JSON only. No markdown, no explanation outside the JSON." ].

Definition system : ChatMessage :=
  mkMessage "system" (String.concat " " sentences).
End OptimizePrompt.

(** [s.includes(part)] *)
Definition includes (s part : string) : bool :=
  match String.index 0 part s with
  | Some _ => true
  | None => false
  end.

(** ** The digits of a text of the form dd:dd *)

Definition digitValue (c : ascii) : Z := Z.of_N (N_of_ascii c) - 48.

(** The number written by the first two characters, and by the fourth and
    fifth. *)
Definition hourDigits (s : string) : Z :=
  match s with
  | String a (String b _) => 10 * digitValue a + digitValue b
  | _ => 0
  end.
Definition minuteDigits (s : string) : Z :=
  match s with
  | String _ (String _ (String _ (String d (String e _)))) =>
      10 * digitValue d + digitValue e
  | _ => 0
  end.

(** * Properties *)

(** ** Sorting keeps the elements *)

Section SortFacts.
Context {A : Type} (cmp : A -> A -> comparison).

Lemma insertSorted_perm (x : A) (l : list A) :
Permutation (insertSorted cmp x l) (x :: l).
Proof.
induction l as [|y l IH]; simpl.
- reflexivity.
- destruct (cmp y x); try reflexivity.
  + rewrite IH. apply perm_swap.
  + rewrite IH. apply perm_swap.
Qed.

Lemma sortBy_fold_perm (l acc : list A) :
Permutation (fold_left (fun acc x => insertSorted cmp x acc) l acc) (acc ++ l).
Proof.
revert acc. induction l as [|x l IH]; intros acc; simpl.
- rewrite app_nil_r. reflexivity.
- rewrite IH, insertSorted_perm. simpl. apply Permutation_middle.
Qed.

Lemma sortBy_perm (l : list A) : Permutation (sortBy cmp l) l.
Proof. unfold sortBy. rewrite sortBy_fold_perm. reflexivity. Qed.
End SortFacts.

Lemma filter_perm {A : Type} (f : A -> bool) (l l' : list A) :
  Permutation l l' -> Permutation (List.filter f l) (List.filter f l').
Proof.
  induction 1; simpl.
  - constructor.
  - destruct (f x); [constructor|]; assumption.
  - destruct (f x), (f y); try reflexivity. apply perm_swap.
  - etransitivity; eassumption.
Qed.

(** ** The loop rewrites times only *)

Lemma withTimes_id (t : Task) (s e : string) : id (withTimes t s e) = id t.
Proof. reflexivity. Qed.

Lemma withTimes_isFixed (t : Task) (s e : string) : isFixed (withTimes t s e) = isFixed t.
Proof. reflexivity. Qed.

Lemma placeLoop_visits (l : list Task) (occ : list Window) (c : number) :
  placeLoop l occ c = List.map resultOf (visits l occ c).
Proof.
  revert occ c. induction l as [|t l IH]; intros occ c; [reflexivity|].
  cbn [placeLoop visits]. unfold slotOf at 1. cbn [v_task v_occupied v_cursor].
  destruct (durationOf t <=? Num 0)%js eqn:Hd.
  - cbn [List.map]. unfold resultOf at 1, slotOf. cbn [v_task].
    rewrite Hd. now rewrite IH.
  - destruct (scan (24 * 4) occ (durationOf t) c) as [s|] eqn:Hs; cbn [List.map];
      unfold resultOf at 1, slotOf; cbn [v_task v_occupied v_cursor];
      rewrite Hd, Hs; now rewrite IH.
Qed.

Lemma visits_tasks (l : list Task) (occ : list Window) (c : number) :
  List.map v_task (visits l occ c) = l.
Proof.
  revert occ c. induction l as [|t l IH]; intros occ c; [reflexivity|].
  cbn [visits]. destruct (slotOf _); cbn [List.map v_task]; now rewrite IH.
Qed.

Lemma resultOf_id (v : Visit) : id (resultOf v) = id (v_task v).
Proof. unfold resultOf. now destruct (slotOf v). Qed.

Lemma resultOf_isFixed (v : Visit) : isFixed (resultOf v) = isFixed (v_task v).
Proof. unfold resultOf. now destruct (slotOf v). Qed.

Lemma placeLoop_ids (l : list Task) (occ : list Window) (c : number) :
  List.map id (placeLoop l occ c) = List.map id l.
Proof.
  rewrite placeLoop_visits, List.map_map.
  rewrite <- (visits_tasks l occ c) at 2. rewrite List.map_map.
  apply List.map_ext. intros v. apply resultOf_id.
Qed.

Lemma placeLoop_flexible (l : list Task) (occ : list Window) (c : number) :
  Forall (fun t => isFixed t = false) l ->
  List.filter (fun t => isFixed t) (placeLoop l occ c) = [].
Proof.
  intros Hl. rewrite placeLoop_visits.
  rewrite <- (visits_tasks l occ c) in Hl.
  induction (visits l occ c) as [|v vs IH]; simpl in *; [reflexivity|].
  inversion Hl; subst. rewrite resultOf_isFixed.
  match goal with H : isFixed (v_task v) = false |- _ => rewrite H end.
  now apply IH.
Qed.

Lemma flexibleOf_flexible (state : PlannerState) :
  Forall (fun t => isFixed t = false) (sortedFlexOf state).
Proof.
  apply List.Forall_forall. intros t Ht.
  apply (Permutation_in _ (sortBy_perm byStartTime _)) in Ht.
  apply filter_In in Ht. destruct Ht as [_ Ht].
  now apply negb_true_iff in Ht.
Qed.

Lemma fallback_perm (state : PlannerState) :
  Permutation (res_tasks (fallbackOptimize state))
              (fixedOf state ++ List.map resultOf (visitsOf state)).
Proof.
  unfold fallbackOptimize, visitsOf. cbn [res_tasks].
  rewrite sortBy_perm, placeLoop_visits. reflexivity.
Qed.

Lemma filter_split_perm {A : Type} (f : A -> bool) (l : list A) :
  Permutation l (List.filter f l ++ List.filter (fun x => negb (f x)) l).
Proof.
  induction l as [|x l IH]; simpl; [constructor|].
  destruct (f x); simpl.
  - now constructor.
  - rewrite IH at 1. apply Permutation_middle.
Qed.

(** ** Facts on the orchestrator's steps *)

Lemma mapM_Forall2 {A B : Type} (f : A -> exc B) (l : list A) (out : list B) :
  mapM f l = Normal out -> Forall2 (fun x y => f x = Normal y) l out.
Proof.
  revert out. induction l as [|x l IH]; intros out H; cbn in H.
  - injection H as <-. constructor.
  - destruct (f x) as [y|] eqn:Hx; cbn in H; [|discriminate].
    destruct (mapM f l) as [ys|] eqn:Hl; cbn in H; [|discriminate].
    injection H as <-. constructor; [assumption|]. now apply IH.
Qed.

Lemma Forall2_mapM {A B : Type} (f : A -> exc B) (l : list A) (out : list B) :
  Forall2 (fun x y => f x = Normal y) l out -> mapM f l = Normal out.
Proof.
  induction 1 as [|x y l out Hx _ IH]; cbn; [reflexivity|].
  now rewrite Hx, IH.
Qed.

Lemma applyUpdates_fixed (updates : list JsValue) (t : Task) :
  isFixed t = true -> applyUpdates updates t = Normal t.
Proof. intros H. unfold applyUpdates. now rewrite H. Qed.

Lemma applyUpdates_shape (updates : list JsValue) (t u : Task) :
  applyUpdates updates t = Normal u ->
  u = t \/ (isFixed t = false /\ exists s e, u = withTimes t s e).
Proof.
  unfold applyUpdates. intros H.
  destruct (isFixed t) eqn:Hf; [injection H as <-; now left|].
  destruct (findUpdate updates (id t)) as [[upd|]|]; cbn in H;
    [| injection H as <-; now left | discriminate].
  destruct (getProp upd "startTime") as [s|]; cbn in H; [|discriminate].
  destruct (regexTest s) as [[|]|]; cbn in H;
    [| injection H as <-; now left | discriminate].
  destruct (getProp upd "endTime") as [e|]; cbn in H; [|discriminate].
  destruct (regexTest e) as [[|]|]; cbn in H;
    [| injection H as <-; now left | discriminate].
  injection H as <-. right. split; [reflexivity|]. eauto.
Qed.

Lemma applyUpdates_keeps (updates : list JsValue) (t u : Task) :
  applyUpdates updates t = Normal u ->
  id u = id t /\ isFixed u = isFixed t /\ (isFixed t = true -> u = t).
Proof.
  intros H. destruct (applyUpdates_shape _ _ _ H) as [->|[Hf (s & e & ->)]].
  - auto.
  - repeat split. intros Ht. congruence.
Qed.

Lemma advised_fixed_filter (updates : list JsValue) (l out : list Task) :
  mapM (applyUpdates updates) l = Normal out ->
  List.filter isFixed out = List.filter isFixed l /\
  List.map id out = List.map id l.
Proof.
  intros H. apply mapM_Forall2 in H.
  induction H as [|t u l out Htu _ [IHf IHi]]; [split; reflexivity|].
  destruct (applyUpdates_keeps _ _ _ Htu) as (Hid & Hfx & Hsame).
  cbn. rewrite Hfx, Hid, IHi. split; [|reflexivity].
  destruct (isFixed t) eqn:Hf; [|assumption].
  rewrite (Hsame eq_refl), IHf. reflexivity.
Qed.

Section OrchestratorFacts.
Variable JSON_parse : string -> option JsValue.

Lemma advisorPlan_inv (reply : ProviderReply) (state : PlannerState) (r : OptimizeResult) :
advisorPlan JSON_parse reply state = Normal r ->
exists raw parsed updates text out,
  reply = ProviderReturns raw /\
  JSON_parse (extractJson raw) = Some parsed /\
  getProp parsed "tasks" = Normal (JArr updates) /\
  getProp parsed "summary" = Normal (JStr text) /\
  mapM (applyUpdates updates) (tasks state) = Normal out /\
  r = mkResult out text.
Proof.
unfold advisorPlan. intros H.
destruct reply as [|raw]; cbn in H; [discriminate|].
destruct (JSON_parse (extractJson raw)) as [parsed|] eqn:Hp; cbn in H; [|discriminate].
destruct (getProp parsed "tasks") as [pt|] eqn:Ht; cbn in H; [|discriminate].
destruct pt as [| | | | |items|]; cbn in H; try discriminate.
destruct (getProp parsed "summary") as [ps|] eqn:Hs; cbn in H; [|discriminate].
destruct ps as [| | | |text| |]; cbn in H; try discriminate.
destruct (mapM (applyUpdates items) (tasks state)) as [out|] eqn:Hm; cbn in H;
  [|discriminate].
injection H as <-. exists raw, parsed, items, text, out. repeat split; auto.
Qed.

Lemma advisorPlan_intro (raw : string) (state : PlannerState)
    (parsed : JsValue) (updates : list JsValue) (text : string) (out : list Task) :
JSON_parse (extractJson raw) = Some parsed ->
getProp parsed "tasks" = Normal (JArr updates) ->
getProp parsed "summary" = Normal (JStr text) ->
mapM (applyUpdates updates) (tasks state) = Normal out ->
optimizePlanWithOllama JSON_parse (ProviderReturns raw) state
  = Normal (mkResult out text).
Proof.
intros Hp Ht Hs Hm. unfold optimizePlanWithOllama, advisorPlan. cbn.
rewrite Hp. cbn. rewrite Ht. cbn. rewrite Hs. cbn. rewrite Hm. reflexivity.
Qed.

Lemma optimize_returns (reply : ProviderReply) (state : PlannerState) :
  exists r, optimizePlanWithOllama JSON_parse reply state = Normal r /\
    (advisorPlan JSON_parse reply state = Normal r \/
     (advisorPlan JSON_parse reply state = Throw /\ r = fallbackOptimize state)).
Proof.
  unfold optimizePlanWithOllama.
  destruct (advisorPlan JSON_parse reply state) as [r|]; cbn; eauto.
Qed.
End OrchestratorFacts.

Lemma fallback_keeps_fixed (state : PlannerState) :
  (forall t, In t (tasks state) -> isFixed t = true ->
             In t (res_tasks (fallbackOptimize state))) /\
  Permutation (List.filter isFixed (res_tasks (fallbackOptimize state)))
              (List.filter isFixed (tasks state)).
Proof.
  split.
  - intros t Hin Hf.
    apply (Permutation_in _ (Permutation_sym (fallback_perm state))).
    apply in_or_app. left. unfold fixedOf. apply filter_In. auto.
  - rewrite (filter_perm _ _ _ (fallback_perm state)).
    rewrite List.filter_app. unfold visitsOf.
    rewrite <- placeLoop_visits.
    rewrite (placeLoop_flexible _ _ _ (flexibleOf_flexible state)).
    rewrite app_nil_r. unfold fixedOf.
    assert (H : forall l : list Task,
               List.filter isFixed (List.filter (fun t => isFixed t) l)
               = List.filter isFixed l).
    { induction l as [|x l IH]; cbn; [reflexivity|].
      destruct (isFixed x) eqn:Hx; cbn; rewrite ?Hx, IH; reflexivity. }
    rewrite H. reflexivity.
Qed.

(** C1. Fixed-task immunity: whatever the advisor answers, every fixed task
    of the input is in the result of [fallbackOptimize] and in the result of
    [optimizePlanWithOllama] as the very same record, so with its start and
    end times as they were; and the fixed tasks of either result are exactly
    the fixed tasks of the input. *)
Theorem fixed_task_immunity
        (JSON_parse : string -> option JsValue) (reply : ProviderReply)
        (state : PlannerState) :
  ((forall t, In t (tasks state) -> isFixed t = true ->
              In t (res_tasks (fallbackOptimize state))) /\
   Permutation (List.filter isFixed (res_tasks (fallbackOptimize state)))
               (List.filter isFixed (tasks state))) /\
  exists r,
    optimizePlanWithOllama JSON_parse reply state = Normal r /\
    (forall t, In t (tasks state) -> isFixed t = true -> In t (res_tasks r)) /\
    Permutation (List.filter isFixed (res_tasks r))
                (List.filter isFixed (tasks state)).
Proof.
  split; [apply fallback_keeps_fixed|].
  destruct (optimize_returns JSON_parse reply state) as (r & Hr & [Hadv|[_ ->]]).
  - exists r. split; [assumption|].
    apply advisorPlan_inv in Hadv.
    destruct Hadv as (raw & parsed & updates & text & out & _ & _ & _ & _ & Hm & ->).
    cbn [res_tasks]. split.
    + intros t Hin Hf. apply mapM_Forall2 in Hm.
      clear -Hin Hf Hm. induction Hm as [|x y l out Hxy _ IH]; [contradiction|].
      destruct Hin as [->|Hin].
      * rewrite (applyUpdates_fixed _ _ Hf) in Hxy. injection Hxy as <-. now left.
      * right. now apply IH.
    + destruct (advised_fixed_filter _ _ _ Hm) as [-> _]. reflexivity.
  - exists (fallbackOptimize state). split; [assumption|].
    apply fallback_keeps_fixed.
Qed.

(** C6. Failure transparency: [optimizePlanWithOllama] always returns and
    never throws; and when the advisor's call throws, or its reply does not
    parse, or the parsed value has no array under [tasks] or no text under
    [summary], what it returns is the result of [fallbackOptimize] on the
    same state. *)
Theorem advisor_failure_falls_back
        (JSON_parse : string -> option JsValue) (reply : ProviderReply)
        (state : PlannerState) :
  (exists r, optimizePlanWithOllama JSON_parse reply state = Normal r) /\
  (AdvisorFailure JSON_parse reply ->
   optimizePlanWithOllama JSON_parse reply state = Normal (fallbackOptimize state)).
Proof.
  split.
  - destruct (optimize_returns JSON_parse reply state) as (r & Hr & _). eauto.
  - intros Hfail. unfold optimizePlanWithOllama.
    destruct (advisorPlan JSON_parse reply state) as [r|] eqn:Hadv; [|reflexivity].
    exfalso. apply advisorPlan_inv in Hadv.
    destruct Hadv as (raw & parsed & updates & text & out & -> & Hp & Ht & Hs & _).
    inversion Hfail as [|raw' Hn|raw' parsed' Hp' Hbad|raw' parsed' Hp' Hbad]; subst.
    + congruence.
    + rewrite Hp in Hp'. injection Hp' as <-. exact (Hbad _ Ht).
    + rewrite Hp in Hp'. injection Hp' as <-. exact (Hbad _ Hs).
Qed.

(** ** Times written by the scheduler read back as they were *)

Lemma number_eqb_eq (a b : number) : number_eqb a b = true -> a = b.
Proof.
  destruct a, b; cbn; try discriminate; try reflexivity.
  intros H. apply Z.eqb_eq in H. now subst.
Qed.

Lemma roundtrip_table :
  forallb (fun n => number_eqb (toMins (fromMins (Num (Z.of_nat n)))) (Num (Z.of_nat n)))
          (seq 0 1440) = true.
Proof. vm_compute. reflexivity. Qed.

Lemma toMins_fromMins (z : Z) :
  0 <= z <= 1439 -> toMins (fromMins (Num z)) = Num z.
Proof.
  intros Hz. pose proof roundtrip_table as H.
  rewrite forallb_forall in H.
  specialize (H (Z.to_nat z)).
  rewrite Z2Nat.id in H by lia.
  apply number_eqb_eq, H, in_seq. lia.
Qed.

(** ** What a successful scan guarantees *)

Lemma conflicts_false (occ : list Window) (s e : number) (w : Window) :
  conflicts occ s e = false -> In w occ ->
  ((s <? w_end w)%js && (e >? w_start w)%js) = false.
Proof.
  unfold conflicts. intros H Hin.
  destruct ((s <? w_end w)%js && (e >? w_start w)%js) eqn:Hw; [|reflexivity].
  assert (existsb (fun w => (s <? w_end w)%js && (e >? w_start w)%js) occ = true)
    by (apply existsb_exists; eauto).
  congruence.
Qed.

Lemma scan_S (n : nat) (occ : list Window) (d s : number) :
  scan (S n) occ d s =
  if negb (conflicts occ s (s + d)%js) && (s + d <=? Num (23 * 60))%js
  then Some s
  else scan n occ d (s + Num 15)%js.
Proof. reflexivity. Qed.

Lemma scan_sound (n : nat) (occ : list Window) (d s r : number) (z : Z) :
  scan n occ d s = Some r -> s = Num z ->
  exists zr zd, r = Num zr /\ d = Num zd /\ z <= zr /\ zr + zd <= 1380 /\
                conflicts occ (Num zr) (Num (zr + zd)) = false.
Proof.
  revert s z. induction n as [|n IH]; intros s z H Hs; [discriminate|].
  rewrite scan_S in H.
  destruct (negb (conflicts occ s (s + d)%js) && (s + d <=? Num (23 * 60))%js) eqn:Hc.
  - injection H as <-. subst s.
    apply andb_true_iff in Hc. destruct Hc as [Hc Hle].
    apply negb_true_iff in Hc.
    destruct d as [|zd]; cbn in Hle; [discriminate|].
    exists z, zd. cbn in Hc. repeat split; try assumption; lia.
  - subst s. destruct (IH _ (z + 15) H eq_refl) as (zr & zd & ? & ? & ? & ? & ?).
    exists zr, zd. repeat split; try assumption. lia.
Qed.

(** A visit whose scan succeeds: the slot found, in integers. *)
Lemma slotOf_sound (v : Visit) (s : number) (zc : Z) :
  slotOf v = Some s -> v_cursor v = Num zc ->
  exists zs zd, s = Num zs /\ durationOf (v_task v) = Num zd /\ 0 < zd /\
                zc <= zs /\ zs + zd <= 1380 /\
                conflicts (v_occupied v) (Num zs) (Num (zs + zd)) = false.
Proof.
  unfold slotOf. intros H Hc.
  destruct (durationOf (v_task v) <=? Num 0)%js eqn:Hd; [discriminate|].
  destruct (scan_sound _ _ _ _ _ _ H Hc) as (zs & zd & -> & Hdur & ? & ? & ?).
  exists zs, zd. rewrite Hdur in Hd. cbn in Hd. apply Z.leb_gt in Hd.
  repeat split; assumption.
Qed.

(** The cursor never moves back from 07:00, and windows are never removed. *)
Lemma visits_invariant (l : list Task) (occ : list Window) (c : number) (zc : Z)
      (v : Visit) :
  c = Num zc -> In v (visits l occ c) ->
  (exists z, v_cursor v = Num z /\ zc <= z) /\ incl occ (v_occupied v).
Proof.
  revert occ c zc. induction l as [|t l IH]; intros occ c zc Hc Hin; [contradiction|].
  cbn [visits] in Hin.
  destruct (slotOf (mkVisit t occ c)) as [s|] eqn:Hs.
  - destruct Hin as [<-|Hin].
    + cbn. split; [exists zc; split; [assumption|lia] | apply incl_refl].
    + destruct (slotOf_sound _ _ _ Hs Hc) as (zs & zd & -> & Hd & ? & ? & ? & _).
      cbn [v_task] in Hd. rewrite Hd in Hin. cbn in Hin.
      destruct (IH _ _ (zs + zd) eq_refl Hin) as [(z & Hz & ?) Hincl].
      split; [exists z; split; [assumption|lia]|].
      intros w Hw. apply Hincl, in_or_app. now left.
  - destruct Hin as [<-|Hin].
    + cbn. split; [exists zc; split; [assumption|lia] | apply incl_refl].
    + apply (IH _ _ _ Hc Hin).
Qed.

(** A slot found earlier is among the windows of every later visit. *)
Lemma visits_earlier_window (l : list Task) (occ : list Window) (c : number) (zc : Z)
      (i j : nat) (v1 v2 : Visit) (s1 : number) :
  c = Num zc -> (i < j)%nat ->
  nth_error (visits l occ c) i = Some v1 ->
  nth_error (visits l occ c) j = Some v2 ->
  slotOf v1 = Some s1 ->
  In (mkWindow s1 (s1 + durationOf (v_task v1))%js) (v_occupied v2).
Proof.
  revert occ c zc i j. induction l as [|t l IH]; intros occ c zc i j Hc Hij H1 H2 Hs1.
  - destruct i; discriminate.
  - cbn [visits] in H1, H2. destruct j as [|j]; [lia|].
    destruct (slotOf (mkVisit t occ c)) as [s|] eqn:Hs.
    + destruct (slotOf_sound _ _ _ Hs Hc) as (zs & zd & -> & Hd & _).
      cbn [v_task] in Hd. rewrite Hd in H1, H2. cbn [num_add num_lift2] in H1, H2.
      destruct i as [|i]; cbn [nth_error] in H1, H2.
      * injection H1 as <-. rewrite Hs in Hs1. injection Hs1 as <-.
        cbn [v_task]. rewrite Hd. cbn [num_add num_lift2].
        apply nth_error_In in H2.
        destruct (visits_invariant _ _ _ _ _ eq_refl H2) as [_ Hincl].
        apply Hincl, in_or_app. right. now left.
      * apply (IH _ _ _ i j eq_refl ltac:(lia) H1 H2 Hs1).
    + destruct i as [|i]; cbn [nth_error] in H1, H2.
      * injection H1 as <-. congruence.
      * apply (IH _ _ _ i j Hc ltac:(lia) H1 H2 Hs1).
Qed.

(** The interval of a placed task is the slot that was found for it. *)
Lemma placed_interval (state : PlannerState) (v : Visit) (s : number) :
  In v (visitsOf state) -> slotOf v = Some s ->
  exists zs zd, s = Num zs /\ durationOf (v_task v) = Num zd /\ 0 < zd /\
                420 <= zs /\ zs + zd <= 1380 /\
                startOf (resultOf v) = Num zs /\
                endOf (resultOf v) = Num (zs + zd) /\
                conflicts (v_occupied v) (Num zs) (Num (zs + zd)) = false.
Proof.
  intros Hin Hs.
  destruct (visits_invariant _ _ _ 420 _ eq_refl Hin) as [(zc & Hc & Hzc) _].
  destruct (slotOf_sound _ _ _ Hs Hc) as (zs & zd & -> & Hd & ? & ? & ? & ?).
  exists zs, zd. unfold startOf, endOf, resultOf. rewrite Hs, Hd.
  cbn [withTimes startTime endTime num_add num_lift2].
  rewrite !toMins_fromMins by lia.
  repeat split; try assumption; lia.
Qed.

Lemma visit_result_in_output (state : PlannerState) (v : Visit) :
  In v (visitsOf state) -> In (resultOf v) (res_tasks (fallbackOptimize state)).
Proof.
  intros Hin.
  apply (Permutation_in _ (Permutation_sym (fallback_perm state))).
  apply in_or_app. right. now apply in_map.
Qed.

Lemma overlaps_conflict (f r : Task) (occ : list Window) (zs ze : Z) :
  In (mkWindow (startOf f) (endOf f)) occ ->
  startOf r = Num zs -> endOf r = Num ze ->
  conflicts occ (Num zs) (Num ze) = false ->
  overlaps f r = false.
Proof.
  intros Hin Hs He Hc. pose proof (conflicts_false _ _ _ _ Hc Hin) as H.
  cbn [w_start w_end] in H. unfold overlaps. rewrite Hs, He.
  destruct (startOf f) as [|a], (endOf f) as [|b]; cbn in *; try reflexivity.
  - now rewrite andb_false_r.
  - rewrite Z.gtb_ltb in H. rewrite andb_comm. exact H.
Qed.

Lemma overlaps_sym (a b : Task) : overlaps a b = overlaps b a.
Proof. unfold overlaps. apply andb_comm. Qed.

(** C3, as amended. Conflict freedom of the placed tasks: in the output of
    [fallbackOptimize], which holds the fixed tasks and one result for every
    visit of a flexible task, a flexible task that was placed in a found
    slot overlaps no fixed task and no other placed flexible task. (Two
    fixed tasks keep whatever overlap they came with.) *)
Theorem placed_tasks_conflict_free (state : PlannerState) :
  Permutation (res_tasks (fallbackOptimize state))
              (fixedOf state ++ List.map resultOf (visitsOf state)) /\
  (forall f v s,
      In f (tasks state) -> isFixed f = true ->
      In v (visitsOf state) -> slotOf v = Some s ->
      overlaps f (resultOf v) = false) /\
  (forall i j v1 v2 s1 s2,
      i <> j ->
      nth_error (visitsOf state) i = Some v1 ->
      nth_error (visitsOf state) j = Some v2 ->
      slotOf v1 = Some s1 -> slotOf v2 = Some s2 ->
      overlaps (resultOf v1) (resultOf v2) = false).
Proof.
  split; [apply fallback_perm|]. split.
  - intros f v s Hf Hfx Hv Hs.
    destruct (placed_interval _ _ _ Hv Hs)
      as (zs & zd & _ & _ & _ & _ & _ & Hst & Hen & Hc).
    apply (overlaps_conflict f _ (v_occupied v) zs (zs + zd)); try assumption.
    destruct (visits_invariant _ _ _ 420 _ eq_refl Hv) as [_ Hincl].
    apply Hincl. unfold occupiedOf.
    apply (in_map (fun t => mkWindow (toMins (startTime t)) (toMins (endTime t)))).
    unfold fixedOf. apply filter_In. auto.
  - assert (Hlt : forall i j v1 v2 s1 s2,
               (i < j)%nat ->
               nth_error (visitsOf state) i = Some v1 ->
               nth_error (visitsOf state) j = Some v2 ->
               slotOf v1 = Some s1 -> slotOf v2 = Some s2 ->
               overlaps (resultOf v1) (resultOf v2) = false).
    { intros i j v1 v2 s1 s2 Hij H1 H2 Hs1 Hs2.
      pose proof (visits_earlier_window _ _ _ 420 _ _ _ _ _ eq_refl Hij H1 H2 Hs1) as Hw.
      destruct (placed_interval _ _ _ (nth_error_In _ _ H1) Hs1)
        as (z1 & d1 & -> & Hd1 & _ & _ & _ & Hst1 & Hen1 & _).
      destruct (placed_interval _ _ _ (nth_error_In _ _ H2) Hs2)
        as (z2 & d2 & _ & _ & _ & _ & _ & Hst2 & Hen2 & Hc2).
      apply (overlaps_conflict _ _ (v_occupied v2) z2 (z2 + d2)); try assumption.
      rewrite Hst1, Hen1. rewrite Hd1 in Hw. exact Hw. }
    intros i j v1 v2 s1 s2 Hij H1 H2 Hs1 Hs2.
    destruct (Nat.lt_total i j) as [Hl|[He|Hg]]; [eauto | contradiction |].
    rewrite overlaps_sym. eauto.
Qed.

(** C3, as stated, fails: two fixed tasks that overlap in the input are both
    in the output, unmoved and overlapping. *)
Lemma fixed_tasks_still_overlap :
  exists a b,
    In a (res_tasks (fallbackOptimize doubleBooked)) /\
    In b (res_tasks (fallbackOptimize doubleBooked)) /\
    id a <> id b /\ isFixed a = true /\ isFixed b = true /\
    overlaps a b = true.
Proof.
  exists (mkExampleTask "a" "08:00" "10:00" 1), (mkExampleTask "b" "09:00" "11:00" 1).
  vm_compute. repeat split; auto. discriminate.
Qed.

(** C4. Duration and window of a placement: a flexible task for which the
    scan finds a slot has a positive duration, and its result in the output
    has that same duration, starts at or after 07:00 (420) and ends at or
    before 23:00 (1380). *)
Theorem placed_duration_and_window (state : PlannerState) (v : Visit) (s : number) :
  In v (visitsOf state) -> slotOf v = Some s ->
  In (resultOf v) (res_tasks (fallbackOptimize state)) /\
  (Num 0 <? durationOf (v_task v))%js = true /\
  (endOf (resultOf v) - startOf (resultOf v))%js = durationOf (v_task v) /\
  (Num 420 <=? startOf (resultOf v))%js = true /\
  (endOf (resultOf v) <=? Num 1380)%js = true.
Proof.
  intros Hv Hs. split; [now apply visit_result_in_output|].
  destruct (placed_interval _ _ _ Hv Hs)
    as (zs & zd & _ & Hd & ? & ? & ? & -> & -> & _).
  rewrite Hd. cbn. repeat split; try lia. f_equal. lia.
Qed.

Lemma placed_duration_and_window_witness :
  let v := mkVisit (mkExampleTask "b" "07:30" "08:30" 0)
                   [mkWindow (Num 420) (Num 480)] (Num 420) in
  In (resultOf v) (res_tasks (fallbackOptimize morning)) /\
  (Num 0 <? durationOf (v_task v))%js = true /\
  (endOf (resultOf v) - startOf (resultOf v))%js = durationOf (v_task v) /\
  (Num 420 <=? startOf (resultOf v))%js = true /\
  (endOf (resultOf v) <=? Num 1380)%js = true.
Proof.
  intros v. apply (placed_duration_and_window morning v (Num 480)).
  - vm_compute. auto.
  - vm_compute. reflexivity.
Defined.

Lemma resultOf_passthrough (v : Visit) : slotOf v = None -> resultOf v = v_task v.
Proof. unfold resultOf. now intros ->. Qed.

Lemma visits_cover_flexible (state : PlannerState) :
  Permutation (List.map v_task (visitsOf state)) (flexibleOf state).
Proof. unfold visitsOf. rewrite visits_tasks. apply sortBy_perm. Qed.

(** C8. Totality and passthrough of the fallback: [fallbackOptimize] is a
    function defined on every state (its scan is bounded by 96 attempts, and
    no step of it can throw); the ids of its output are the ids of the
    input, each as often as it came in; every flexible task is visited
    once; a flexible task whose duration is not positive, and a visited task
    for which the scan of 96 attempts finds no slot, is in the output as the
    very record it was. *)
Theorem fallback_total_passthrough (state : PlannerState) :
  Permutation (List.map id (res_tasks (fallbackOptimize state)))
              (List.map id (tasks state)) /\
  Permutation (List.map v_task (visitsOf state)) (flexibleOf state) /\
  (forall t, In t (tasks state) -> isFixed t = false ->
             (durationOf t <=? Num 0)%js = true ->
             In t (res_tasks (fallbackOptimize state))) /\
  (forall v, In v (visitsOf state) ->
             scan (24 * 4) (v_occupied v) (durationOf (v_task v)) (v_cursor v) = None ->
             resultOf v = v_task v /\
             In (v_task v) (res_tasks (fallbackOptimize state))).
Proof.
  split; [|split; [apply visits_cover_flexible|split]].
  - rewrite (Permutation_map id (fallback_perm state)).
    rewrite List.map_app, List.map_map.
    rewrite (List.map_ext _ (fun v => id (v_task v)) resultOf_id).
    rewrite <- (List.map_map v_task id).
    rewrite (Permutation_map id (visits_cover_flexible state)).
    rewrite <- List.map_app. apply Permutation_map.
    symmetry. apply (filter_split_perm isFixed).
  - intros t Hin Hfx Hd.
    assert (Hflex : In t (flexibleOf state)).
    { unfold flexibleOf. apply filter_In. split; [assumption|]. now rewrite Hfx. }
    apply (Permutation_in _ (Permutation_sym (visits_cover_flexible state))) in Hflex.
    apply in_map_iff in Hflex. destruct Hflex as (v & <- & Hv).
    assert (Hs : slotOf v = None) by (unfold slotOf; now rewrite Hd).
    rewrite <- (resultOf_passthrough _ Hs). now apply visit_result_in_output.
  - intros v Hv Hscan.
    assert (Hs : slotOf v = None).
    { unfold slotOf. now destruct (durationOf (v_task v) <=? Num 0)%js. }
    split; [now apply resultOf_passthrough|].
    rewrite <- (resultOf_passthrough _ Hs). now apply visit_result_in_output.
Qed.

Lemma regexTest_text (s : string) : regexTest (JStr s) = Normal (isHHMM s).
Proof. unfold regexTest. cbn. now destruct (isHHMM s). Qed.

Lemma storedTime_text (s : string) : isHHMM s = true -> storedTime (JStr s) = s.
Proof. unfold storedTime. cbn. now intros ->. Qed.

Lemma mapM_total {A B : Type} (f : A -> exc B) (l : list A) :
  (forall x, In x l -> exists y, f x = Normal y) ->
  exists out, mapM f l = Normal out.
Proof.
  induction l as [|x l IH]; intros H; cbn [mapM]; [eauto|].
  destruct (H x (or_introl eq_refl)) as [y ->].
  destruct IH as [ys ->]; [intros; apply H; now right|].
  cbn. eauto.
Qed.

Lemma Forall2_nth_error {A B : Type} (R : A -> B -> Prop) (l : list A) (l' : list B)
      (i : nat) (x : A) :
  Forall2 R l l' -> nth_error l i = Some x ->
  exists y, nth_error l' i = Some y /\ R x y.
Proof.
  intros H. revert i. induction H as [|a b l l' Hab _ IH]; intros i Hi.
  - destruct i; discriminate.
  - destruct i as [|i]; cbn in *.
    + injection Hi as ->. eauto.
    + now apply IH.
Qed.

(** ** What the callback does with the first update of a task's id *)

Lemma getProp_propOf (u : JsValue) (k : string) :
  (u <> JUndefined /\ u <> JNull) -> getProp u k = Normal (propOf u k).
Proof.
  intros [H1 H2]. unfold propOf.
  destruct u; try congruence; cbn [getProp]; try reflexivity.
  destruct (lookupProp k props); reflexivity.
Qed.

Lemma matchesTask_object (t : Task) (u : JsValue) :
  matchesTask t u = true -> u <> JUndefined /\ u <> JNull.
Proof.
  unfold matchesTask, propOf. destruct u; cbn; try discriminate; split; discriminate.
Qed.

(** When [find] returns, it returns the first entry with the task's id. *)
Lemma findUpdate_normal (updates : list JsValue) (t : Task) (o : option JsValue) :
  findUpdate updates (id t) = Normal o -> o = List.find (matchesTask t) updates.
Proof.
  induction updates as [|p updates IH]; cbn [findUpdate List.find]; intros H.
  - now injection H as <-.
  - unfold matchesTask at 1, propOf.
    destruct (getProp p "id") as [pid|]; cbn [bind] in H; [|discriminate].
    destruct (strictEqualsText pid (id t)); [now injection H as <-|now apply IH].
Qed.

Lemma findUpdate_quiet (updates : list JsValue) (t : Task) :
  Forall (fun u => neverThrows u = true) updates ->
  findUpdate updates (id t) = Normal (List.find (matchesTask t) updates).
Proof.
  induction 1 as [|p updates Hp _ IH]; cbn [findUpdate List.find]; [reflexivity|].
  rewrite (getProp_propOf p "id") by (destruct p; split; discriminate).
  cbn [bind]. unfold matchesTask at 1.
  destruct (strictEqualsText (propOf p "id") (id t)); [reflexivity|exact IH].
Qed.

Lemma regexTest_quiet (v : JsValue) :
  toStringThrows v = false -> exists b, regexTest v = Normal b.
Proof. intros H. unfold regexTest. rewrite H. eauto. Qed.

(** On entries that cannot throw the callback returns. *)
Lemma applyUpdates_quiet (updates : list JsValue) (t : Task) :
  Forall (fun u => neverThrows u = true) updates ->
  exists r, applyUpdates updates t = Normal r.
Proof.
  intros Hall. unfold applyUpdates.
  destruct (isFixed t); [eauto|].
  rewrite (findUpdate_quiet _ _ Hall). cbn [bind].
  destruct (List.find (matchesTask t) updates) as [u|] eqn:Hfind; [|eauto].
  apply find_some in Hfind. destruct Hfind as [Hin Hm].
  rewrite List.Forall_forall in Hall. specialize (Hall u Hin).
  pose proof (matchesTask_object _ _ Hm) as Hobj.
  rewrite !(getProp_propOf u) by exact Hobj. cbn [bind].
  assert (Hq : toStringThrows (propOf u "startTime") = false /\
               toStringThrows (propOf u "endTime") = false).
  { unfold neverThrows in Hall. destruct u; try discriminate;
      apply andb_true_iff in Hall; destruct Hall as [Ha Hb];
      apply negb_true_iff in Ha; apply negb_true_iff in Hb; auto. }
  destruct Hq as [Hs He].
  destruct (regexTest_quiet _ Hs) as [bs ->]. cbn [bind].
  destruct bs; cbn [negb]; [|eauto].
  destruct (regexTest_quiet _ He) as [be ->]. cbn [bind].
  destruct be; cbn [negb]; eauto.
Qed.

(** What the callback returns for a flexible task is read off the first
    entry with the task's id. *)
Lemma applyUpdates_cases (updates : list JsValue) (t r : Task) :
  isFixed t = false -> applyUpdates updates t = Normal r ->
  match List.find (matchesTask t) updates with
  | None => r = t
  | Some u =>
      (regexTest (propOf u "startTime") = Normal false -> r = t) /\
      (regexTest (propOf u "endTime") = Normal false -> r = t) /\
      (forall s e, propOf u "startTime" = JStr s -> propOf u "endTime" = JStr e ->
                   isHHMM s = true -> isHHMM e = true -> r = withTimes t s e)
  end.
Proof.
  intros Hfx H. unfold applyUpdates in H. rewrite Hfx in H.
  destruct (findUpdate updates (id t)) as [o|] eqn:Hfind; cbn [bind] in H; [|discriminate].
  apply findUpdate_normal in Hfind. subst o.
  destruct (List.find (matchesTask t) updates) as [u|] eqn:Hf; [|now injection H as <-].
  apply find_some in Hf. destruct Hf as [_ Hm].
  pose proof (matchesTask_object _ _ Hm) as Hobj.
  rewrite !(getProp_propOf u) in H by exact Hobj. cbn [bind] in H.
  destruct (regexTest (propOf u "startTime")) as [[|]|] eqn:Hs; cbn [bind negb] in H;
    [| |discriminate].
  - destruct (regexTest (propOf u "endTime")) as [[|]|] eqn:He; cbn [bind negb] in H;
      [| |discriminate]; injection H as <-.
    + repeat split; try discriminate.
      intros s e Es Ee Hhs Hhe. rewrite Es, Ee, !storedTime_text by assumption.
      reflexivity.
    + repeat split; try discriminate; try reflexivity.
      intros s e _ Ee _ Hhe. rewrite Ee, regexTest_text, Hhe in He. discriminate.
  - injection H as <-. repeat split; try reflexivity.
    intros s e Es _ Hhs _. rewrite Es, regexTest_text, Hhs in Hs. discriminate.
Qed.

Lemma mapM_throw_inv {A B : Type} (f : A -> exc B) (l : list A) :
  mapM f l = Throw -> exists x, In x l /\ f x = Throw.
Proof.
  induction l as [|x l IH]; cbn [mapM]; intros H; [discriminate|].
  destruct (f x) as [y|] eqn:Hx; cbn [bind] in H.
  - destruct (mapM f l) as [ys|]; cbn [bind] in H; [discriminate|].
    destruct (IH eq_refl) as (z & Hz & Hfz). exists z. split; [now right|exact Hfz].
  - exists x. split; [now left|exact Hx].
Qed.

Lemma mapM_ext {A B : Type} (f g : A -> exc B) (l : list A) :
  (forall x, In x l -> f x = g x) -> mapM f l = mapM g l.
Proof.
  induction l as [|x l IH]; intros H; cbn [mapM]; [reflexivity|].
  rewrite (H x (or_introl eq_refl)), IH; [reflexivity|].
  intros y Hy. apply H. now right.
Qed.

(** An entry that is not [null] and does not carry the id looked for is
    stepped over by [find]. *)
Lemma findUpdate_skip (pre post : list JsValue) (u : JsValue) (t : Task) :
  u <> JUndefined -> u <> JNull -> matchesTask t u = false ->
  findUpdate (pre ++ u :: post) (id t) = findUpdate (pre ++ post) (id t).
Proof.
  intros H1 H2 Hm. induction pre as [|p pre IH]; cbn [app findUpdate].
  - rewrite (getProp_propOf u "id") by (split; assumption). cbn [bind].
    unfold matchesTask in Hm. now rewrite Hm.
  - destruct (getProp p "id") as [pid|]; cbn [bind]; [|reflexivity].
    destruct (strictEqualsText pid (id t)); [reflexivity|exact IH].
Qed.

Lemma applyUpdates_skip (pre post : list JsValue) (u : JsValue) (t : Task) :
  u <> JUndefined -> u <> JNull ->
  (isFixed t = false -> matchesTask t u = false) ->
  applyUpdates (pre ++ u :: post) t = applyUpdates (pre ++ post) t.
Proof.
  intros H1 H2 Hm. unfold applyUpdates.
  destruct (isFixed t); [reflexivity|].
  now rewrite (findUpdate_skip _ _ _ _ H1 H2 (Hm eq_refl)).
Qed.

(** A reply that parses, with an array under [tasks] and a text under
    [summary]: either the callback throws for some flexible task, which
    takes an entry that can throw, and the result is the fallback's; or the
    result is the advisor's summary with what the callback returns for each
    task. *)
Lemma parsed_reply_cases (JSON_parse : string -> option JsValue)
      (raw : string) (parsed : JsValue) (updates : list JsValue) (text : string)
      (state : PlannerState) :
  JSON_parse (extractJson raw) = Some parsed ->
  getProp parsed "tasks" = Normal (JArr updates) ->
  getProp parsed "summary" = Normal (JStr text) ->
  (optimizePlanWithOllama JSON_parse (ProviderReturns raw) state
     = Normal (fallbackOptimize state) /\
   (exists t, In t (tasks state) /\ isFixed t = false /\
              applyUpdates updates t = Throw) /\
   ~ Forall (fun u => neverThrows u = true) updates) \/
  (exists out,
     optimizePlanWithOllama JSON_parse (ProviderReturns raw) state
       = Normal (mkResult out text) /\
     Forall2 (fun t r => applyUpdates updates t = Normal r) (tasks state) out).
Proof.
  intros Hp Ht Hs.
  destruct (mapM (applyUpdates updates) (tasks state)) as [out|] eqn:Hm.
  - right. exists out. split.
    + now apply (advisorPlan_intro _ _ _ parsed updates).
    + now apply mapM_Forall2.
  - left. split; [|split].
    + unfold optimizePlanWithOllama, advisorPlan. cbn.
      rewrite Hp. cbn. rewrite Ht. cbn. rewrite Hs. cbn. rewrite Hm. reflexivity.
    + destruct (mapM_throw_inv _ _ Hm) as (t & Hin & Hthrow).
      exists t. split; [exact Hin|]. split; [|exact Hthrow].
      destruct (isFixed t) eqn:Hfx; [|reflexivity].
      rewrite (applyUpdates_fixed _ _ Hfx) in Hthrow. discriminate.
    + intros Hall.
      destruct (mapM_total (applyUpdates updates) (tasks state)) as [out Hout].
      * intros t _. now apply applyUpdates_quiet.
      * congruence.
Qed.

(** The result does not depend on an entry that is not [null] and has the
    id of no flexible task. *)
Lemma unknown_entry_ignored (JSON_parse JSON_parse' : string -> option JsValue)
      (raw raw' : string) (parsed parsed' : JsValue)
      (pre post : list JsValue) (u : JsValue) (text : string) (state : PlannerState) :
  JSON_parse (extractJson raw) = Some parsed ->
  getProp parsed "tasks" = Normal (JArr (pre ++ u :: post)) ->
  getProp parsed "summary" = Normal (JStr text) ->
  JSON_parse' (extractJson raw') = Some parsed' ->
  getProp parsed' "tasks" = Normal (JArr (pre ++ post)) ->
  getProp parsed' "summary" = Normal (JStr text) ->
  u <> JUndefined -> u <> JNull ->
  (forall t, In t (tasks state) -> isFixed t = false -> matchesTask t u = false) ->
  optimizePlanWithOllama JSON_parse' (ProviderReturns raw') state
  = optimizePlanWithOllama JSON_parse (ProviderReturns raw) state.
Proof.
  intros Hp Ht Hs Hp' Ht' Hs' H1 H2 Hm.
  unfold optimizePlanWithOllama, advisorPlan. cbn.
  rewrite Hp, Hp'. cbn. rewrite Ht, Ht'. cbn. rewrite Hs, Hs'. cbn.
  rewrite (mapM_ext (applyUpdates (pre ++ u :: post)) (applyUpdates (pre ++ post)));
    [reflexivity|].
  intros t Hin. apply applyUpdates_skip; auto.
Qed.

(** C7, as amended. For a reply that parses, with an array under [tasks] and
    a text under [summary], [optimizePlanWithOllama] returns, and one of two
    things holds. Either the callback throws for some flexible task, which
    takes an entry of the array that is [null] or has a time that is, or
    holds in an array, an object with a [toString] of its own: then the
    whole reply is discarded and the result is the fallback's. Or the result
    has the advisor's summary and the tasks of the state in their order,
    each flexible task decided by the first entry with its id alone: with no
    such entry it keeps its record; with a start or end time that fails the
    test for dd:dd (a text of another form, [null], a number, a missing
    field) it keeps its record; with a start and an end time that are texts
    of the form dd:dd it gets exactly these times. And an entry that is not
    [null] and has the id of no flexible task is ignored: the reply without
    it gives the same result. *)
Theorem partial_update_rejection
        (JSON_parse : string -> option JsValue)
        (raw : string) (parsed : JsValue) (updates : list JsValue) (text : string)
        (state : PlannerState) :
  JSON_parse (extractJson raw) = Some parsed ->
  getProp parsed "tasks" = Normal (JArr updates) ->
  getProp parsed "summary" = Normal (JStr text) ->
  (exists r,
    optimizePlanWithOllama JSON_parse (ProviderReturns raw) state = Normal r /\
    ((r = fallbackOptimize state /\
      (exists t, In t (tasks state) /\ isFixed t = false /\
                 applyUpdates updates t = Throw) /\
      ~ Forall (fun u => neverThrows u = true) updates) \/
     (summary r = text /\
      List.map id (res_tasks r) = List.map id (tasks state) /\
      forall i t,
        nth_error (tasks state) i = Some t -> isFixed t = false ->
        match List.find (matchesTask t) updates with
        | None => nth_error (res_tasks r) i = Some t
        | Some u =>
            (regexTest (propOf u "startTime") = Normal false ->
             nth_error (res_tasks r) i = Some t) /\
            (regexTest (propOf u "endTime") = Normal false ->
             nth_error (res_tasks r) i = Some t) /\
            (forall s e,
                propOf u "startTime" = JStr s -> propOf u "endTime" = JStr e ->
                isHHMM s = true -> isHHMM e = true ->
                nth_error (res_tasks r) i = Some (withTimes t s e))
        end))) /\
  (forall (pre post : list JsValue) (u : JsValue)
          (JSON_parse' : string -> option JsValue) (raw' : string) (parsed' : JsValue),
      updates = pre ++ u :: post ->
      u <> JUndefined -> u <> JNull ->
      (forall t, In t (tasks state) -> isFixed t = false -> matchesTask t u = false) ->
      JSON_parse' (extractJson raw') = Some parsed' ->
      getProp parsed' "tasks" = Normal (JArr (pre ++ post)) ->
      getProp parsed' "summary" = Normal (JStr text) ->
      optimizePlanWithOllama JSON_parse' (ProviderReturns raw') state
      = optimizePlanWithOllama JSON_parse (ProviderReturns raw) state).
Proof.
  intros Hp Ht Hs. split.
  - destruct (parsed_reply_cases _ _ _ _ _ state Hp Ht Hs)
      as [(Hfb & Hthrow & Hbad)|(out & Hout & Hf2)].
    + exists (fallbackOptimize state). split; [assumption|]. left. auto.
    + exists (mkResult out text). split; [assumption|]. right. cbn [summary res_tasks].
      split; [reflexivity|]. split.
      * pose proof (Forall2_mapM _ _ _ Hf2) as Hm.
        now destruct (advised_fixed_filter _ _ _ Hm).
      * intros i t Hi Hfx.
        destruct (Forall2_nth_error _ _ _ _ _ Hf2 Hi) as (r & Hr & Happ).
        pose proof (applyUpdates_cases _ _ _ Hfx Happ) as Hcase.
        destruct (List.find (matchesTask t) updates) as [u|]; [|congruence].
        destruct Hcase as (Hc1 & Hc2 & Hc3). repeat split.
        -- intros H. rewrite Hr. f_equal. now apply Hc1.
        -- intros H. rewrite Hr. f_equal. now apply Hc2.
        -- intros s e Es Ee Hhs Hhe. rewrite Hr. f_equal. now apply (Hc3 s e).
  - intros pre post u JSON_parse' raw' parsed' -> H1 H2 Hm Hp' Ht' Hs'.
    now apply (unknown_entry_ignored JSON_parse JSON_parse' raw raw' parsed parsed'
                 pre post u text state).
Qed.

Lemma partial_update_rejection_witness :
  exists out,
    optimizePlanWithOllama (parseOnly mixedJson (replyValue "ok" mixedUpdates))
                           (ProviderReturns mixedRaw) workday
      = Normal (mkResult out "ok") /\
    List.map id out = ["f"; "a"; "b"] /\
    nth_error out 1 = Some (mkExampleTask "a" "09:00" "10:00" 0) /\
    nth_error out 2 = Some (mkExampleTask "b" "11:00" "11:30" 0) /\
    optimizePlanWithOllama
      (parseOnly "reply" (replyValue "ok" [ updateValue "a" "9:00" "10:00";
                                            updateValue "b" "11:00" "11:30" ]))
      (ProviderReturns "reply") workday
    = Normal (mkResult out "ok").
Proof.
  destruct (partial_update_rejection
              (parseOnly mixedJson (replyValue "ok" mixedUpdates))
              mixedRaw (replyValue "ok" mixedUpdates) mixedUpdates "ok" workday)
    as [(r & Hr & [(_ & _ & Hbad)|(Hsum & Hids & Hpos)]) Hskip].
  - vm_compute. reflexivity.
  - reflexivity.
  - reflexivity.
  - exfalso. apply Hbad. repeat constructor.
  - destruct r as [out text]. cbn [summary res_tasks] in *. subst text.
    exists out. split; [exact Hr|]. split; [exact Hids|]. split; [|split].
    + destruct (Hpos 1%nat (mkExampleTask "a" "09:00" "10:00" 0) eq_refl eq_refl)
        as (Hstart & _ & _).
      apply Hstart. reflexivity.
    + destruct (Hpos 2%nat (mkExampleTask "b" "14:00" "14:30" 0) eq_refl eq_refl)
        as (_ & _ & Happlied).
      exact (Happlied "11:00" "11:30" eq_refl eq_refl eq_refl eq_refl).
    + rewrite <- Hr.
      apply (Hskip [ updateValue "a" "9:00" "10:00"; updateValue "b" "11:00" "11:30" ]
                   [] (updateValue "zz" "12:00" "13:00")
                   (parseOnly "reply"
                      (replyValue "ok" [ updateValue "a" "9:00" "10:00";
                                         updateValue "b" "11:00" "11:30" ]))
                   "reply"
                   (replyValue "ok" [ updateValue "a" "9:00" "10:00";
                                      updateValue "b" "11:00" "11:30" ])).
      * reflexivity.
      * discriminate.
      * discriminate.
      * intros t [<-|[<-|[<-|[]]]] Hfx; try discriminate; reflexivity.
      * reflexivity.
      * reflexivity.
      * reflexivity.
Defined.

(** C7, as stated, fails: the update for [a] has a start time that is not
    of the form dd:dd (an object with a [toString] property, on which the
    test throws), the update for [b] is well-formed; the whole reply is
    discarded, so [b] does not get 11:00-11:30 and [a] does not keep
    09:00-10:00: both are where the fallback puts them. *)
Lemma throwing_time_discards_batch :
  let a := mkExampleTask "a" "09:00" "10:00" 0 in
  let b := mkExampleTask "b" "14:00" "14:30" 0 in
  In a (tasks workday) /\ In b (tasks workday) /\
  isFixed a = false /\ isFixed b = false /\
  List.find (matchesTask a) brokenUpdates = Some brokenTimeValue /\
  timeText (propOf brokenTimeValue "startTime") = None /\
  List.find (matchesTask b) brokenUpdates = Some (updateValue "b" "11:00" "11:30") /\
  isHHMM "11:00" = true /\ isHHMM "11:30" = true /\
  exists r,
    optimizePlanWithOllama (parseOnly brokenJson (replyValue "ok" brokenUpdates))
                           (ProviderReturns brokenJson) workday
      = Normal r /\
    r = fallbackOptimize workday /\
    res_tasks r = [ mkExampleTask "f" "05:00" "06:30" 1;
                    withTimes a "07:00" "08:00";
                    withTimes b "08:00" "08:30" ] /\
    ~ In (withTimes b "11:00" "11:30") (res_tasks r) /\
    ~ In a (res_tasks r).
Proof.
  vm_compute. repeat split; auto.
  eexists. split; [reflexivity|]. split; [reflexivity|]. split; [reflexivity|].
  split; intros [H|[H|[H|[]]]]; discriminate.
Qed.

(** C2, as amended. No duration is compared. For a reply that parses, with
    an array under [tasks] and a text under [summary], and a flexible task
    whose first entry with its id has a start and an end time that are texts
    of the form dd:dd: [optimizePlanWithOllama] returns, and unless the
    whole reply is discarded for the fallback's result, because the callback
    throws for some flexible task, which takes an entry of the array that is
    [null] or has a time that is, or holds in an array, an object with a
    [toString] of its own, the result has the advisor's summary and, at the
    task's place, the task with exactly the update's start and end time,
    whatever duration they imply. *)
Theorem format_valid_update_applied
        (JSON_parse : string -> option JsValue)
        (raw : string) (parsed : JsValue) (updates : list JsValue) (text : string)
        (state : PlannerState) (i : nat) (t : Task) (u : JsValue) (s e : string) :
  JSON_parse (extractJson raw) = Some parsed ->
  getProp parsed "tasks" = Normal (JArr updates) ->
  getProp parsed "summary" = Normal (JStr text) ->
  nth_error (tasks state) i = Some t -> isFixed t = false ->
  List.find (matchesTask t) updates = Some u ->
  propOf u "startTime" = JStr s -> propOf u "endTime" = JStr e ->
  isHHMM s = true -> isHHMM e = true ->
  exists r,
    optimizePlanWithOllama JSON_parse (ProviderReturns raw) state = Normal r /\
    ((r = fallbackOptimize state /\
      (exists t', In t' (tasks state) /\ isFixed t' = false /\
                  applyUpdates updates t' = Throw) /\
      ~ Forall (fun u => neverThrows u = true) updates) \/
     (summary r = text /\
      nth_error (res_tasks r) i = Some (withTimes t s e))).
Proof.
  intros Hp Ht Hs Hi Hfx Hfind Hst Hen Hhs Hhe.
  destruct (parsed_reply_cases _ _ _ _ _ state Hp Ht Hs)
    as [(Hfb & Hthrow & Hbad)|(out & Hout & Hf2)].
  - exists (fallbackOptimize state). split; [assumption|]. left. auto.
  - exists (mkResult out text). split; [assumption|]. right. cbn [summary res_tasks].
    split; [reflexivity|].
    destruct (Forall2_nth_error _ _ _ _ _ Hf2 Hi) as (r & Hr & Happ).
    pose proof (applyUpdates_cases _ _ _ Hfx Happ) as Hcase.
    rewrite Hfind in Hcase. destruct Hcase as (_ & _ & Hc).
    rewrite Hr. f_equal. now apply Hc.
Qed.

Lemma format_valid_update_applied_witness :
  exists r,
    optimizePlanWithOllama (parseOnly shorterJson (replyValue "ok" shorterUpdates))
                           (ProviderReturns shorterJson) workday
      = Normal r /\
    summary r = "ok" /\
    nth_error (res_tasks r) 1
      = Some (withTimes (mkExampleTask "a" "09:00" "10:00" 0) "09:00" "09:30").
Proof.
  destruct (format_valid_update_applied
              (parseOnly shorterJson (replyValue "ok" shorterUpdates))
              shorterJson (replyValue "ok" shorterUpdates) shorterUpdates "ok" workday
              1%nat (mkExampleTask "a" "09:00" "10:00" 0)
              (updateValue "a" "09:00" "09:30") "09:00" "09:30")
    as (r & Hr & [(_ & _ & Hbad)|[Hsum Hat]]).
  - vm_compute. reflexivity.
  - reflexivity.
  - reflexivity.
  - reflexivity.
  - reflexivity.
  - reflexivity.
  - reflexivity.
  - reflexivity.
  - reflexivity.
  - reflexivity.
  - exfalso. apply Hbad. repeat constructor.
  - exists r. split; [exact Hr|]. split; [exact Hsum|exact Hat].
Defined.

(** C2, as stated, fails: the update for [a] has both times of the form
    dd:dd and implies 30 minutes where the task had 60, and it is applied;
    the task does not keep its end time. *)
Lemma duration_change_not_rejected :
  let a := mkExampleTask "a" "09:00" "10:00" 0 in
  In a (tasks workday) /\ isFixed a = false /\
  List.find (matchesTask a) shorterUpdates = Some (updateValue "a" "09:00" "09:30") /\
  isHHMM "09:00" = true /\ isHHMM "09:30" = true /\
  durationOf a = Num 60 /\ (toMins "09:30" - toMins "09:00")%js = Num 30 /\
  exists out,
    optimizePlanWithOllama (parseOnly shorterJson (replyValue "ok" shorterUpdates))
                           (ProviderReturns shorterJson) workday
      = Normal (mkResult out "ok") /\
    nth_error out 1 = Some (withTimes a "09:00" "09:30") /\
    ~ In a out.
Proof.
  vm_compute. repeat split; auto.
  eexists. split; [reflexivity|]. split; [reflexivity|].
  intros [H|[H|[H|[]]]]; discriminate.
Qed.

(** C10. Validation is format-only. The rules on the 07:00-22:00 window and
    on overlaps are sentences of the system message of the prompt. And there
    is a state and a reply whose updates all have times of the form dd:dd
    and ids of flexible tasks of the state, with a flexible task [a] that
    lies inside the window and clear of the fixed task [f], and an update
    for [a] whose times start before 07:00 and overlap [f]: for every parser
    that reads the reply as that value, [optimizePlanWithOllama] returns the
    advisor's summary and the tasks of the state with, at the place of [a],
    [a] with the update's two times as they are; every other task is the
    record it was. *)
Theorem validation_is_format_only :
  (includes (content OptimizePrompt.system)
             "4. Avoid scheduling tasks before 07:00 or after 22:00." = true /\
   includes (content OptimizePrompt.system)
             "5. Ensure no two tasks overlap." = true) /\
  exists (state : PlannerState) (updates : list JsValue) (text : string)
         (i : nat) (f a : Task) (s e : string),
    Forall (fun u => exists j s' e' t,
                u = updateValue j s' e' /\ isHHMM s' = true /\ isHHMM e' = true /\
                In t (tasks state) /\ isFixed t = false /\ id t = j) updates /\
    In f (tasks state) /\ isFixed f = true /\
    nth_error (tasks state) i = Some a /\ isFixed a = false /\
    List.find (matchesTask a) updates = Some (updateValue (id a) s e) /\
    (Num (7 * 60) <=? startOf a)%js = true /\
    (endOf a <=? Num (22 * 60))%js = true /\
    overlaps a f = false /\
    (toMins s <? Num (7 * 60))%js = true /\
    overlaps (withTimes a s e) f = true /\
    forall (JSON_parse : string -> option JsValue) (raw : string),
      JSON_parse (extractJson raw) = Some (replyValue text updates) ->
      exists out,
        optimizePlanWithOllama JSON_parse (ProviderReturns raw) state
          = Normal (mkResult out text) /\
        length out = length (tasks state) /\
        nth_error out i = Some (withTimes a s e) /\
        (forall j t, j <> i -> nth_error (tasks state) j = Some t ->
                     nth_error out j = Some t) /\
        In f out.
Proof.
  split.
  { split; vm_compute; reflexivity. }
  exists workday, earlyUpdates, "ok", 1%nat,
         (mkExampleTask "f" "05:00" "06:30" 1),
         (mkExampleTask "a" "09:00" "10:00" 0), "05:30", "06:30".
  split.
  { repeat constructor.
    exists "a", "05:30", "06:30", (mkExampleTask "a" "09:00" "10:00" 0).
    cbn. repeat split; auto. }
  split; [cbn; auto|]. split; [reflexivity|].
  split; [reflexivity|]. split; [reflexivity|]. split; [reflexivity|].
  split; [reflexivity|]. split; [reflexivity|]. split; [reflexivity|].
  split; [reflexivity|]. split; [reflexivity|].
  intros JSON_parse raw Hp.
  exists [ mkExampleTask "f" "05:00" "06:30" 1;
           mkExampleTask "a" "05:30" "06:30" 0;
           mkExampleTask "b" "14:00" "14:30" 0 ].
  split.
  - apply (advisorPlan_intro _ _ _ _ earlyUpdates _ _ Hp); reflexivity.
  - split; [reflexivity|]. split; [reflexivity|]. split; [|left; reflexivity].
    intros j t Hj Ht.
    destruct j as [|[|[|j]]]; cbn in *; congruence.
Qed.

(** C9: what the handlers do on a press, a move of one pixel and a release:
    the gesture counts as a click, the task is opened for editing with the
    record it had, no time is committed on release, and yet the task list
    holds the task at 09:00-09:30 instead of 09:02-09:32: the frame of the
    move has already written its preview, and the release leaves it. *)
Theorem sub_threshold_drag_rewrites_times :
  exists app g,
    handleTaskMouseDown 0 100 oddTask (idleApp [oddTask]) = (app, Some g) /\
    let final := fst (deliverAll [MouseMove 101; AnimationFrame; MouseUp] (app, g)) in
    editState final = Some (mkEdit oddTask false) /\
    suppressTimelineClick final = false /\
    dragStateRef final = None /\
    app_tasks final = [withTimes oddTask "09:00" "09:30"].
Proof.
  eexists. eexists. split; [reflexivity|].
  vm_compute. repeat split; reflexivity.
Qed.

Lemma fromMins_twoDigits (m : Z) :
  fromMins (Num m) = (twoDigits (m / 60) ++ ":" ++ twoDigits (Z.rem m 60))%string.
Proof. reflexivity. Qed.

Lemma twoDigits_table :
  forallb (fun a =>
    isTwoChars (twoDigits (Z.of_nat a)) &&
    forallb (fun b =>
      comparison_eqb (String.compare (twoDigits (Z.of_nat a)) (twoDigits (Z.of_nat b)))
                     (Z.of_nat a ?= Z.of_nat b))
      (seq 0 60))
    (seq 0 60) = true.
Proof. vm_compute. reflexivity. Qed.

Lemma twoDigits_compare (a b : Z) :
  0 <= a < 60 -> 0 <= b < 60 ->
  isTwoChars (twoDigits a) = true /\ isTwoChars (twoDigits b) = true /\
  String.compare (twoDigits a) (twoDigits b) = (a ?= b).
Proof.
  intros Ha Hb. pose proof twoDigits_table as H. rewrite forallb_forall in H.
  assert (Hin : forall z, 0 <= z < 60 -> In (Z.to_nat z) (seq 0 60))
    by (intros z Hz; apply in_seq; lia).
  pose proof (H _ (Hin a Ha)) as Ha'. pose proof (H _ (Hin b Hb)) as Hb'.
  rewrite Z2Nat.id in Ha', Hb' by lia.
  apply andb_true_iff in Ha'. destruct Ha' as [Ha2 Hall].
  apply andb_true_iff in Hb'. destruct Hb' as [Hb2 _].
  rewrite forallb_forall in Hall. specialize (Hall _ (Hin b Hb)).
  rewrite Z2Nat.id in Hall by lia.
  repeat split; try assumption.
  destruct (String.compare (twoDigits a) (twoDigits b)), (a ?= b);
    cbn in Hall; congruence.
Qed.

Lemma compare_two_then (p q r r' : string) :
  isTwoChars p = true -> isTwoChars q = true ->
  String.compare (p ++ ":" ++ r) (q ++ ":" ++ r') =
  match String.compare p q with
  | Eq => String.compare r r'
  | c => c
  end.
Proof.
  intros Hp Hq.
  destruct p as [|c1 [|c2 [|]]]; try discriminate.
  destruct q as [|d1 [|d2 [|]]]; try discriminate.
  change (String c1 (String c2 "") ++ ":" ++ r)%string
    with (String c1 (String c2 (String ":" r))).
  change (String d1 (String d2 "") ++ ":" ++ r')%string
    with (String d1 (String d2 (String ":" r'))).
  cbn [String.compare].
  destruct (Ascii.compare c1 d1); try reflexivity.
  destruct (Ascii.compare c2 d2); reflexivity.
Qed.

Lemma clock_compare (m1 m2 : Z) :
  0 <= m1 < 1440 -> 0 <= m2 < 1440 ->
  localeCompare (fromMins (Num m1)) (fromMins (Num m2)) = (m1 ?= m2).
Proof.
  intros H1 H2. unfold localeCompare. rewrite !fromMins_twoDigits.
  rewrite !Z.rem_mod_nonneg by lia.
  assert (Hh1 : 0 <= m1 / 60 < 60) by (split; [apply Z.div_pos; lia | apply Z.div_lt_upper_bound; lia]).
  assert (Hh2 : 0 <= m2 / 60 < 60) by (split; [apply Z.div_pos; lia | apply Z.div_lt_upper_bound; lia]).
  assert (Hr1 : 0 <= m1 mod 60 < 60) by (apply Z.mod_pos_bound; lia).
  assert (Hr2 : 0 <= m2 mod 60 < 60) by (apply Z.mod_pos_bound; lia).
  destruct (twoDigits_compare _ _ Hh1 Hh2) as (Hp & Hq & Hc).
  destruct (twoDigits_compare _ _ Hr1 Hr2) as (_ & _ & Hc').
  rewrite (compare_two_then _ _ _ _ Hp Hq), Hc, Hc'.
  pose proof (Z.div_mod m1 60 ltac:(lia)) as E1.
  pose proof (Z.div_mod m2 60 ltac:(lia)) as E2.
  destruct (Z.compare_spec (m1 / 60) (m2 / 60)) as [He|Hl|Hg].
  - destruct (Z.compare_spec (m1 mod 60) (m2 mod 60));
      symmetry; [apply Z.compare_eq_iff | apply Z.compare_lt_iff | apply Z.compare_gt_iff]; lia.
  - symmetry. apply Z.compare_lt_iff. lia.
  - symmetry. apply Z.compare_gt_iff. lia.
Qed.

Lemma isClockTime_toMins (s : string) :
  isClockTime s -> exists m, 0 <= m < 1440 /\ s = fromMins (Num m) /\ toMins s = Num m.
Proof.
  intros (m & Hm & ->). exists m. repeat split; try lia.
  apply toMins_fromMins. lia.
Qed.

Lemma wellFormed_hasMinutes (t : Task) : wellFormed t -> hasMinutes t.
Proof.
  intros [Hs He]. unfold hasMinutes, startMin, endMin, startOf, endOf.
  destruct (isClockTime_toMins _ Hs) as (m & _ & _ & ->).
  destruct (isClockTime_toMins _ He) as (n & _ & _ & ->).
  split; reflexivity.
Qed.

Lemma byStartTime_minutes (a b : Task) :
  wellFormed a -> wellFormed b -> byStartTime a b = (startMin a ?= startMin b).
Proof.
  intros [Ha _] [Hb _]. unfold byStartTime, startMin, startOf.
  destruct (isClockTime_toMins _ Ha) as (m & Hm & Ea & ->).
  destruct (isClockTime_toMins _ Hb) as (n & Hn & Eb & ->).
  rewrite Ea, Eb. cbn [minutes]. now apply clock_compare.
Qed.

Section SortedFacts.
Context {A : Type} (cmp : A -> A -> comparison) (key : A -> Z).

Lemma insertSorted_sorted (x : A) (l : list A) :
  (forall y, In y l -> cmp y x = (key y ?= key x)) ->
  StronglySorted (fun a b => key a <= key b) l ->
  StronglySorted (fun a b => key a <= key b) (insertSorted cmp x l).
Proof.
  intros Hc Hs. induction Hs as [|y l Hs IH Hy]; cbn [insertSorted].
  - repeat constructor.
  - rewrite (Hc y (or_introl eq_refl)).
    assert (Htail : forall z, In z l -> cmp z x = (key z ?= key x))
      by (intros z Hz; apply Hc; now right).
    rewrite List.Forall_forall in Hy.
    destruct (Z.compare_spec (key y) (key x)) as [He|Hl|Hg].
    + constructor; [now apply IH|]. apply List.Forall_forall. intros z Hz.
      apply (Permutation_in _ (insertSorted_perm cmp x l)) in Hz.
      destruct Hz as [<-|Hz]; [lia | now apply Hy].
    + constructor; [now apply IH|]. apply List.Forall_forall. intros z Hz.
      apply (Permutation_in _ (insertSorted_perm cmp x l)) in Hz.
      destruct Hz as [<-|Hz]; [lia | now apply Hy].
    + constructor; [now constructor; [|apply List.Forall_forall]|].
      apply List.Forall_forall. intros z [<-|Hz]; [lia|].
      specialize (Hy z Hz). lia.
Qed.

Lemma sortBy_sorted (l : list A) :
  (forall x y, In x l -> In y l -> cmp x y = (key x ?= key y)) ->
  StronglySorted (fun a b => key a <= key b) (sortBy cmp l).
Proof.
  intros Hc. unfold sortBy.
  assert (H : forall l acc,
             (forall x y, In x (acc ++ l) -> In y (acc ++ l) -> cmp x y = (key x ?= key y)) ->
             StronglySorted (fun a b => key a <= key b) acc ->
             StronglySorted (fun a b => key a <= key b)
                            (fold_left (fun acc x => insertSorted cmp x acc) l acc)).
  { clear. induction l as [|x l IH]; intros acc Hc Hs; cbn [fold_left]; [assumption|].
    apply IH.
    - intros a b Ha Hb. apply Hc.
      + apply in_app_or in Ha. destruct Ha as [Ha|Ha].
        * apply (Permutation_in _ (insertSorted_perm cmp x acc)) in Ha.
          destruct Ha as [<-|Ha]; apply in_or_app; [right; now left | now left].
        * apply in_or_app. right. now right.
      + apply in_app_or in Hb. destruct Hb as [Hb|Hb].
        * apply (Permutation_in _ (insertSorted_perm cmp x acc)) in Hb.
          destruct Hb as [<-|Hb]; apply in_or_app; [right; now left | now left].
        * apply in_or_app. right. now right.
    - apply insertSorted_sorted; [|assumption].
      intros y Hy. apply Hc; apply in_or_app; [now left | right; now left]. }
  apply H; [|constructor]. intros x y Hx Hy. now apply Hc.
Qed.
End SortedFacts.

Lemma sorted_by_start (ts : list Task) :
  Forall wellFormed ts -> StronglySorted byStart (sortBy byStartTime ts).
Proof.
  intros Hwf. apply (sortBy_sorted byStartTime startMin).
  rewrite List.Forall_forall in Hwf.
  intros x y Hx Hy. apply byStartTime_minutes; now apply Hwf.
Qed.

Lemma StronglySorted_snoc {A : Type} (R : A -> A -> Prop) (l : list A) (x : A) :
  StronglySorted R l -> (forall a, In a l -> R a x) -> StronglySorted R (l ++ [x]).
Proof.
  induction 1 as [|y l Hs IH Hy]; intros Hx; cbn.
  - repeat constructor.
  - constructor.
    + apply IH. intros a Ha. apply Hx. now right.
    + apply Forall_app. split; [assumption|]. constructor; [|constructor].
      apply Hx. now left.
Qed.

Lemma StronglySorted_related {A : Type} (R : A -> A -> Prop) (l : list A) (x y : A) :
  StronglySorted R l -> In x l -> In y l -> x = y \/ R x y \/ R y x.
Proof.
  induction 1 as [|z l Hs IH Hz]; intros Hx Hy; [contradiction|].
  rewrite List.Forall_forall in Hz.
  destruct Hx as [<-|Hx], Hy as [<-|Hy]; auto.
Qed.

(** ** Filling groups and columns from a list sorted by start *)

Section FoldInto.
Variable add : Task -> list (list Task) -> list (list Task).
Variable Inv : list (list Task) -> Prop.
Hypothesis add_perm :
  forall x acc, Permutation (concat (add x acc)) (x :: concat acc).
Hypothesis add_inv :
  forall x acc,
    Inv acc -> Forall hasMinutes (concat acc) -> hasMinutes x ->
    (forall y, In y (concat acc) -> byStart y x) -> Inv (add x acc).

Lemma fold_into (l : list Task) (acc : list (list Task)) :
  Inv acc -> Forall hasMinutes (concat acc) -> Forall hasMinutes l ->
  StronglySorted byStart l ->
  (forall y x, In y (concat acc) -> In x l -> byStart y x) ->
  Inv (fold_left (fun acc x => add x acc) l acc) /\
  Permutation (concat (fold_left (fun acc x => add x acc) l acc)) (concat acc ++ l).
Proof.
  revert acc. induction l as [|x l IH]; intros acc Hinv Hacc Hl Hs Hle; cbn [fold_left].
  - split; [assumption|]. now rewrite app_nil_r.
  - inversion Hl as [|? ? Hx Hl']; subst. inversion Hs as [|? ? Hs' Hxl]; subst.
    rewrite List.Forall_forall in Hxl.
    destruct (IH (add x acc)) as [Hinv' Hperm]; try assumption.
    + apply add_inv; try assumption. intros y Hy. apply Hle; [assumption|now left].
    + apply List.Forall_forall. intros y Hy.
      apply (Permutation_in _ (add_perm x acc)) in Hy.
      rewrite List.Forall_forall in Hacc.
      destruct Hy as [<-|Hy]; [assumption | now apply Hacc].
    + intros y z Hy Hz. apply (Permutation_in _ (add_perm x acc)) in Hy.
      destruct Hy as [<-|Hy]; [now apply Hxl | apply Hle; [assumption | now right]].
    + split; [assumption|]. rewrite Hperm, add_perm. cbn.
      apply Permutation_middle.
Qed.
End FoldInto.

Lemma fold_max_num (zs : list Z) (e : Z) :
  fold_left Math_max (List.map Num zs) (Num e) = Num (fold_left Z.max zs e).
Proof.
  revert e. induction zs as [|z zs IH]; intros e; cbn [List.map fold_left]; [reflexivity|].
  apply IH.
Qed.

Lemma fold_max_bounds (zs : list Z) (e : Z) :
  e <= fold_left Z.max zs e /\
  (forall z, In z zs -> z <= fold_left Z.max zs e) /\
  (fold_left Z.max zs e = e \/ In (fold_left Z.max zs e) zs).
Proof.
  revert e. induction zs as [|z zs IH]; intros e; cbn [fold_left].
  - repeat split; [lia | contradiction | now left].
  - destruct (IH (Z.max e z)) as (H1 & H2 & H3). repeat split.
    + lia.
    + intros y [<-|Hy]; [lia | now apply H2].
    + destruct H3 as [H3|H3]; [|right; now right].
      rewrite H3. destruct (Z.max_spec e z) as [[_ ->]|[_ ->]]; [right; now left | now left].
Qed.

Lemma ends_minutes (g : list Task) :
  Forall hasMinutes g ->
  List.map (fun t => timeToMins (endTime t)) g = List.map Num (List.map endMin g).
Proof.
  induction 1 as [|t g [_ Ht] _ IH]; cbn [List.map]; [reflexivity|].
  rewrite IH. f_equal. exact Ht.
Qed.

Lemma startsBefore_spec (x : Task) (g : list Task) :
  Forall hasMinutes g -> hasMinutes x ->
  if startsBefore x g
  then exists a, In a g /\ startMin x < endMin a
  else forall a, In a g -> endMin a <= startMin x.
Proof.
  intros Hg [Hx _]. unfold startsBefore. rewrite (ends_minutes _ Hg).
  destruct g as [|a0 g]; cbn [List.map]; [intros a []|].
  rewrite fold_max_num. change (timeToMins (startTime x)) with (startOf x).
  rewrite Hx. cbn [num_ltb num_cmp].
  destruct (fold_max_bounds (List.map endMin g) (endMin a0)) as (H1 & H2 & H3).
  destruct (Z.ltb_spec (startMin x) (fold_left Z.max (List.map endMin g) (endMin a0)))
    as [Hlt|Hge].
  - destruct H3 as [H3|H3].
    + exists a0. split; [now left | lia].
    + apply in_map_iff in H3. destruct H3 as (a & Ha & Hin).
      exists a. split; [now right | lia].
  - intros a [<-|Ha]; [lia|].
    specialize (H2 (endMin a) (in_map endMin _ _ Ha)). lia.
Qed.

Lemma addToGroups_perm (x : Task) (groups : list (list Task)) :
  Permutation (concat (addToGroups x groups)) (x :: concat groups).
Proof.
  induction groups as [|g rest IH]; cbn [addToGroups concat]; [reflexivity|].
  destruct (startsBefore x g); cbn [concat].
  - rewrite <- List.app_assoc. cbn [app]. symmetry. apply Permutation_middle.
  - rewrite IH. symmetry. apply Permutation_middle.
Qed.

Lemma addToGroups_inv (x : Task) (groups : list (list Task)) :
  GroupsInv groups -> Forall hasMinutes (concat groups) -> hasMinutes x ->
  (forall y, In y (concat groups) -> byStart y x) ->
  GroupsInv (addToGroups x groups).
Proof.
  induction groups as [|g rest IH]; intros (Hne & Hap & Hso) Hmin Hx Hle;
    cbn [addToGroups].
  - repeat split; repeat constructor; try discriminate; intros ? [].
  - cbn [concat] in Hmin, Hle. apply Forall_app in Hmin. destruct Hmin as [Hg Hrest].
    inversion Hne as [|? ? Hgne Hne']; subst.
    inversion Hap as [|? ? Hap' Hgr]; subst.
    inversion Hso as [|? ? Hgso Hso']; subst.
    rewrite List.Forall_forall in Hgr.
    pose proof (startsBefore_spec x g Hg Hx) as Hsb.
    destruct (startsBefore x g).
    + destruct Hsb as (a & Ha & Hlt).
      assert (Hlast : rest = []).
      { destruct rest as [|g' rest']; [reflexivity|]. exfalso.
        inversion Hne' as [|? ? Hg'ne _]; subst.
        destruct g' as [|b g'']; [congruence|].
        assert (Hab : endMin a <= startMin b)
          by (apply (Hgr (b :: g'') (or_introl eq_refl)); [assumption|now left]).
        assert (Hbx : byStart b x).
        { apply Hle, in_or_app. right. cbn. now left. }
        unfold byStart in Hbx. lia. }
      subst rest. repeat split.
      * constructor; [|constructor]. now destruct g.
      * repeat constructor.
      * constructor; [|constructor]. apply StronglySorted_snoc; [assumption|].
        intros y Hy. apply Hle, in_or_app. now left.
    + destruct IH as (Hne2 & Hap2 & Hso2).
      * repeat split; assumption.
      * assumption.
      * assumption.
      * intros y Hy. apply Hle, in_or_app. now right.
      * repeat split; try (constructor; assumption).
        constructor; [assumption|]. apply List.Forall_forall. intros g' Hg' a b Ha Hb.
        assert (Hb' : In b (concat (addToGroups x rest)))
          by (apply in_concat; eauto).
        apply (Permutation_in _ (addToGroups_perm x rest)) in Hb'.
        destruct Hb' as [<-|Hb']; [now apply Hsb|].
        apply in_concat in Hb'. destruct Hb' as (g0 & Hg0 & Hb0).
        now apply (Hgr g0 Hg0).
Qed.

Lemma buildGroups_inv (l : list Task) :
  Forall hasMinutes l -> StronglySorted byStart l ->
  GroupsInv (buildGroups l) /\ Permutation (concat (buildGroups l)) l.
Proof.
  intros Hl Hs.
  apply (fold_into addToGroups GroupsInv addToGroups_perm addToGroups_inv l []);
    try assumption.
  - repeat split; constructor.
  - constructor.
  - intros y x [].
Qed.

Lemma addToCols_perm (x : Task) (cols : list (list Task)) :
  Permutation (concat (addToCols x cols)) (x :: concat cols).
Proof.
  induction cols as [|c rest IH]; cbn [addToCols concat]; [reflexivity|].
  destruct (fitsAfter x c); cbn [concat].
  - rewrite <- List.app_assoc. cbn [app]. symmetry. apply Permutation_middle.
  - rewrite IH. symmetry. apply Permutation_middle.
Qed.

Lemma sorted_last {A : Type} (R : A -> A -> Prop) (l : list A) (z : A) :
  StronglySorted R l -> list.last l = Some z ->
  In z l /\ forall a, In a l -> a = z \/ R a z.
Proof.
  induction 1 as [|y l Hs IH Hy]; intros Hlast; [discriminate|].
  rewrite List.Forall_forall in Hy.
  destruct l as [|y' l'].
  - cbn in Hlast. injection Hlast as <-. split; [now left|].
    intros a [<-|[]]. now left.
  - change (list.last (y :: y' :: l')) with (list.last (y' :: l')) in Hlast.
    destruct (IH Hlast) as [Hin Hall]. split; [now right|].
    intros a [<-|Ha]; [right; now apply Hy | now apply Hall].
Qed.

Lemma addToCols_inv (x : Task) (cols : list (list Task)) :
  ColsInv cols -> Forall hasMinutes (concat cols) -> hasMinutes x ->
  (forall y, In y (concat cols) -> byStart y x) ->
  ColsInv (addToCols x cols).
Proof.
  induction cols as [|c rest IH]; intros (Hne & Hch) Hmin Hx Hle; cbn [addToCols].
  - split; repeat constructor; try discriminate.
  - cbn [concat] in Hmin, Hle. apply Forall_app in Hmin. destruct Hmin as [Hc Hrest].
    inversion Hne as [|? ? Hcne Hne']; subst.
    inversion Hch as [|? ? Hcch Hch']; subst.
    destruct (fitsAfter x c) eqn:Hfit.
    + split; constructor; try assumption; [now destruct c|].
      apply StronglySorted_snoc; [assumption|].
      unfold fitsAfter in Hfit.
      destruct (list.last c) as [z|] eqn:Hlast; [|discriminate].
      destruct (sorted_last _ _ _ Hcch Hlast) as [Hz Hall].
      rewrite List.Forall_forall in Hc.
      destruct (Hc z Hz) as [_ Hze]. destruct Hx as [Hxs _].
      change (timeToMins (startTime x)) with (startOf x) in Hfit.
      change (timeToMins (endTime z)) with (endOf z) in Hfit.
      rewrite Hxs, Hze in Hfit. cbn in Hfit.
      assert (Hzx : endMin z <= startMin x) by lia.
      intros a Ha. unfold before.
      destruct (Hall a Ha) as [->|Haz]; [assumption|].
      assert (byStart z x) by (apply Hle, in_or_app; now left).
      unfold before, byStart in *. lia.
    + destruct IH as (Hne2 & Hch2); try assumption.
      * split; assumption.
      * intros y Hy. apply Hle, in_or_app. now right.
      * split; constructor; assumption.
Qed.

Lemma assignCols_inv (g : list Task) :
  Forall hasMinutes g -> StronglySorted byStart g ->
  ColsInv (assignCols g) /\ Permutation (concat (assignCols g)) g.
Proof.
  intros Hg Hs.
  apply (fold_into addToCols ColsInv addToCols_perm addToCols_inv g []);
    try assumption.
  - split; constructor.
  - constructor.
  - intros y x [].
Qed.

Lemma setCol_entries (ci totalCols : nat) (col : list Task) (m : gmap string (nat * nat)) :
  setCol ci totalCols col m = fold_left setEntry (colEntries ci totalCols col) m.
Proof.
  revert m. induction col as [|t col IH]; intros m; [reflexivity|].
  cbn [setCol colEntries List.map fold_left]. apply IH.
Qed.

Lemma setCols_entries (ci totalCols : nat) (cols : list (list Task))
      (m : gmap string (nat * nat)) :
  setCols ci totalCols cols m = fold_left setEntry (colsEntries ci totalCols cols) m.
Proof.
  revert ci m. induction cols as [|col rest IH]; intros ci m; [reflexivity|].
  cbn [setCols colsEntries]. rewrite fold_left_app, IH, setCol_entries. reflexivity.
Qed.

Lemma setGroups_entries (groups : list (list Task)) (m : gmap string (nat * nat)) :
  fold_left setGroup groups m = fold_left setEntry (allEntries groups) m.
Proof.
  revert m. induction groups as [|g rest IH]; intros m; [reflexivity|].
  unfold allEntries. cbn [fold_left List.map concat].
  rewrite fold_left_app, IH. unfold setGroup, groupEntries.
  now rewrite setCols_entries.
Qed.

Lemma colsEntries_keys (ci totalCols : nat) (cols : list (list Task)) :
  List.map fst (colsEntries ci totalCols cols) = List.map id (concat cols).
Proof.
  revert ci. induction cols as [|col rest IH]; intros ci; [reflexivity|].
  cbn [colsEntries concat]. rewrite !List.map_app, IH. f_equal.
  unfold colEntries. rewrite List.map_map. reflexivity.
Qed.

Lemma colsEntries_in (ci totalCols k : nat) (cols : list (list Task)) (col : list Task)
      (a : Task) :
  nth_error cols k = Some col -> In a col ->
  In (id a, ((ci + k)%nat, totalCols)) (colsEntries ci totalCols cols).
Proof.
  revert ci k. induction cols as [|c rest IH]; intros ci k Hk Ha.
  - destruct k; discriminate.
  - cbn [colsEntries]. apply in_or_app. destruct k as [|k]; cbn in Hk.
    + injection Hk as ->. left. rewrite Nat.add_0_r.
      unfold colEntries. now apply (in_map (fun t => (id t, (ci, totalCols)))).
    + right. replace (ci + S k)%nat with (S ci + k)%nat by lia. now apply IH.
Qed.

Lemma fold_setEntry_other (l : list (string * (nat * nat))) (m : gmap string (nat * nat))
      (k : string) :
  ~ In k (List.map fst l) -> fold_left setEntry l m !! k = m !! k.
Proof.
  revert m. induction l as [|[k' v'] l IH]; intros m Hk; [reflexivity|].
  cbn [fold_left]. rewrite IH.
  - unfold setEntry. cbn. apply lookup_insert_ne. intros ->. apply Hk. now left.
  - intros Hin. apply Hk. now right.
Qed.

Lemma fold_setEntry_lookup (l : list (string * (nat * nat))) (m : gmap string (nat * nat))
      (k : string) (v : nat * nat) :
  List.NoDup (List.map fst l) -> In (k, v) l -> fold_left setEntry l m !! k = Some v.
Proof.
  revert m. induction l as [|[k' v'] l IH]; intros m Hnd Hin; [contradiction|].
  cbn [List.map fst] in Hnd. inversion Hnd as [|? ? Hnot Hnd']; subst.
  cbn [fold_left]. destruct Hin as [Heq|Hin].
  - injection Heq as -> ->. rewrite fold_setEntry_other by assumption.
    unfold setEntry. cbn. apply lookup_insert_eq.
  - now apply IH.
Qed.

Section FoldPerm.
Variable add : Task -> list (list Task) -> list (list Task).
Hypothesis add_perm :
  forall x acc, Permutation (concat (add x acc)) (x :: concat acc).

Lemma fold_perm (l : list Task) (acc : list (list Task)) :
  Permutation (concat (fold_left (fun acc x => add x acc) l acc)) (concat acc ++ l).
Proof.
  revert acc. induction l as [|x l IH]; intros acc; cbn [fold_left].
  - now rewrite app_nil_r.
  - rewrite IH, add_perm. cbn. apply Permutation_middle.
Qed.
End FoldPerm.

Lemma assignCols_perm (g : list Task) : Permutation (concat (assignCols g)) g.
Proof. apply (fold_perm addToCols addToCols_perm g []). Qed.

Lemma buildGroups_perm (l : list Task) : Permutation (concat (buildGroups l)) l.
Proof. apply (fold_perm addToGroups addToGroups_perm l []). Qed.

Lemma allEntries_keys (groups : list (list Task)) :
  Permutation (List.map fst (allEntries groups)) (List.map id (concat groups)).
Proof.
  induction groups as [|g rest IH]; [reflexivity|].
  unfold allEntries. cbn [List.map concat]. rewrite !List.map_app.
  apply Permutation_app; [|exact IH].
  unfold groupEntries. rewrite colsEntries_keys.
  apply Permutation_map, assignCols_perm.
Qed.

Lemma computeColumns_keys (ts : list Task) :
  Permutation (List.map fst (allEntries (buildGroups (sortBy byStartTime ts))))
              (List.map id ts).
Proof.
  rewrite allEntries_keys. apply Permutation_map.
  rewrite buildGroups_perm. apply sortBy_perm.
Qed.

(** With distinct ids, a task in column [ci] of a group is mapped to [ci]
    and to the number of columns of the group. *)
Lemma computeColumns_lookup (ts g col : list Task) (ci : nat) (a : Task) :
  List.NoDup (List.map id ts) ->
  In g (buildGroups (sortBy byStartTime ts)) ->
  nth_error (assignCols g) ci = Some col -> In a col ->
  computeColumns ts !! id a = Some (ci, length (assignCols g)).
Proof.
  intros Hnd Hg Hci Ha. unfold computeColumns. rewrite setGroups_entries.
  apply fold_setEntry_lookup.
  - apply (Permutation_NoDup (Permutation_sym (computeColumns_keys ts)) Hnd).
  - unfold allEntries. apply in_concat. exists (groupEntries g).
    split; [now apply in_map|].
    apply (colsEntries_in 0 _ ci _ col); assumption.
Qed.

Lemma not_overlapping (a b : Task) :
  hasMinutes a -> hasMinutes b -> before a b \/ before b a -> overlaps a b = false.
Proof.
  intros [Has Hae] [Hbs Hbe] H. unfold overlaps, before in *.
  rewrite Has, Hae, Hbs, Hbe. cbn.
  destruct H; [apply andb_false_iff; right | apply andb_false_iff; left];
    apply Z.ltb_ge; lia.
Qed.

(** C5. Lane assignment without overlap: for tasks with well-formed times
    and distinct ids, [computeColumns] maps every task to the index of the
    column it was put in within its group; two different tasks of one
    column of one group do not overlap; and two different tasks that overlap
    are mapped to different lanes. *)
Theorem lanes_do_not_overlap (ts : list Task) :
  Forall wellFormed ts -> List.NoDup (List.map id ts) ->
  (forall a, In a ts ->
     exists g ci col,
       In g (buildGroups (sortBy byStartTime ts)) /\
       nth_error (assignCols g) ci = Some col /\ In a col /\
       computeColumns ts !! id a = Some (ci, length (assignCols g))) /\
  (forall g col a b,
     In g (buildGroups (sortBy byStartTime ts)) -> In col (assignCols g) ->
     In a col -> In b col -> a <> b -> overlaps a b = false) /\
  (forall a b,
     In a ts -> In b ts -> a <> b -> overlaps a b = true ->
     exists ca cb na nb,
       computeColumns ts !! id a = Some (ca, na) /\
       computeColumns ts !! id b = Some (cb, nb) /\ ca <> cb).
Proof.
  intros Hwf Hnd.
  set (sorted := sortBy byStartTime ts).
  assert (Hperm : Permutation sorted ts) by apply sortBy_perm.
  assert (Hmin : forall a, In a ts -> hasMinutes a).
  { rewrite List.Forall_forall in Hwf. intros a Ha. now apply wellFormed_hasMinutes, Hwf. }
  assert (Hsmin : Forall hasMinutes sorted).
  { apply List.Forall_forall. intros a Ha. apply Hmin.
    now apply (Permutation_in _ Hperm). }
  destruct (buildGroups_inv sorted Hsmin (sorted_by_start ts Hwf))
    as [(Hne & Hap & Hso) Hgperm].
  fold sorted.
  assert (Hgin : forall g a, In g (buildGroups sorted) -> In a g -> In a ts).
  { intros g a Hg Ha. apply (Permutation_in _ Hperm), (Permutation_in _ Hgperm).
    apply in_concat. eauto. }
  assert (Hcols : forall g, In g (buildGroups sorted) -> ColsInv (assignCols g)).
  { intros g Hg. apply assignCols_inv.
    - apply List.Forall_forall. intros a Ha. apply Hmin. eauto.
    - rewrite List.Forall_forall in Hso. now apply Hso. }
  assert (Hcin : forall g col a, In col (assignCols g) -> In a col -> In a g).
  { intros g col a Hc Ha. apply (Permutation_in _ (assignCols_perm g)).
    apply in_concat. eauto. }
  assert (Hplace : forall a, In a ts ->
            exists g ci col,
              In g (buildGroups sorted) /\
              nth_error (assignCols g) ci = Some col /\ In a col /\
              computeColumns ts !! id a = Some (ci, length (assignCols g))).
  { intros a Ha.
    apply (Permutation_in _ (Permutation_sym Hperm)) in Ha.
    apply (Permutation_in _ (Permutation_sym Hgperm)) in Ha.
    apply in_concat in Ha. destruct Ha as (g & Hg & Ha).
    apply (Permutation_in _ (Permutation_sym (assignCols_perm g))) in Ha.
    apply in_concat in Ha. destruct Ha as (col & Hc & Ha).
    destruct (In_nth_error _ _ Hc) as [ci Hci].
    exists g, ci, col. repeat split; try assumption.
    now apply (computeColumns_lookup ts g col). }
  assert (Hsame : forall g col a b,
            In g (buildGroups sorted) -> In col (assignCols g) ->
            In a col -> In b col -> a <> b -> overlaps a b = false).
  { intros g col a b Hg Hc Ha Hb Hab.
    destruct (Hcols g Hg) as [_ Hch]. rewrite List.Forall_forall in Hch.
    destruct (StronglySorted_related _ _ a b (Hch col Hc) Ha Hb) as [?|Hrel];
      [contradiction|].
    apply not_overlapping; eauto. }
  split; [exact Hplace|]. split; [exact Hsame|].
  intros a b Ha Hb Hab Hov.
  destruct (Hplace a Ha) as (ga & ca & cola & Hga & Hca & Hacol & Hla).
  destruct (Hplace b Hb) as (gb & cb & colb & Hgb & Hcb & Hbcol & Hlb).
  exists ca, cb, (length (assignCols ga)), (length (assignCols gb)).
  split; [assumption|]. split; [assumption|].
  intros <-.
  assert (Hag : In a ga) by (eapply Hcin; eauto using nth_error_In).
  assert (Hbg : In b gb) by (eapply Hcin; eauto using nth_error_In).
  destruct (StronglySorted_related _ _ ga gb Hap Hga Hgb) as [<-|[Hapart|Hapart]].
  - rewrite Hca in Hcb. injection Hcb as <-.
    rewrite (Hsame ga cola a b Hga (nth_error_In _ _ Hca) Hacol Hbcol Hab) in Hov.
    discriminate.
  - rewrite (not_overlapping a b (Hmin a Ha) (Hmin b Hb)) in Hov; [discriminate|].
    left. now apply Hapart.
  - rewrite (not_overlapping a b (Hmin a Ha) (Hmin b Hb)) in Hov; [discriminate|].
    right. now apply Hapart.
Qed.

Lemma isClockTimeb_sound (s : string) : isClockTimeb s = true -> isClockTime s.
Proof.
  unfold isClockTimeb. destruct (toMins s) as [|m]; [discriminate|].
  intros H. apply andb_true_iff in H. destruct H as [H He].
  apply andb_true_iff in H. destruct H as [H0 H1].
  apply String.eqb_eq in He. exists m. split; [lia|]. now symmetry.
Qed.

Lemma wellFormedb_sound (ts : list Task) :
  forallb wellFormedb ts = true -> Forall wellFormed ts.
Proof.
  rewrite forallb_forall. intros H. apply List.Forall_forall. intros t Ht.
  specialize (H t Ht). apply andb_true_iff in H. destruct H as [Hs He].
  split; now apply isClockTimeb_sound.
Qed.

Lemma lanes_do_not_overlap_witness :
  (forall a, In a busy ->
     exists g ci col,
       In g (buildGroups (sortBy byStartTime busy)) /\
       nth_error (assignCols g) ci = Some col /\ In a col /\
       computeColumns busy !! id a = Some (ci, length (assignCols g))) /\
  (forall g col a b,
     In g (buildGroups (sortBy byStartTime busy)) -> In col (assignCols g) ->
     In a col -> In b col -> a <> b -> overlaps a b = false) /\
  (forall a b,
     In a busy -> In b busy -> a <> b -> overlaps a b = true ->
     exists ca cb na nb,
       computeColumns busy !! id a = Some (ca, na) /\
       computeColumns busy !! id b = Some (cb, nb) /\ ca <> cb).
Proof.
  apply (lanes_do_not_overlap busy).
  - apply wellFormedb_sound. vm_compute. reflexivity.
  - cbn. repeat constructor; cbn; intuition discriminate.
Defined.

(** ** The span that [extractJson] cuts out *)

Lemma indexOf_none (c : ascii) (s : string) :
  indexOf c s = None <-> occurs c s = false.
Proof.
  induction s as [|a s IH]; cbn; [tauto|].
  destruct (Ascii.eqb a c); cbn; [split; discriminate|].
  destruct (indexOf c s); [split; [discriminate|] | tauto].
  intros H. apply IH in H. discriminate.
Qed.

Lemma lastIndexOf_none (c : ascii) (s : string) :
  lastIndexOf c s = None <-> occurs c s = false.
Proof.
  induction s as [|a s IH]; cbn; [tauto|].
  destruct (lastIndexOf c s).
  - split; [discriminate|]. intros H. apply orb_false_iff in H.
    destruct H as [_ H]. apply IH in H. discriminate.
  - destruct (Ascii.eqb a c); cbn; [split; discriminate | tauto].
Qed.

Lemma append_empty (s : string) : (EmptyString ++ s)%string = s.
Proof. reflexivity. Qed.

Lemma append_String (a : ascii) (s t : string) :
  (String a s ++ t)%string = String a (s ++ t).
Proof. reflexivity. Qed.

Lemma indexOf_app (c : ascii) (pre rest : string) :
  occurs c pre = false ->
  indexOf c (pre ++ String c rest) = Some (String.length pre).
Proof.
  induction pre as [|a pre IH]; cbn [occurs]; intros H.
  - rewrite append_empty. cbn [indexOf String.length]. now rewrite Ascii.eqb_refl.
  - apply orb_false_iff in H. destruct H as [Ha Hp].
    rewrite append_String. cbn [indexOf String.length].
    rewrite Ha. now rewrite (IH Hp).
Qed.

Lemma lastIndexOf_app (c : ascii) (pre post : string) :
  occurs c post = false ->
  lastIndexOf c (pre ++ String c post) = Some (String.length pre).
Proof.
  intros H. induction pre as [|a pre IH].
  - rewrite append_empty. cbn [lastIndexOf String.length].
    apply lastIndexOf_none in H. rewrite H. now rewrite Ascii.eqb_refl.
  - rewrite append_String. cbn [lastIndexOf String.length]. now rewrite IH.
Qed.

Lemma substring_skip (pre s : string) (n : nat) :
  substring (String.length pre) n (pre ++ s) = substring 0 n s.
Proof.
  induction pre as [|a pre IH]; [reflexivity|].
  rewrite append_String. cbn [String.length substring]. exact IH.
Qed.

Lemma substring_prefix (s post : string) :
  substring 0 (String.length s) (s ++ post) = s.
Proof.
  induction s as [|a s IH].
  - rewrite append_empty. cbn [String.length]. now destruct post.
  - rewrite append_String. cbn [String.length substring]. now rewrite IH.
Qed.

Lemma length_append (s t : string) :
  String.length (s ++ t) = (String.length s + String.length t)%nat.
Proof.
  induction s as [|a s IH]; [reflexivity|].
  rewrite append_String. cbn [String.length]. now rewrite IH.
Qed.

Lemma append_assoc (s t u : string) : ((s ++ t) ++ u = s ++ (t ++ u))%string.
Proof.
  induction s as [|a s IH]; [reflexivity|].
  rewrite !append_String. now rewrite IH.
Qed.

Lemma extractJson_cut (pre body post : string) :
  occurs "{" pre = false -> occurs "}" post = false ->
  extractJson (pre ++ String "{" (body ++ String "}" post))
  = String "{" (body ++ String "}" EmptyString).
Proof.
  intros Hpre Hpost. unfold extractJson.
  rewrite (indexOf_app _ _ _ Hpre).
  replace (pre ++ String "{" (body ++ String "}" post))%string
    with ((pre ++ String "{" body) ++ String "}" post)%string
    by (rewrite append_assoc, append_String; reflexivity).
  rewrite (lastIndexOf_app _ _ _ Hpost).
  rewrite length_append. cbn [String.length].
  destruct (Nat.ltb_spec (String.length pre) (String.length pre + S (String.length body)));
    [|lia].
  rewrite append_assoc, append_String.
  rewrite substring_skip.
  replace (String.length pre + S (String.length body) + 1 - String.length pre)%nat
    with (String.length (String "{" (body ++ String "}" EmptyString)))
    by (cbn [String.length]; rewrite length_append; cbn [String.length]; lia).
  replace (String "{" (body ++ String "}" post))
    with (String "{" (body ++ String "}" EmptyString) ++ post)%string
    by (rewrite append_String, append_assoc, append_String, append_empty; reflexivity).
  apply substring_prefix.
Qed.

(** X1. A JSON object wrapped in chatter is cut out exactly: for a text
    [json] that starts with an opening and ends with a closing brace, put
    after a text without opening brace and before a text without closing
    brace, [extractJson] returns [json]. *)
Theorem extractJson_isolates (pre json post body : string) :
  json = String "{" (body ++ String "}" EmptyString) ->
  occurs "{" pre = false -> occurs "}" post = false ->
  extractJson (pre ++ json ++ post) = json.
Proof.
  intros -> Hpre Hpost.
  rewrite append_String, append_assoc, append_String, append_empty.
  now apply extractJson_cut.
Qed.

Lemma extractJson_isolates_witness :
  extractJson mixedRaw = mixedJson.
Proof.
  apply (extractJson_isolates "Sure! " mixedJson " thanks"
           (substring 1 (String.length mixedJson - 2) mixedJson));
    reflexivity.
Defined.

Lemma indexOf_split (c : ascii) (t : string) (i : nat) :
  indexOf c t = Some i ->
  exists pre rest, t = (pre ++ String c rest)%string /\
                   String.length pre = i /\ occurs c pre = false.
Proof.
  revert i. induction t as [|a t IH]; intros i H; cbn [indexOf] in H; [discriminate|].
  destruct (Ascii.eqb a c) eqn:Ha.
  - injection H as <-. apply Ascii.eqb_eq in Ha. subst a.
    exists EmptyString, t. repeat split.
  - destruct (indexOf c t) as [k|]; [|discriminate]. injection H as <-.
    destruct (IH k eq_refl) as (pre & rest & -> & Hlen & Hocc).
    exists (String a pre), rest. rewrite append_String. cbn [String.length occurs].
    rewrite Ha, Hocc, Hlen. repeat split.
Qed.

Lemma lastIndexOf_split (c : ascii) (t : string) (j : nat) :
  lastIndexOf c t = Some j ->
  exists pre post, t = (pre ++ String c post)%string /\
                   String.length pre = j /\ occurs c post = false.
Proof.
  revert j. induction t as [|a t IH]; intros j H; cbn [lastIndexOf] in H; [discriminate|].
  destruct (lastIndexOf c t) as [k|] eqn:Hk.
  - injection H as <-. destruct (IH k eq_refl) as (pre & post & -> & Hlen & Hocc).
    exists (String a pre), post. rewrite append_String. cbn [String.length].
    rewrite Hlen. repeat split. assumption.
  - destruct (Ascii.eqb a c) eqn:Ha; [|discriminate]. injection H as <-.
    apply Ascii.eqb_eq in Ha. subst a. apply lastIndexOf_none in Hk.
    exists EmptyString, t. repeat split. assumption.
Qed.

Lemma append_split (pre pre' s s' : string) :
  (pre ++ s = pre' ++ s')%string -> (String.length pre <= String.length pre')%nat ->
  exists mid, pre' = (pre ++ mid)%string /\ s = (mid ++ s')%string.
Proof.
  revert pre'. induction pre as [|a pre IH]; intros pre' H Hlen.
  - exists pre'. rewrite append_empty in H. now rewrite append_empty.
  - destruct pre' as [|b pre']; [cbn in Hlen; lia|].
    rewrite !append_String in H. injection H as -> H.
    cbn [String.length] in Hlen.
    destruct (IH pre' H ltac:(lia)) as (mid & -> & ->).
    exists mid. now rewrite append_String.
Qed.

(** X2. [extractJson] returns a text without braces to cut as it is, and
    applying it twice changes nothing more: what it returns is either the
    whole reply or a span that starts at the first opening brace and ends
    at the last closing brace. *)
Theorem extractJson_idempotent (t : string) :
  (occurs "{" t = false \/ occurs "}" t = false -> extractJson t = t) /\
  extractJson (extractJson t) = extractJson t.
Proof.
  split.
  - unfold extractJson. intros [H|H].
    + apply indexOf_none in H. now rewrite H.
    + apply lastIndexOf_none in H. rewrite H. now destruct (indexOf "{" t).
  - destruct (indexOf "{" t) as [i|] eqn:Hi.
    2:{ unfold extractJson at 2. rewrite Hi. unfold extractJson. now rewrite Hi. }
    destruct (lastIndexOf "}" t) as [j|] eqn:Hj.
    2:{ unfold extractJson at 2. rewrite Hi, Hj. unfold extractJson. now rewrite Hi, Hj. }
    destruct (Nat.ltb_spec i j) as [Hlt|Hge].
    2:{ assert (E : extractJson t = t).
        { unfold extractJson. rewrite Hi, Hj.
          destruct (Nat.ltb_spec i j); [lia | reflexivity]. }
        now rewrite !E. }
    destruct (indexOf_split _ _ _ Hi) as (pre & rest & Ht & Hlen & Hpre).
    destruct (lastIndexOf_split _ _ _ Hj) as (pre' & post & Ht' & Hlen' & Hpost).
    rewrite Ht in Ht'.
    destruct (append_split _ _ _ _ Ht' ltac:(lia)) as (mid & Hmid & Hrest).
    destruct mid as [|m body].
    { rewrite Hmid in Hlen'. rewrite length_append in Hlen'. cbn in Hlen'. lia. }
    rewrite append_String in Hrest. injection Hrest as <- Hrest.
    rewrite Ht, Hrest.
    rewrite (extractJson_cut pre body post Hpre Hpost).
    apply (extractJson_cut EmptyString body EmptyString); reflexivity.
Qed.

(** ** First fit *)

Lemma scan_candidates (n : nat) (occupied : list Window) (duration : number) (z : Z) :
  match scan n occupied duration (Num z) with
  | Some r =>
      exists k, (k < n)%nat /\ r = Num (z + 15 * Z.of_nat k) /\
                fitsAt occupied duration r = true /\
                forall j, (j < k)%nat ->
                          fitsAt occupied duration (Num (z + 15 * Z.of_nat j)) = false
  | None =>
      forall j, (j < n)%nat ->
                fitsAt occupied duration (Num (z + 15 * Z.of_nat j)) = false
  end.
Proof.
  revert z. induction n as [|n IH]; intros z.
  - cbn. intros j Hj. lia.
  - rewrite scan_S. fold (fitsAt occupied duration (Num z)).
    destruct (fitsAt occupied duration (Num z)) eqn:Hfit.
    + exists 0%nat. repeat split; [lia | f_equal; lia | assumption | intros j Hj; lia].
    + change (Num z + Num 15)%js with (Num (z + 15)).
      specialize (IH (z + 15)).
      destruct (scan n occupied duration (Num (z + 15))) as [r|].
      * destruct IH as (k & Hk & -> & Hr & Hbefore).
        exists (S k). repeat split; [lia | f_equal; lia | | ].
        -- replace (z + 15 * Z.of_nat (S k)) with (z + 15 + 15 * Z.of_nat k) by lia.
           assumption.
        -- intros [|j] Hj.
           ++ replace (z + 15 * Z.of_nat 0) with z by lia. assumption.
           ++ replace (z + 15 * Z.of_nat (S j)) with (z + 15 + 15 * Z.of_nat j) by lia.
              apply Hbefore. lia.
      * intros [|j] Hj.
        -- replace (z + 15 * Z.of_nat 0) with z by lia. assumption.
        -- replace (z + 15 * Z.of_nat (S j)) with (z + 15 + 15 * Z.of_nat j) by lia.
           apply IH. lia.
Qed.

(** X3. The scheduler is a first fit on the quarter-hour grid: for a visited
    task whose duration is not found to be non-positive, a slot that is
    found is the cursor plus fewer than 96 quarter hours, passes the test
    (free of every occupied window, over by 23:00), and no earlier candidate
    passes it; the task is left where it was only if none of the 96
    candidates passes. *)
Theorem scan_first_fit (v : Visit) (zc : Z) :
  v_cursor v = Num zc ->
  (durationOf (v_task v) <=? Num 0)%js = false ->
  match slotOf v with
  | Some r =>
      exists k, (k < 96)%nat /\ r = Num (zc + 15 * Z.of_nat k) /\
                fitsAt (v_occupied v) (durationOf (v_task v)) r = true /\
                forall j, (j < k)%nat ->
                          fitsAt (v_occupied v) (durationOf (v_task v))
                                 (Num (zc + 15 * Z.of_nat j)) = false
  | None =>
      resultOf v = v_task v /\
      forall j, (j < 96)%nat ->
                fitsAt (v_occupied v) (durationOf (v_task v))
                       (Num (zc + 15 * Z.of_nat j)) = false
  end.
Proof.
  intros Hc Hd.
  pose proof (scan_candidates (24 * 4) (v_occupied v) (durationOf (v_task v)) zc) as H.
  pose proof (resultOf_passthrough v) as Hpass.
  unfold slotOf in *. rewrite Hd, Hc in *.
  destruct (scan (24 * 4) (v_occupied v) (durationOf (v_task v)) (Num zc)) as [r|].
  - exact H.
  - split; [now apply Hpass | exact H].
Qed.

Lemma scan_first_fit_witness :
  let v := mkVisit (mkExampleTask "b" "07:30" "08:30" 0)
                   [mkWindow (Num 420) (Num 480)] (Num 420) in
  match slotOf v with
  | Some r =>
      exists k, (k < 96)%nat /\ r = Num (420 + 15 * Z.of_nat k) /\
                fitsAt (v_occupied v) (durationOf (v_task v)) r = true /\
                forall j, (j < k)%nat ->
                          fitsAt (v_occupied v) (durationOf (v_task v))
                                 (Num (420 + 15 * Z.of_nat j)) = false
  | None =>
      resultOf v = v_task v /\
      forall j, (j < 96)%nat ->
                fitsAt (v_occupied v) (durationOf (v_task v))
                       (Num (420 + 15 * Z.of_nat j)) = false
  end.
Proof.
  intros v. apply (scan_first_fit v 420); reflexivity.
Defined.

(** ** The order of the placements *)

Lemma visits_later_cursor (l : list Task) (occ : list Window) (c : number) (zc : Z)
      (i j : nat) (v1 v2 : Visit) (s1 : number) :
  c = Num zc -> (i < j)%nat ->
  nth_error (visits l occ c) i = Some v1 ->
  nth_error (visits l occ c) j = Some v2 ->
  slotOf v1 = Some s1 ->
  exists z1 d1 c2, s1 = Num z1 /\ durationOf (v_task v1) = Num d1 /\
                   v_cursor v2 = Num c2 /\ z1 + d1 <= c2.
Proof.
  revert occ c zc i j. induction l as [|t l IH]; intros occ c zc i j Hc Hij H1 H2 Hs1.
  - destruct i; discriminate.
  - cbn [visits] in H1, H2. destruct j as [|j]; [lia|].
    destruct (slotOf (mkVisit t occ c)) as [s|] eqn:Hs.
    + destruct (slotOf_sound _ _ _ Hs Hc) as (zs & zd & -> & Hd & _).
      cbn [v_task] in Hd. rewrite Hd in H1, H2. cbn [num_add num_lift2] in H1, H2.
      destruct i as [|i]; cbn [nth_error] in H1, H2.
      * injection H1 as <-. rewrite Hs in Hs1. injection Hs1 as <-.
        apply nth_error_In in H2.
        destruct (visits_invariant _ _ _ _ _ eq_refl H2) as [(z & Hz & Hle) _].
        exists zs, zd, z. cbn [v_task]. auto.
      * apply (IH _ _ _ i j eq_refl ltac:(lia) H1 H2 Hs1).
    + destruct i as [|i]; cbn [nth_error] in H1, H2.
      * injection H1 as <-. congruence.
      * apply (IH _ _ _ i j Hc ltac:(lia) H1 H2 Hs1).
Qed.

(** X4. Placements follow the visiting order: of two flexible tasks that
    are both placed, the one visited later starts at or after the end of
    the one visited earlier. *)
Theorem placed_in_sequence (state : PlannerState) (i j : nat) (v1 v2 : Visit)
        (s1 s2 : number) :
  (i < j)%nat ->
  nth_error (visitsOf state) i = Some v1 ->
  nth_error (visitsOf state) j = Some v2 ->
  slotOf v1 = Some s1 -> slotOf v2 = Some s2 ->
  (endOf (resultOf v1) <=? startOf (resultOf v2))%js = true.
Proof.
  intros Hij H1 H2 Hs1 Hs2.
  destruct (visits_later_cursor _ _ _ 420 _ _ _ _ _ eq_refl Hij H1 H2 Hs1)
    as (z1 & d1 & c2 & -> & Hd1 & Hc2 & Hle).
  destruct (placed_interval _ _ _ (nth_error_In _ _ H1) Hs1)
    as (z1' & d1' & E1 & Hd1' & _ & _ & _ & _ & Hen1 & _).
  injection E1 as <-. rewrite Hd1 in Hd1'. injection Hd1' as <-.
  destruct (slotOf_sound _ _ _ Hs2 Hc2) as (z2 & d2 & -> & _ & _ & Hz2 & _).
  destruct (placed_interval _ _ _ (nth_error_In _ _ H2) Hs2)
    as (z2' & d2' & E2 & _ & _ & _ & _ & Hst2 & _).
  injection E2 as <-. rewrite Hen1, Hst2. cbn. lia.
Qed.

Lemma placed_in_sequence_witness :
  (endOf (resultOf (mkVisit (mkExampleTask "b" "07:30" "08:30" 0)
                            [mkWindow (Num 420) (Num 480)] (Num 420)))
   <=? startOf (resultOf (mkVisit (mkExampleTask "c" "09:00" "09:15" 0)
                            [mkWindow (Num 420) (Num 480); mkWindow (Num 480) (Num 540)]
                            (Num 540))))%js = true.
Proof.
  apply (placed_in_sequence morning 0 1 _ _ (Num 480) (Num 540)).
  - lia.
  - vm_compute. reflexivity.
  - vm_compute. reflexivity.
  - vm_compute. reflexivity.
  - vm_compute. reflexivity.
Defined.

Lemma conflicts_behind (occ : list Window) (zc s e : Z) :
  (forall w, In w occ -> exists b, w_end w = Num b /\ b <= zc) ->
  zc <= s -> conflicts occ (Num s) (Num e) = false.
Proof.
  intros Hocc Hs. unfold conflicts.
  destruct (existsb _ occ) eqn:Hex; [|reflexivity].
  apply existsb_exists in Hex. destruct Hex as (w & Hw & Hc).
  destruct (Hocc w Hw) as (b & Hb & Hle). rewrite Hb in Hc. cbn in Hc.
  apply andb_true_iff in Hc. destruct Hc as [Hc _]. lia.
Qed.

Lemma contiguous_visits (l : list Task) (occ : list Window) (zc : Z) :
  0 <= zc ->
  (forall w, In w occ -> exists b, w_end w = Num b /\ b <= zc) ->
  contiguous zc (List.map resultOf (List.filter isPlaced (visits l occ (Num zc)))).
Proof.
  revert occ zc. induction l as [|t l IH]; intros occ zc Hzc Hocc; [exact I|].
  cbn [visits].
  destruct (slotOf (mkVisit t occ (Num zc))) as [s|] eqn:Hs.
  - destruct (slotOf_sound _ _ zc Hs eq_refl) as (zs & zd & -> & Hd & Hpos & Hle & Hfit & _).
    cbn [v_task] in Hd.
    assert (Hzs : zs = zc).
    { pose proof (scan_candidates (24 * 4) occ (Num zd) zc) as Hff.
      unfold slotOf in Hs. cbn [v_task v_occupied v_cursor] in Hs.
      rewrite Hd in Hs. destruct (Num zd <=? Num 0)%js; [discriminate|].
      rewrite Hs in Hff. destruct Hff as (k & _ & Hk & _ & Hbefore).
      injection Hk as ->. destruct k as [|k]; [lia|].
      specialize (Hbefore 0%nat ltac:(lia)). unfold fitsAt in Hbefore.
      replace (zc + 15 * Z.of_nat 0) with zc in Hbefore by lia.
      cbn [num_add num_lift2] in Hbefore.
      rewrite (conflicts_behind occ zc zc (zc + zd) Hocc ltac:(lia)) in Hbefore.
      cbn in Hbefore. lia. }
    subst zs. rewrite Hd. cbn [num_add num_lift2 List.filter].
    unfold isPlaced at 1. rewrite Hs. cbn [List.map contiguous].
    unfold resultOf at 1 2. rewrite Hs. cbn [v_task]. rewrite Hd.
    cbn [num_add num_lift2]. unfold startOf, endOf.
    cbn [withTimes startTime endTime]. rewrite !toMins_fromMins by lia.
    split; [reflexivity|]. exists (zc + zd). repeat split; [lia|].
    apply IH; [lia|]. intros w Hw. apply in_app_or in Hw.
    destruct Hw as [Hw|[<-|[]]].
    + destruct (Hocc w Hw) as (b & Hb & Hble). exists b. split; [assumption|lia].
    + exists (zc + zd). cbn. split; [reflexivity|lia].
  - cbn [List.filter]. unfold isPlaced at 1. rewrite Hs. now apply IH.
Qed.

(** X5. Without fixed tasks the placed tasks leave no gap: taken in visiting
    order, the first placed task starts at 07:00 and every further one
    starts at the minute the one before it ends. *)
Theorem no_gaps_without_fixed (state : PlannerState) :
  fixedOf state = [] ->
  contiguous (7 * 60) (List.map resultOf (List.filter isPlaced (visitsOf state))).
Proof.
  intros Hfix. unfold visitsOf, occupiedOf. rewrite Hfix. cbn [List.map].
  apply contiguous_visits; [lia|]. intros w [].
Qed.

Lemma no_gaps_without_fixed_witness :
  contiguous (7 * 60) (List.map resultOf (List.filter isPlaced (visitsOf freeDay))).
Proof. apply (no_gaps_without_fixed freeDay). reflexivity. Defined.

(** ** What the schedulers keep *)

Lemma resultOf_wellFormed (state : PlannerState) (v : Visit) :
  In v (visitsOf state) -> wellFormed (v_task v) -> wellFormed (resultOf v).
Proof.
  intros Hv Hwf. destruct (slotOf v) as [s|] eqn:Hs.
  - destruct (visits_invariant _ _ _ 420 _ eq_refl Hv) as [(zc & Hc & Hzc) _].
    destruct (slotOf_sound _ _ _ Hs Hc) as (zs & zd & -> & Hd & ? & ? & ? & _).
    unfold resultOf. rewrite Hs, Hd. cbn [num_add num_lift2].
    split; cbn [withTimes startTime endTime].
    + exists zs. split; [lia | reflexivity].
    + exists (zs + zd). split; [lia | reflexivity].
  - now rewrite (resultOf_passthrough _ Hs).
Qed.

(** X6. The fallback keeps times well-formed and returns the tasks in the
    order of their starts: when every time of the input is the text of a
    minute of the day, so is every time of the output, and the output is
    sorted by start minute. *)
Theorem fallback_output_sorted (state : PlannerState) :
  Forall wellFormed (tasks state) ->
  Forall wellFormed (res_tasks (fallbackOptimize state)) /\
  StronglySorted byStart (res_tasks (fallbackOptimize state)).
Proof.
  intros Hwf.
  assert (Hall : Forall wellFormed (fixedOf state ++ List.map resultOf (visitsOf state))).
  { rewrite List.Forall_forall in Hwf. apply List.Forall_forall. intros t Ht.
    apply in_app_or in Ht. destruct Ht as [Ht|Ht].
    - apply Hwf. unfold fixedOf in Ht. now apply filter_In in Ht.
    - apply in_map_iff in Ht. destruct Ht as (v & <- & Hv).
      apply (resultOf_wellFormed state v Hv). apply Hwf.
      assert (Hflex : In (v_task v) (flexibleOf state)).
      { apply (Permutation_in _ (visits_cover_flexible state)). now apply in_map. }
      unfold flexibleOf in Hflex. now apply filter_In in Hflex. }
  unfold fallbackOptimize. cbn [res_tasks]. rewrite placeLoop_visits.
  fold (visitsOf state). split.
  - apply List.Forall_forall. intros t Ht.
    apply (Permutation_in _ (sortBy_perm byStartTime _)) in Ht.
    rewrite List.Forall_forall in Hall. now apply Hall.
  - now apply sorted_by_start.
Qed.

Lemma fallback_output_sorted_witness :
  Forall wellFormed (res_tasks (fallbackOptimize morning)) /\
  StronglySorted byStart (res_tasks (fallbackOptimize morning)).
Proof.
  apply (fallback_output_sorted morning).
  apply wellFormedb_sound. vm_compute. reflexivity.
Defined.

Lemma stripTimes_withTimes (t : Task) (s e : string) :
  stripTimes (withTimes t s e) = stripTimes t.
Proof. reflexivity. Qed.

Lemma stripTimes_resultOf (v : Visit) : stripTimes (resultOf v) = stripTimes (v_task v).
Proof. unfold resultOf. now destruct (slotOf v). Qed.

Lemma advised_stripTimes (updates : list JsValue) (l out : list Task) :
  mapM (applyUpdates updates) l = Normal out ->
  List.map stripTimes out = List.map stripTimes l.
Proof.
  intros Hm. apply mapM_Forall2 in Hm.
  induction Hm as [|t u l out Htu _ IH]; [reflexivity|].
  cbn [List.map]. rewrite IH. f_equal.
  destruct (applyUpdates_shape _ _ _ Htu) as [->|[_ (s & e & ->)]]; reflexivity.
Qed.

(** X7. Both schedulers touch the two times only: blanking the start and end
    of every task, the result of [fallbackOptimize] is a rearrangement of
    the input, and the result of [optimizePlanWithOllama] is, for every
    reply, either that or the input in its own order; no task is dropped,
    added or changed in any other field. *)
Theorem schedulers_change_times_only
        (JSON_parse : string -> option JsValue) (reply : ProviderReply)
        (state : PlannerState) :
  Permutation (List.map stripTimes (res_tasks (fallbackOptimize state)))
              (List.map stripTimes (tasks state)) /\
  exists r,
    optimizePlanWithOllama JSON_parse reply state = Normal r /\
    (r = fallbackOptimize state \/
     List.map stripTimes (res_tasks r) = List.map stripTimes (tasks state)).
Proof.
  assert (Hfb : Permutation (List.map stripTimes (res_tasks (fallbackOptimize state)))
                            (List.map stripTimes (tasks state))).
  { rewrite (Permutation_map stripTimes (fallback_perm state)).
    rewrite List.map_app, List.map_map.
    rewrite (List.map_ext _ (fun v => stripTimes (v_task v)) stripTimes_resultOf).
    rewrite <- (List.map_map v_task stripTimes).
    rewrite (Permutation_map stripTimes (visits_cover_flexible state)).
    rewrite <- List.map_app. apply Permutation_map.
    symmetry. apply (filter_split_perm isFixed). }
  split; [exact Hfb|].
  destruct (optimize_returns JSON_parse reply state) as (r & Hr & [Hadv|[_ ->]]).
  - exists r. split; [assumption|]. right.
    apply advisorPlan_inv in Hadv.
    destruct Hadv as (raw & parsed & updates & text & out & _ & _ & _ & _ & Hm & ->).
    cbn [res_tasks]. now apply (advised_stripTimes updates).
  - exists (fallbackOptimize state). split; [assumption|]. now left.
Qed.

(** ** Replies that break the schema, and states with nothing to move *)

Lemma mapM_throw {A B : Type} (f : A -> exc B) (l : list A) (x : A) :
  In x l -> f x = Throw -> mapM f l = Throw.
Proof.
  induction l as [|y l IH]; intros Hin Hx; [contradiction|]. cbn [mapM].
  destruct Hin as [->|Hin].
  - now rewrite Hx.
  - destruct (f y); [|reflexivity]. cbn [bind]. now rewrite (IH Hin Hx).
Qed.

Lemma findUpdate_null (pre post : list JsValue) (t : Task) :
  (forall p, In p pre -> matchesTask t p = false) ->
  findUpdate (pre ++ JNull :: post) (id t) = Throw.
Proof.
  induction pre as [|p pre IH]; intros Hpre; [reflexivity|].
  cbn [app findUpdate].
  pose proof (Hpre p (or_introl eq_refl)) as Hp. unfold matchesTask, propOf in Hp.
  destruct (getProp p "id") as [v|]; [|reflexivity]. cbn [bind]. rewrite Hp.
  apply IH. intros q Hq. apply Hpre. now right.
Qed.

(** X8. One [null] among the updates discards the whole reply: if the
    parsed reply has an array under [tasks] that holds [null], and some
    flexible task of the state has no update with its id before that
    [null], then [optimizePlanWithOllama] returns the result of
    [fallbackOptimize], whatever the other updates are. *)
Theorem null_update_discards_reply
        (JSON_parse : string -> option JsValue) (raw : string) (parsed : JsValue)
        (pre post : list JsValue) (state : PlannerState) (t : Task) :
  JSON_parse (extractJson raw) = Some parsed ->
  getProp parsed "tasks" = Normal (JArr (pre ++ JNull :: post)) ->
  In t (tasks state) -> isFixed t = false ->
  (forall p, In p pre -> matchesTask t p = false) ->
  optimizePlanWithOllama JSON_parse (ProviderReturns raw) state
  = Normal (fallbackOptimize state).
Proof.
  intros Hp Ht Hin Hfx Hpre.
  unfold optimizePlanWithOllama.
  destruct (advisorPlan JSON_parse (ProviderReturns raw) state) as [r|] eqn:Hadv;
    [|reflexivity].
  exfalso. apply advisorPlan_inv in Hadv.
  destruct Hadv as (raw' & parsed' & updates & text & out & E & Hp' & Ht' & _ & Hm & _).
  injection E as <-. rewrite Hp in Hp'. injection Hp' as <-.
  rewrite Ht in Ht'. injection Ht' as <-.
  rewrite (mapM_throw _ _ t Hin) in Hm; [discriminate|].
  unfold applyUpdates. rewrite Hfx, (findUpdate_null _ _ _ Hpre). reflexivity.
Qed.

Lemma null_update_discards_reply_witness :
  optimizePlanWithOllama
    (parseOnly "reply" (replyValue "ok" [updateValue "b" "11:00" "11:30"; JNull]))
    (ProviderReturns "reply") workday
  = Normal (fallbackOptimize workday).
Proof.
  apply (null_update_discards_reply _ "reply"
           (replyValue "ok" [updateValue "b" "11:00" "11:30"; JNull])
           [updateValue "b" "11:00" "11:30"] [] workday
           (mkExampleTask "a" "09:00" "10:00" 0)).
  - reflexivity.
  - reflexivity.
  - cbn. auto.
  - reflexivity.
  - intros p [<-|[]]. reflexivity.
Defined.

Lemma mapM_fixed (updates : list JsValue) (l : list Task) :
  Forall (fun t => isFixed t = true) l ->
  mapM (applyUpdates updates) l = Normal l.
Proof.
  induction 1 as [|t l Ht _ IH]; [reflexivity|].
  cbn [mapM]. rewrite (applyUpdates_fixed _ _ Ht). cbn [bind]. now rewrite IH.
Qed.

(** X9. With nothing to move the updates are never read: when every task of
    the state is fixed, a reply with an array under [tasks] and a text under
    [summary] gives back the tasks of the state as they are, in their order,
    with the advisor's summary, whatever the array holds. *)
Theorem all_fixed_returns_input
        (JSON_parse : string -> option JsValue) (raw : string) (parsed : JsValue)
        (updates : list JsValue) (text : string) (state : PlannerState) :
  JSON_parse (extractJson raw) = Some parsed ->
  getProp parsed "tasks" = Normal (JArr updates) ->
  getProp parsed "summary" = Normal (JStr text) ->
  Forall (fun t => isFixed t = true) (tasks state) ->
  optimizePlanWithOllama JSON_parse (ProviderReturns raw) state
  = Normal (mkResult (tasks state) text).
Proof.
  intros Hp Ht Hs Hall.
  apply (advisorPlan_intro _ _ _ parsed updates); try assumption.
  now apply mapM_fixed.
Qed.

Lemma all_fixed_returns_input_witness :
  optimizePlanWithOllama
    (parseOnly "reply" (replyValue "done" [JNull; updateValue "a" "11:00" "11:30"]))
    (ProviderReturns "reply") pinnedDay
  = Normal (mkResult (tasks pinnedDay) "done").
Proof.
  apply (all_fixed_returns_input _ "reply"
           (replyValue "done" [JNull; updateValue "a" "11:00" "11:30"])
           [JNull; updateValue "a" "11:00" "11:30"]).
  - reflexivity.
  - reflexivity.
  - reflexivity.
  - repeat constructor.
Defined.

(** ** Texts of the form dd:dd *)

Lemma clock_format_table :
  forallb (fun n => isHHMM (fromMins (Num (Z.of_nat n)))) (seq 0 1440) = true.
Proof. vm_compute. reflexivity. Qed.

(** X10. Round trip on the minutes of a day: for every minute from 0 to
    1439, the text [fromMins] writes passes the format test of the
    orchestrator and is read back by [toMins] as the same minute. *)
Theorem clock_round_trip (m : Z) :
  0 <= m < 1440 ->
  isHHMM (fromMins (Num m)) = true /\ toMins (fromMins (Num m)) = Num m.
Proof.
  intros Hm. split; [|apply toMins_fromMins; lia].
  pose proof clock_format_table as H. rewrite forallb_forall in H.
  specialize (H (Z.to_nat m)). rewrite Z2Nat.id in H by lia.
  apply H, in_seq. lia.
Qed.

Lemma clock_round_trip_witness :
  isHHMM (fromMins (Num 1439)) = true /\ toMins (fromMins (Num 1439)) = Num 1439.
Proof. apply (clock_round_trip 1439). lia. Defined.

Lemma isDigit_cases (c : ascii) : isDigit c = true -> In c digitChars.
Proof.
  destruct c as [[] [] [] [] [] [] [] []]; cbn; intros H; try discriminate; auto 12.
Qed.

Lemma two_digit_facts (a b : ascii) :
  isDigit a = true -> isDigit b = true ->
  Number (String a (String b EmptyString)) = Num (10 * digitValue a + digitValue b) /\
  twoDigits (10 * digitValue a + digitValue b) = String a (String b EmptyString) /\
  0 <= 10 * digitValue a + digitValue b < 100 /\
  Ascii.eqb a ":" = false /\ Ascii.eqb b ":" = false.
Proof.
  intros Ha Hb. apply isDigit_cases in Ha. apply isDigit_cases in Hb.
  cbn [In digitChars] in Ha, Hb.
  repeat (destruct Ha as [<-|Ha]); try contradiction;
    repeat (destruct Hb as [<-|Hb]); try contradiction;
    (split; [vm_compute; reflexivity|];
     split; [reflexivity|]; split; [unfold digitValue; cbn; lia|];
     split; reflexivity).
Qed.

(** Writing back 60 h + m gives the two-digit texts of h and m exactly when
    m is below 60, for all h and m below 100. *)
Lemma rewrite_table :
  forallb (fun h =>
    forallb (fun m =>
      Bool.eqb (String.eqb (fromMins (Num (60 * Z.of_nat h + Z.of_nat m)))
                           (twoDigits (Z.of_nat h) ++ ":" ++ twoDigits (Z.of_nat m)))
               (Z.of_nat m <? 60))
      (seq 0 100))
    (seq 0 100) = true.
Proof. vm_compute. reflexivity. Qed.

Lemma rewrite_two_digits (h m : Z) :
  0 <= h < 100 -> 0 <= m < 100 ->
  (fromMins (Num (60 * h + m)) = (twoDigits h ++ ":" ++ twoDigits m)%string <-> m < 60).
Proof.
  intros Hh Hm. pose proof rewrite_table as H. rewrite forallb_forall in H.
  assert (Hin : forall z, 0 <= z < 100 -> In (Z.to_nat z) (seq 0 100))
    by (intros z Hz; apply in_seq; lia).
  specialize (H _ (Hin h Hh)). rewrite forallb_forall in H.
  specialize (H _ (Hin m Hm)). rewrite !Z2Nat.id in H by lia.
  apply Bool.eqb_prop in H.
  rewrite <- Z.ltb_lt, <- H. symmetry. apply String.eqb_eq.
Qed.

(** X11. A text that passes the format test always reads as a number. For
    [s] of the form dd:dd, with h the number its first two digits write and
    m the number its last two digits write: [s] is the two-digit texts of h
    and m around a colon, [toMins s] is 60 h + m (at most 99:99, never
    [NaN]), and [fromMins] writes that number back as [s] exactly when m is
    below 60. *)
Theorem format_valid_time_reads (s : string) :
  isHHMM s = true ->
  0 <= hourDigits s < 100 /\ 0 <= minuteDigits s < 100 /\
  s = (twoDigits (hourDigits s) ++ ":" ++ twoDigits (minuteDigits s))%string /\
  toMins s = Num (60 * hourDigits s + minuteDigits s) /\
  (fromMins (toMins s) = s <-> minuteDigits s < 60).
Proof.
  intros H.
  destruct s as [|a [|b [|c [|d [|e [|]]]]]]; try discriminate.
  cbn [isHHMM] in H.
  apply andb_true_iff in H. destruct H as [H De].
  apply andb_true_iff in H. destruct H as [H Dd].
  apply andb_true_iff in H. destruct H as [H Hc].
  apply andb_true_iff in H. destruct H as [Da Db].
  apply Ascii.eqb_eq in Hc. subst c.
  cbn [hourDigits minuteDigits].
  destruct (two_digit_facts a b Da Db) as (Hh & Hth & Hhr & Ha & Hb).
  destruct (two_digit_facts d e Dd De) as (Hm & Htm & Hmr & Hd & He).
  set (h := 10 * digitValue a + digitValue b) in *.
  set (m := 10 * digitValue d + digitValue e) in *.
  assert (Hsplit : split ":" (String a (String b (String ":" (String d (String e EmptyString)))))
                   = [String a (String b EmptyString); String d (String e EmptyString)]).
  { cbn [split]. rewrite Ha, Hb, Hd, He. cbn. reflexivity. }
  assert (Hto : toMins (String a (String b (String ":" (String d (String e EmptyString)))))
                = Num (60 * h + m)).
  { unfold toMins. rewrite Hsplit. cbn [List.map]. rewrite Hh, Hm. cbn. f_equal. lia. }
  assert (Htext : String a (String b (String ":" (String d (String e EmptyString))))
                  = (twoDigits h ++ ":" ++ twoDigits m)%string).
  { rewrite Hth, Htm. reflexivity. }
  split; [exact Hhr|]. split; [exact Hmr|]. split; [exact Htext|].
  split; [exact Hto|].
  rewrite Hto, Htext. now apply rewrite_two_digits.
Qed.

Lemma format_valid_time_reads_witness :
  0 <= hourDigits "12:75" < 100 /\ 0 <= minuteDigits "12:75" < 100 /\
  "12:75" = (twoDigits (hourDigits "12:75") ++ ":" ++ twoDigits (minuteDigits "12:75"))%string /\
  toMins "12:75" = Num (60 * hourDigits "12:75" + minuteDigits "12:75") /\
  (fromMins (toMins "12:75") = "12:75" <-> minuteDigits "12:75" < 60).
Proof. apply (format_valid_time_reads "12:75"). reflexivity. Defined.

(** ** More on the lanes *)

Lemma fold_setEntry_some (l : list (string * (nat * nat))) (m : gmap string (nat * nat))
      (k : string) (v : nat * nat) :
  fold_left setEntry l m !! k = Some v -> In (k, v) l \/ m !! k = Some v.
Proof.
  revert m. induction l as [|[k' v'] l IH]; intros m H; [now right|].
  cbn [fold_left] in H. destruct (IH _ H) as [Hin|Hm]; [left; now right|].
  unfold setEntry in Hm. cbn in Hm.
  destruct (decide (k' = k)) as [->|Hne].
  - rewrite lookup_insert_eq in Hm. injection Hm as ->. left. now left.
  - rewrite lookup_insert_ne in Hm by assumption. now right.
Qed.

Lemma fold_setEntry_in (l : list (string * (nat * nat))) (m : gmap string (nat * nat))
      (k : string) :
  In k (List.map fst l) -> is_Some (fold_left setEntry l m !! k).
Proof.
  revert m. induction l as [|[k' v'] l IH]; intros m Hin; [contradiction|].
  cbn [fold_left]. destruct (in_dec string_dec k (List.map fst l)) as [Hl|Hl].
  - now apply IH.
  - rewrite fold_setEntry_other by assumption.
    destruct Hin as [Hk|Hk]; [|contradiction]. cbn in Hk. subst k'.
    unfold setEntry. cbn. rewrite lookup_insert_eq. eauto.
Qed.

Lemma colsEntries_inv (c0 n : nat) (cols : list (list Task)) (k : string) (ci n' : nat) :
  In (k, (ci, n')) (colsEntries c0 n cols) ->
  n' = n /\ (c0 <= ci < c0 + length cols)%nat /\
  exists t, In t (concat cols) /\ id t = k.
Proof.
  revert c0. induction cols as [|col rest IH]; intros c0 Hin; [contradiction|].
  cbn [colsEntries] in Hin. apply in_app_or in Hin. destruct Hin as [Hin|Hin].
  - unfold colEntries in Hin. apply in_map_iff in Hin.
    destruct Hin as (t & Heq & Ht). injection Heq as <- <- <-.
    cbn [length concat]. repeat split; try lia.
    exists t. split; [apply in_or_app; now left | reflexivity].
  - destruct (IH _ Hin) as (-> & Hci & t & Ht & Hk).
    cbn [length concat]. repeat split; try lia.
    exists t. split; [apply in_or_app; now right | assumption].
Qed.

(** X12. The map of lanes covers exactly the tasks, within bounds: every
    task of the list has an entry under its id; every entry belongs to the
    id of a task of the list, and its lane index is below its lane count. *)
Theorem lanes_cover_and_bound (ts : list Task) :
  (forall t, In t ts -> is_Some (computeColumns ts !! id t)) /\
  (forall k ci n, computeColumns ts !! k = Some (ci, n) ->
                  (ci < n)%nat /\ exists t, In t ts /\ id t = k).
Proof.
  unfold computeColumns. rewrite setGroups_entries. split.
  - intros t Ht. apply fold_setEntry_in.
    apply (Permutation_in _ (Permutation_sym (computeColumns_keys ts))).
    now apply in_map.
  - intros k ci n H. apply fold_setEntry_some in H.
    destruct H as [H|H]; [|rewrite lookup_empty in H; discriminate].
    unfold allEntries in H. apply in_concat in H. destruct H as (es & Hes & Hin).
    apply in_map_iff in Hes. destruct Hes as (g & <- & Hg).
    unfold groupEntries in Hin.
    destruct (colsEntries_inv _ _ _ _ _ _ Hin) as (-> & Hci & t & Ht & Hk).
    split; [lia|]. exists t. split; [|assumption].
    apply (Permutation_in _ (sortBy_perm byStartTime ts)).
    apply (Permutation_in _ (buildGroups_perm _)).
    apply in_concat. exists g. split; [assumption|].
    now apply (Permutation_in _ (assignCols_perm g)).
Qed.

Lemma StronglySorted_nth {A : Type} (R : A -> A -> Prop) (l : list A)
      (i j : nat) (x y : A) :
  StronglySorted R l -> (i < j)%nat ->
  nth_error l i = Some x -> nth_error l j = Some y -> R x y.
Proof.
  intros Hs. revert i j. induction Hs as [|z l Hs IH Hz]; intros i j Hij Hi Hj.
  - destruct i; discriminate.
  - destruct j as [|j]; [lia|]. cbn in Hj. destruct i as [|i]; cbn in Hi.
    + injection Hi as <-. rewrite List.Forall_forall in Hz.
      apply Hz. now apply nth_error_In in Hj.
    + apply (IH i j); [lia | assumption | assumption].
Qed.

(** X13. Groups are separate in time: for tasks with well-formed times, a
    task of one group never overlaps a task of another group, so every
    group can be laid out on the full width by itself. *)
Theorem groups_do_not_overlap (ts : list Task) (i j : nat) (g1 g2 : list Task)
        (a b : Task) :
  Forall wellFormed ts -> i <> j ->
  nth_error (buildGroups (sortBy byStartTime ts)) i = Some g1 ->
  nth_error (buildGroups (sortBy byStartTime ts)) j = Some g2 ->
  In a g1 -> In b g2 ->
  overlaps a b = false.
Proof.
  intros Hwf Hij Hi Hj Ha Hb.
  assert (Hmin : forall g x, In g (buildGroups (sortBy byStartTime ts)) -> In x g ->
                             hasMinutes x).
  { intros g x Hg Hx. apply wellFormed_hasMinutes.
    rewrite List.Forall_forall in Hwf. apply Hwf.
    apply (Permutation_in _ (sortBy_perm byStartTime ts)).
    apply (Permutation_in _ (buildGroups_perm _)).
    apply in_concat. eauto. }
  assert (Hsmin : Forall hasMinutes (sortBy byStartTime ts)).
  { apply List.Forall_forall. intros x Hx. apply wellFormed_hasMinutes.
    rewrite List.Forall_forall in Hwf. apply Hwf.
    now apply (Permutation_in _ (sortBy_perm byStartTime ts)). }
  destruct (buildGroups_inv _ Hsmin (sorted_by_start ts Hwf)) as [(_ & Hap & _) _].
  apply not_overlapping.
  - apply (Hmin g1); [now apply nth_error_In in Hi | assumption].
  - apply (Hmin g2); [now apply nth_error_In in Hj | assumption].
  - destruct (Nat.lt_total i j) as [Hlt|[Heq|Hgt]]; [|contradiction|].
    + left. apply (StronglySorted_nth _ _ i j g1 g2 Hap Hlt Hi Hj); assumption.
    + right. apply (StronglySorted_nth _ _ j i g2 g1 Hap Hgt Hj Hi); assumption.
Qed.

Lemma groups_do_not_overlap_witness :
  overlaps (mkExampleTask "d" "10:00" "10:15" 0) (mkExampleTask "e" "12:00" "13:00" 0)
  = false.
Proof.
  apply (groups_do_not_overlap busy 0 1
           [ mkExampleTask "a" "09:00" "10:00" 0; mkExampleTask "b" "09:00" "10:00" 0;
             mkExampleTask "c" "09:30" "10:30" 0; mkExampleTask "d" "10:00" "10:15" 0 ]
           [ mkExampleTask "e" "12:00" "13:00" 0 ]).
  - apply wellFormedb_sound. vm_compute. reflexivity.
  - lia.
  - vm_compute. reflexivity.
  - vm_compute. reflexivity.
  - cbn. auto.
  - cbn. auto.
Defined.

Lemma addToCols_nonempty (x : Task) (cols : list (list Task)) :
  Forall (fun c => c <> []) cols -> Forall (fun c => c <> []) (addToCols x cols).
Proof.
  induction 1 as [|c rest Hc Hrest IH]; cbn [addToCols].
  - repeat constructor. discriminate.
  - destruct (fitsAfter x c); constructor; try assumption.
    now destruct c.
Qed.

Lemma assignCols_nonempty (g : list Task) : Forall (fun c => c <> []) (assignCols g).
Proof.
  unfold assignCols.
  assert (H : forall l acc, Forall (fun c : list Task => c <> []) acc ->
                            Forall (fun c : list Task => c <> [])
                                   (fold_left (fun cols task => addToCols task cols) l acc)).
  { induction l as [|x l IH]; intros acc Hacc; cbn [fold_left]; [assumption|].
    apply IH. now apply addToCols_nonempty. }
  apply H. constructor.
Qed.

(** X14. No lane stays empty: with distinct ids, for every group and every
    lane index below the group's lane count there is a task of the group
    that the map sends to that lane. *)
Theorem lanes_all_used (ts g : list Task) (ci : nat) :
  List.NoDup (List.map id ts) ->
  In g (buildGroups (sortBy byStartTime ts)) ->
  (ci < length (assignCols g))%nat ->
  exists t, In t g /\ computeColumns ts !! id t = Some (ci, length (assignCols g)).
Proof.
  intros Hnd Hg Hci.
  destruct (nth_error (assignCols g) ci) as [col|] eqn:Hcol.
  2:{ apply nth_error_None in Hcol. lia. }
  pose proof (assignCols_nonempty g) as Hne. rewrite List.Forall_forall in Hne.
  specialize (Hne col (nth_error_In _ _ Hcol)).
  destruct col as [|t col]; [congruence|].
  exists t. split.
  - apply (Permutation_in _ (assignCols_perm g)). apply in_concat.
    exists (t :: col). split; [now apply nth_error_In in Hcol | now left].
  - apply (computeColumns_lookup ts g (t :: col)); try assumption. now left.
Qed.

Lemma lanes_all_used_witness :
  exists t,
    In t [ mkExampleTask "a" "09:00" "10:00" 0; mkExampleTask "b" "09:00" "10:00" 0;
           mkExampleTask "c" "09:30" "10:30" 0; mkExampleTask "d" "10:00" "10:15" 0 ] /\
    computeColumns busy !! id t = Some (2%nat, 3%nat).
Proof.
  apply (lanes_all_used busy
           [ mkExampleTask "a" "09:00" "10:00" 0; mkExampleTask "b" "09:00" "10:00" 0;
             mkExampleTask "c" "09:30" "10:30" 0; mkExampleTask "d" "10:00" "10:15" 0 ]
           2%nat).
  - cbn. repeat constructor; cbn; intuition discriminate.
  - vm_compute. auto.
  - vm_compute. lia.
Defined.

(** ** Clicks and drags *)

Lemma sameButDragged_refl (task : Task) (l : list Task) : sameButDragged task l l.
Proof. induction l; constructor; auto. Qed.

Lemma sameButDragged_trans (task : Task) (l1 l2 l3 : list Task) :
  sameButDragged task l1 l2 -> sameButDragged task l2 l3 -> sameButDragged task l1 l3.
Proof.
  unfold sameButDragged. intros H12. revert l3.
  induction H12 as [|a b l1 l2 [Hs Hi] _ IH]; intros l3 H23; inversion H23; subst.
  - constructor.
  - constructor; [|now apply IH].
    match goal with H : _ /\ _ |- _ => destruct H as [Hs' Hi'] end.
    split; [congruence|]. intros Hne. rewrite <- (Hi Hne).
    apply Hi'. assert (Eid : id b = id a) by (now apply (f_equal id) in Hs).
    congruence.
Qed.

Lemma previewTimes_same (task : Task) (s e : string) (l : list Task) :
  sameButDragged task l (previewTimes (id task) s e l).
Proof.
  induction l as [|t l IH]; [constructor|]. cbn [previewTimes List.map].
  constructor; [|exact IH].
  destruct (String.eqb_spec (id t) (id task)) as [Heq|Hne]; cbn [negb].
  - destruct (_ && _); split; try reflexivity; intros; congruence.
  - split; auto.
Qed.

Lemma commit_same (task : Task) (s e : string) (l : list Task) :
  sameButDragged task l
    (List.map (fun item => if String.eqb (id item) (id task)
                           then withTimes item s e else item) l).
Proof.
  induction l as [|t l IH]; [constructor|]. cbn [List.map].
  constructor; [|exact IH].
  destruct (String.eqb_spec (id t) (id task)) as [Heq|Hne]; split; auto.
  intros; congruence.
Qed.

(** One event before the release keeps the gesture going. *)
Lemma deliver_dragging (task : Task) (y0 : Z) (ev : PointerEvent) (st : App * Gesture) :
  dragging task y0 st -> beforeRelease ev ->
  dragging task y0 (deliver ev st) /\
  editState (fst (deliver ev st)) = editState (fst st) /\
  suppressTimelineClick (fst (deliver ev st)) = suppressTimelineClick (fst st) /\
  sameButDragged task (app_tasks (fst st)) (app_tasks (fst (deliver ev st))) /\
  (movedFlag st = true -> movedFlag (deliver ev st) = true) /\
  (movedFlag st = false ->
   Z.abs (latestClientY (snd st) - y0) <= 3 ->
   match ev with MouseMove y => Z.abs (y - y0) <= 3 | _ => True end ->
   movedFlag (deliver ev st) = false /\
   Z.abs (latestClientY (snd (deliver ev st)) - y0) <= 3).
Proof.
  destruct st as [app g]. intros (Hl & Hg & drag & Hd & Hid & Hy) Hev.
  cbn [fst snd] in *. destruct ev as [y| |]; [| |contradiction]; cbn [deliver].
  - rewrite Hl. cbn [fst snd onMouseMove listening g_task latestClientY].
    unfold dragging, movedFlag. cbn [fst snd listening g_task].
    repeat split; eauto using sameButDragged_refl.
  - destruct (frameRequested g).
    2:{ unfold dragging, movedFlag. cbn [fst snd].
        repeat split; eauto using sameButDragged_refl. }
    unfold applyDragFrame. rewrite Hd, Hid, Hg, String.eqb_refl. cbn [negb].
    unfold dragging, movedFlag.
    cbn [fst snd listening g_task latestClientY dragStateRef editState
         suppressTimelineClick app_tasks moved taskId startClientY].
    rewrite Hy. repeat split; eauto.
    + apply previewTimes_same.
    + rewrite Hd. intros ->. reflexivity.
    + rewrite Hd in *.
      match goal with H : moved drag = false |- _ => rewrite H end.
      cbn [orb]. lia.
Qed.

Lemma deliverAll_dragging (task : Task) (y0 : Z) (evs : list PointerEvent)
      (st : App * Gesture) :
  dragging task y0 st -> Forall beforeRelease evs ->
  dragging task y0 (deliverAll evs st) /\
  editState (fst (deliverAll evs st)) = editState (fst st) /\
  suppressTimelineClick (fst (deliverAll evs st)) = suppressTimelineClick (fst st) /\
  sameButDragged task (app_tasks (fst st)) (app_tasks (fst (deliverAll evs st))) /\
  (movedFlag st = true -> movedFlag (deliverAll evs st) = true) /\
  (movedFlag st = false ->
   Z.abs (latestClientY (snd st) - y0) <= 3 ->
   Forall (staysWithin 3 y0) evs ->
   movedFlag (deliverAll evs st) = false).
Proof.
  intros Hdr Hevs. revert st Hdr.
  induction Hevs as [|ev evs Hev _ IH]; intros st Hdr; cbn [deliverAll fold_left].
  - split; [exact Hdr|]. repeat split; auto using sameButDragged_refl.
  - destruct (deliver_dragging task y0 ev st Hdr Hev)
      as (Hdr1 & He1 & Hs1 & Ht1 & Hm1 & Hn1).
    destruct (IH _ Hdr1) as (Hdr2 & He2 & Hs2 & Ht2 & Hm2 & Hn2).
    fold (deliverAll evs (deliver ev st)).
    split; [exact Hdr2|]. split; [congruence|]. split; [congruence|].
    split; [eapply sameButDragged_trans; eassumption|]. split; [auto|].
    intros Hmf Hy Hall. inversion Hall as [|? ? Hsmall Hrest]; subst.
    destruct Hn1 as [Hmf1 Hy1]; try assumption.
    { destruct ev; cbn in Hsmall; auto. }
    now apply Hn2.
Qed.

Lemma staysWithin_beforeRelease (limit y0 : Z) (evs : list PointerEvent) :
  Forall (staysWithin limit y0) evs -> Forall beforeRelease evs.
Proof.
  intros H. apply (List.Forall_impl beforeRelease (P := staysWithin limit y0)); [|exact H].
  intros [y| |]; cbn; auto.
Qed.

Lemma mouseDown_dragging (y0 : Z) (task : Task) (app : App) :
  exists app1 g1,
    handleTaskMouseDown 0 y0 task app = (app1, Some g1) /\
    dragging task y0 (app1, g1) /\ movedFlag (app1, g1) = false /\
    latestClientY g1 = y0 /\ app_tasks app1 = app_tasks app /\
    editState app1 = editState app /\
    suppressTimelineClick app1 = suppressTimelineClick app.
Proof.
  eexists. eexists. split; [reflexivity|].
  unfold dragging, movedFlag. cbn. repeat split; eauto.
Qed.

(** X15. A press, moves that stay within 3 pixels of the press, and a
    release are a click: the task is opened for editing with the record it
    had at the press, the drag state is cleared, nothing is committed (the
    click on the timeline is not suppressed), and every other task is as it
    was; of the pressed task only the two times can have changed. *)
Theorem small_moves_are_a_click (y0 : Z) (task : Task) (app : App)
        (evs : list PointerEvent) :
  Forall (staysWithin 3 y0) evs ->
  exists app1 g1,
    handleTaskMouseDown 0 y0 task app = (app1, Some g1) /\
    let final := fst (deliverAll (evs ++ [MouseUp]) (app1, g1)) in
    editState final = Some (mkEdit task false) /\
    dragStateRef final = None /\ draggingTaskId final = None /\
    dragPreviewMins final = None /\
    suppressTimelineClick final = suppressTimelineClick app /\
    sameButDragged task (app_tasks app) (app_tasks final).
Proof.
  intros Hevs.
  destruct (mouseDown_dragging y0 task app)
    as (app1 & g1 & Hdown & Hdr & Hmf & Hy & Ht & He & Hs).
  exists app1, g1. split; [assumption|].
  destruct (deliverAll_dragging task y0 evs (app1, g1) Hdr
              (staysWithin_beforeRelease _ _ _ Hevs))
    as (Hdr2 & He2 & Hs2 & Ht2 & _ & Hn2).
  assert (Hmf2 : movedFlag (deliverAll evs (app1, g1)) = false).
  { apply Hn2; try assumption. cbn [snd]. rewrite Hy. lia. }
  unfold deliverAll in *. rewrite fold_left_app. cbn [fold_left].
  destruct (fold_left (fun s ev => deliver ev s) evs (app1, g1)) as [app2 g2].
  destruct Hdr2 as (Hl & Hg & drag & Hd & _). cbn [fst snd] in *.
  unfold movedFlag in Hmf2. cbn [fst] in Hmf2. rewrite Hd in Hmf2.
  cbn [deliver]. rewrite Hl. unfold onMouseUp. rewrite Hd, Hmf2.
  cbn [fst editState dragStateRef draggingTaskId dragPreviewMins
       suppressTimelineClick app_tasks].
  rewrite Hg. repeat split; congruence.
Qed.

(** X16. A gesture that has once moved more than 3 pixels ends as a drag,
    wherever the pointer is at the release: from a gesture in progress whose
    drag state says it moved, further moves and frames followed by the
    release never open the editor; the release suppresses the click on the
    timeline, clears the drag state, and only the times of the dragged task
    can differ. *)
Theorem moved_gesture_never_opens_editor (task : Task) (y0 : Z) (st : App * Gesture)
        (evs : list PointerEvent) :
  dragging task y0 st -> movedFlag st = true -> Forall beforeRelease evs ->
  let final := fst (deliverAll (evs ++ [MouseUp]) st) in
  editState final = editState (fst st) /\
  suppressTimelineClick final = true /\
  dragStateRef final = None /\
  sameButDragged task (app_tasks (fst st)) (app_tasks final).
Proof.
  intros Hdr Hmf Hevs.
  destruct (deliverAll_dragging task y0 evs st Hdr Hevs)
    as (Hdr2 & He2 & Hs2 & Ht2 & Hm2 & _).
  specialize (Hm2 Hmf).
  unfold deliverAll in *. rewrite fold_left_app. cbn [fold_left].
  destruct (fold_left (fun s ev => deliver ev s) evs st) as [app2 g2].
  destruct Hdr2 as (Hl & Hg & drag & Hd & _). cbn [fst snd] in *.
  unfold movedFlag in Hm2. cbn [fst] in Hm2. rewrite Hd in Hm2.
  cbn [deliver]. rewrite Hl. unfold onMouseUp. rewrite Hd, Hm2.
  cbn [fst editState dragStateRef suppressTimelineClick app_tasks].
  repeat split; try assumption.
  eapply sameButDragged_trans; [eassumption|]. rewrite Hg. apply commit_same.
Qed.

Lemma moved_gesture_never_opens_editor_witness :
  let st := deliverAll [MouseMove 110; AnimationFrame]
              (mkApp [oddTask]
                     (Some (mkDrag "t" 100 (Num 542) (Num 30) false (Num 542)))
                     (Some "t") (Some (Num 540)) None false,
               mkGesture oddTask 100 false true) in
  let final := fst (deliverAll ([MouseMove 100; AnimationFrame] ++ [MouseUp]) st) in
  editState final = editState (fst st) /\
  suppressTimelineClick final = true /\
  dragStateRef final = None /\
  sameButDragged oddTask (app_tasks (fst st)) (app_tasks final).
Proof.
  intros st.
  apply (moved_gesture_never_opens_editor oddTask 100 st [MouseMove 100; AnimationFrame]).
  - unfold dragging. vm_compute. repeat split. eexists. repeat split.
  - vm_compute. reflexivity.
  - repeat constructor.
Defined.

Lemma small_moves_are_a_click_witness :
  exists app1 g1,
    handleTaskMouseDown 0 100 oddTask (idleApp [oddTask]) = (app1, Some g1) /\
    let final := fst (deliverAll ([MouseMove 102; AnimationFrame; MouseMove 99] ++ [MouseUp])
                                 (app1, g1)) in
    editState final = Some (mkEdit oddTask false) /\
    dragStateRef final = None /\ draggingTaskId final = None /\
    dragPreviewMins final = None /\
    suppressTimelineClick final = suppressTimelineClick (idleApp [oddTask]) /\
    sameButDragged oddTask (app_tasks (idleApp [oddTask])) (app_tasks final).
Proof.
  apply (small_moves_are_a_click 100 oddTask (idleApp [oddTask])
           [MouseMove 102; AnimationFrame; MouseMove 99]).
  repeat constructor; cbn; lia.
Defined.

(** ** What a release commits, and when a click leaves the times alone *)

(** X17. The release of a moved gesture commits an interval inside the
    timeline with the drag's duration: for a drag state that moved, with a
    duration of at most 17 hours, the tasks with the dragged id get a start
    at or after 06:00 and an end at or before 23:00 that is the start plus
    the duration (both read back as written), the start being on the
    quarter-hour grid whenever the duration is a multiple of 15; the other
    tasks are kept, the editor is not opened and the click on the timeline
    is suppressed. *)
Theorem drag_commit_in_bounds (g : Gesture) (app : App) (drag : DragState) (c d : Z) :
  dragStateRef app = Some drag -> moved drag = true ->
  currentStart drag = Num c -> duration drag = Num d ->
  0 <= d <= 1020 ->
  exists fs,
    360 <= fs /\ fs + d <= 1380 /\ (d mod 15 = 0 -> fs mod 15 = 0) /\
    fst (onMouseUp g app)
    = mkApp (List.map (fun item =>
                         if String.eqb (id item) (id (g_task g))
                         then withTimes item (minsToTime (Num fs)) (minsToTime (Num (fs + d)))
                         else item) (app_tasks app))
            None None None (editState app) true /\
    toMins (minsToTime (Num fs)) = Num fs /\
    toMins (minsToTime (Num (fs + d))) = Num (fs + d).
Proof.
  intros Hd Hm Hc Hdur Hrange.
  unfold onMouseUp. rewrite Hd, Hm, Hc, Hdur.
  cbn [roundToGrid num_sub num_lift2 Math_max Math_min num_add fst].
  set (snapped := Math_round _ * 15).
  assert (Hsn : snapped mod 15 = 0) by (unfold snapped; apply Z.mod_mul; lia).
  clearbody snapped.
  exists (Z.max (TIMELINE_START * 60) (Z.min (TIMELINE_END * 60 - d) snapped)).
  unfold TIMELINE_START, TIMELINE_END.
  repeat split; try lia.
  - intros Hd15.
    assert (H1380 : (23 * 60 - d) mod 15 = 0).
    { rewrite Zminus_mod, Hd15. reflexivity. }
    destruct (Z.max_spec (6 * 60) (Z.min (23 * 60 - d) snapped)) as [[_ ->]|[_ ->]];
      [|reflexivity].
    destruct (Z.min_spec (23 * 60 - d) snapped) as [[_ ->]|[_ ->]]; assumption.
  - apply toMins_fromMins. lia.
  - apply toMins_fromMins. lia.
Qed.

Lemma drag_commit_in_bounds_witness :
  exists fs,
    360 <= fs /\ fs + 30 <= 1380 /\ (30 mod 15 = 0 -> fs mod 15 = 0) /\
    fst (onMouseUp (mkGesture oddTask 2000 false true)
           (mkApp [oddTask]
                  (Some (mkDrag "t" 100 (Num 542) (Num 30) true (Num 1350)))
                  (Some "t") (Some (Num 1350)) None false))
    = mkApp (List.map (fun item =>
                         if String.eqb (id item) (id oddTask)
                         then withTimes item (minsToTime (Num fs)) (minsToTime (Num (fs + 30)))
                         else item) [oddTask])
            None None None None true /\
    toMins (minsToTime (Num fs)) = Num fs /\
    toMins (minsToTime (Num (fs + 30))) = Num (fs + 30).
Proof.
  apply (drag_commit_in_bounds (mkGesture oddTask 2000 false true)
           (mkApp [oddTask]
                  (Some (mkDrag "t" 100 (Num 542) (Num 30) true (Num 1350)))
                  (Some "t") (Some (Num 1350)) None false)
           (mkDrag "t" 100 (Num 542) (Num 30) true (Num 1350)) 1350 30);
    try reflexivity.
  lia.
Defined.

Module GridFacts.
Import QArith_base Qround Qminmax.
Local Open Scope Z_scope.

Lemma Qfloor_between (x : Q) (k : Z) :
  (inject_Z k <= x)%Q -> (x < inject_Z (k + 1))%Q -> Qfloor x = k.
Proof.
  intros H1 H2.
  assert (k <= Qfloor x).
  { rewrite <- (Qfloor_Z k). now apply Qfloor_resp_le. }
  assert (Qfloor x < k + 1).
  { rewrite Zlt_Qlt. eapply Qle_lt_trans; [apply Qfloor_le|exact H2]. }
  lia.
Qed.

(** A pointer within 3 pixels of the press moves the start by less than a
    minute and a half, which the 5-minute grid rounds away. *)
Lemma smoothedStart_small (os d dy : Z) :
  os mod 5 = 0 -> 360 <= os -> os + d <= 1380 -> -3 <= dy <= 3 ->
  smoothedStart (Num os) (Num d) dy = Num os.
Proof.
  intros Hmod Hlo Hhi Hdy. unfold smoothedStart. f_equal.
  assert (Hk : os = 5 * (os / 5)) by (apply Z.div_exact; lia).
  set (k := os / 5) in *.
  enough (Math_round
            (Qmax (inject_Z (TIMELINE_START * 60))
                  (Qmin (inject_Z (TIMELINE_END * 60 - d))
                        (inject_Z os + inject_Z dy / DRAG_PX_PER_MIN))
             / inject_Z 5) = k) as -> by lia.
  unfold Math_round.
  enough (H : (inject_Z k <=
               Qmax (inject_Z (TIMELINE_START * 60))
                    (Qmin (inject_Z (TIMELINE_END * 60 - d))
                          (inject_Z os + inject_Z dy / DRAG_PX_PER_MIN))
               / inject_Z 5 + (1 # 2))%Q /\
              (Qmax (inject_Z (TIMELINE_START * 60))
                    (Qmin (inject_Z (TIMELINE_END * 60 - d))
                          (inject_Z os + inject_Z dy / DRAG_PX_PER_MIN))
               / inject_Z 5 + (1 # 2) < inject_Z (k + 1))%Q)
    by (apply Qfloor_between; tauto).
  assert (Hos : (inject_Z os == 5 * inject_Z k)%Q).
  { rewrite Hk at 1. rewrite inject_Z_mult. reflexivity. }
  assert (Hm : (inject_Z (TIMELINE_START * 60) <= inject_Z os)%Q).
  { rewrite <- Zle_Qle. unfold TIMELINE_START. lia. }
  assert (HM : (inject_Z os <= inject_Z (TIMELINE_END * 60 - d))%Q).
  { rewrite <- Zle_Qle. unfold TIMELINE_END. lia. }
  assert (Hd1 : (inject_Z (-3) <= inject_Z dy)%Q) by (rewrite <- Zle_Qle; lia).
  assert (Hd2 : (inject_Z dy <= inject_Z 3)%Q) by (rewrite <- Zle_Qle; lia).
  assert (Hk1 : (inject_Z (k + 1) == inject_Z k + 1)%Q)
    by (rewrite inject_Z_plus; reflexivity).
  unfold DRAG_PX_PER_MIN.
  set (X := inject_Z os) in *. set (Y := inject_Z dy) in *. set (K := inject_Z k) in *.
  set (m := inject_Z (TIMELINE_START * 60)) in *.
  set (M := inject_Z (TIMELINE_END * 60 - d)) in *.
  set (K1 := inject_Z (k + 1)) in *.
  clearbody X Y K m M K1.
  change (inject_Z (-3)) with (-(3))%Q in Hd1. change (inject_Z 3) with 3%Q in Hd2.
  change (inject_Z 5) with 5%Q.
  pose proof (Q.min_spec M (X + Y / (22 # 10))) as Hmin.
  set (B := Qmin M (X + Y / (22 # 10))) in *. clearbody B.
  pose proof (Q.max_spec m B) as Hmax.
  set (A := Qmax m B) in *. clearbody A.
  unfold Qdiv in *. change (/ (22 # 10))%Q with (10 # 22)%Q in *.
  change (/ 5)%Q with (1 # 5)%Q.
  destruct Hmin as [[? ?]|[? ?]]; destruct Hmax as [[? ?]|[? ?]]; split; lra.
Qed.
End GridFacts.

Lemma previewTimes_noop (task : Task) (ts : list Task) :
  (forall t, In t ts -> id t = id task -> t = task) ->
  previewTimes (id task) (startTime task) (endTime task) ts = ts.
Proof.
  induction ts as [|t ts IH]; intros H; [reflexivity|].
  cbn [previewTimes List.map]. fold (previewTimes (id task) (startTime task) (endTime task) ts).
  rewrite IH by (intros u Hu; apply H; now right). f_equal.
  destruct (String.eqb_spec (id t) (id task)) as [Heq|Hne]; cbn [negb]; [|reflexivity].
  rewrite (H t (or_introl eq_refl) Heq). now rewrite !String.eqb_refl.
Qed.

Lemma deliver_atRest (task : Task) (y0 os d : Z) (ts : list Task)
      (ev : PointerEvent) (st : App * Gesture) :
  os mod 5 = 0 -> 360 <= os -> os + d <= 1380 ->
  minsToTime (Num os) = startTime task ->
  minsToTime (Num (os + d)) = endTime task ->
  (forall t, In t ts -> id t = id task -> t = task) ->
  atRest task y0 os d ts st -> staysWithin 3 y0 ev ->
  atRest task y0 os d ts (deliver ev st).
Proof.
  intros Hmod Hlo Hhi Hst Hen Hone.
  destruct st as [app g].
  intros (Hl & Hg & Hy & Hts & drag & Hd & Hid & Hy0 & Hos & Hdur & Hmv) Hev.
  cbn [fst snd] in *. destruct ev as [y| |]; [| |contradiction]; cbn [deliver].
  - rewrite Hl. unfold atRest.
    cbn [fst snd onMouseMove listening g_task latestClientY].
    repeat split; try assumption. exists drag. repeat split; assumption.
  - destruct (frameRequested g).
    2:{ unfold atRest. cbn [fst snd]. repeat split; try assumption.
        exists drag. repeat split; assumption. }
    unfold applyDragFrame. rewrite Hd, Hid, Hg, String.eqb_refl. cbn [negb].
    rewrite Hy0, Hos, Hdur, Hmv.
    rewrite (GridFacts.smoothedStart_small os d (latestClientY g - y0)) by lia.
    cbn [num_add num_lift2]. rewrite Hst, Hen, Hts, (previewTimes_noop task ts Hone).
    unfold atRest.
    cbn [fst snd listening g_task latestClientY app_tasks dragStateRef].
    repeat split; try assumption.
    eexists. split; [reflexivity|].
    cbn [taskId startClientY originalStart duration moved orb].
    repeat split; try assumption.
    destruct (Z.gtb_spec (Z.abs (latestClientY g - y0)) 3); [lia | reflexivity].
Qed.

Lemma deliverAll_atRest (task : Task) (y0 os d : Z) (ts : list Task)
      (evs : list PointerEvent) (st : App * Gesture) :
  os mod 5 = 0 -> 360 <= os -> os + d <= 1380 ->
  minsToTime (Num os) = startTime task ->
  minsToTime (Num (os + d)) = endTime task ->
  (forall t, In t ts -> id t = id task -> t = task) ->
  atRest task y0 os d ts st -> Forall (staysWithin 3 y0) evs ->
  atRest task y0 os d ts (deliverAll evs st).
Proof.
  intros Hmod Hlo Hhi Hst Hen Hone Hrest Hevs. revert st Hrest.
  induction Hevs as [|ev evs Hev _ IH]; intros st Hrest; [exact Hrest|].
  cbn [deliverAll fold_left]. apply IH.
  now apply deliver_atRest.
Qed.

(** X18. When a click leaves the stored times alone: if the pressed task has
    well-formed times, starts on the 5-minute grid at or after 06:00, lasts
    at least 15 minutes and ends by 23:00, and is the only task of the list
    under its id, then a press, moves within 3 pixels and a release leave
    the whole task list as it was and open the task for editing. *)
Theorem on_grid_click_keeps_times (y0 os d : Z) (task : Task) (app : App)
        (evs : list PointerEvent) :
  Forall (staysWithin 3 y0) evs ->
  wellFormed task -> startMin task = os -> endMin task = os + d ->
  os mod 5 = 0 -> 360 <= os -> 15 <= d -> os + d <= 1380 ->
  (forall t, In t (app_tasks app) -> id t = id task -> t = task) ->
  exists app1 g1,
    handleTaskMouseDown 0 y0 task app = (app1, Some g1) /\
    let final := fst (deliverAll (evs ++ [MouseUp]) (app1, g1)) in
    app_tasks final = app_tasks app /\
    editState final = Some (mkEdit task false).
Proof.
  intros Hevs Hwf Hs He Hmod Hlo Hd15 Hhi Hone.
  destruct (wellFormed_hasMinutes _ Hwf) as [Hsm Hem].
  destruct Hwf as [(ms & Hms & Es) (me & Hme & Ee)].
  assert (Hst : minsToTime (Num os) = startTime task).
  { unfold startOf in Hsm. rewrite Es in Hsm. rewrite toMins_fromMins in Hsm by lia.
    injection Hsm as Hsm. rewrite Es. unfold minsToTime. congruence. }
  assert (Hen : minsToTime (Num (os + d)) = endTime task).
  { unfold endOf in Hem. rewrite Ee in Hem. rewrite toMins_fromMins in Hem by lia.
    injection Hem as Hem. rewrite Ee. unfold minsToTime. congruence. }
  eexists. eexists. split; [reflexivity|].
  assert (Hrest : atRest task y0 os d (app_tasks app)
            (mkApp (app_tasks app)
               (Some (mkDrag (id task) y0 (timeToMins (startTime task))
                        (Math_max (Num 15)
                           (timeToMins (endTime task) - timeToMins (startTime task))%js)
                        false (timeToMins (startTime task))))
               (Some (id task)) (Some (roundToGrid 15 (timeToMins (startTime task))))
               (editState app) (suppressTimelineClick app),
             mkGesture task y0 false true)).
  { unfold atRest. cbn [fst snd listening g_task latestClientY app_tasks dragStateRef].
    repeat split; [lia|]. eexists. split; [reflexivity|].
    cbn [taskId startClientY originalStart duration moved].
    change (timeToMins (startTime task)) with (startOf task).
    change (timeToMins (endTime task)) with (endOf task).
    rewrite Hsm, Hem, Hs, He. cbn [num_sub num_lift2 Math_max].
    repeat split. f_equal. lia. }
  pose proof (deliverAll_atRest task y0 os d (app_tasks app) evs _
                Hmod Hlo Hhi Hst Hen Hone Hrest Hevs) as Hfin.
  cbv zeta. unfold deliverAll in *. rewrite fold_left_app. cbn [fold_left].
  destruct (fold_left (fun s ev => deliver ev s) evs _) as [app2 g2].
  destruct Hfin as (Hl & Hg & _ & Hts & drag & Hdr & _ & _ & _ & _ & Hmv).
  cbn [fst snd] in *. cbn [deliver]. rewrite Hl. unfold onMouseUp.
  rewrite Hdr, Hmv. cbn [fst app_tasks editState]. rewrite Hg. auto.
Qed.

Lemma on_grid_click_keeps_times_witness :
  exists app1 g1,
    handleTaskMouseDown 0 100 (mkExampleTask "a" "09:00" "10:00" 0)
                        (idleApp (tasks workday)) = (app1, Some g1) /\
    let final := fst (deliverAll ([MouseMove 103; AnimationFrame; MouseMove 97;
                                   AnimationFrame] ++ [MouseUp]) (app1, g1)) in
    app_tasks final = app_tasks (idleApp (tasks workday)) /\
    editState final = Some (mkEdit (mkExampleTask "a" "09:00" "10:00" 0) false).
Proof.
  apply (on_grid_click_keeps_times 100 540 60 (mkExampleTask "a" "09:00" "10:00" 0)
           (idleApp (tasks workday))
           [MouseMove 103; AnimationFrame; MouseMove 97; AnimationFrame]).
  - repeat constructor; cbn; lia.
  - split; [exists 540 | exists 600]; split; try lia; reflexivity.
  - reflexivity.
  - reflexivity.
  - reflexivity.
  - lia.
  - lia.
  - lia.
  - cbn. intros t [<-|[<-|[<-|[]]]]; cbn; intros H; try discriminate. reflexivity.
Defined.

(** ** The renderer's round trips *)

(** X19. The flags survive the trip to the main process and back: turning a
    renderer task into a stored one and normalising it again gives the same
    task; the other way round the truthiness of [fixed] is kept, and a
    stored task whose flags are 0 or 1 comes back as it was. *)
Theorem flags_round_trip :
  (forall t : Ui.Task, normalizeTask (toDbTask t) = t) /\
  (forall t : Task,
      isFixed (toDbTask (normalizeTask t)) = isFixed t /\
      ((fixed t = 0 \/ fixed t = 1) -> (done t = 0 \/ done t = 1) ->
       toDbTask (normalizeTask t) = t)).
Proof.
  split.
  - intros [i ti da s e tg n f d]. unfold normalizeTask, toDbTask. cbn.
    destruct f, d; reflexivity.
  - intros [i ti da s e tg n f d]. unfold normalizeTask, toDbTask, isFixed. cbn. split.
    + destruct (f =? 0); reflexivity.
    + intros [-> | ->] [-> | ->]; reflexivity.
Qed.






(** X21. Deleting a tag leaves no task pointing at it: afterwards no task
    names the deleted tag, the tag filter is not the deleted tag, every
    other tag is still there, and if every tag named by a task was one of
    the tags before, this is still so. *)
Theorem delete_tag_keeps_references (i : string) (p : Planner) :
  (forall t, In t (ui_tasks (handleDeleteTag i p)) -> Ui.tagId t <> Some i) /\
  tagFilter (handleDeleteTag i p) <> Some i /\
  (forall g, In g (ui_tags p) -> tag_id g <> i -> In g (ui_tags (handleDeleteTag i p))) /\
  List.map Ui.id (ui_tasks (handleDeleteTag i p)) = List.map Ui.id (ui_tasks p) /\
  (tagsResolve p -> tagsResolve (handleDeleteTag i p)).
Proof.
  assert (Heqb : forall o, option_string_eqb o i = true <-> o = Some i).
  { intros [x|]; cbn; [|split; discriminate].
    rewrite String.eqb_eq. split; congruence. }
  unfold handleDeleteTag. cbn [ui_tasks ui_tags tagFilter]. repeat split.
  - intros t Ht. apply in_map_iff in Ht. destruct Ht as (u & <- & _).
    destruct (option_string_eqb (Ui.tagId u) i) eqn:Hu; cbn; [discriminate|].
    intros H. apply Heqb in H. congruence.
  - destruct (option_string_eqb (tagFilter p) i) eqn:Hf; [discriminate|].
    intros H. apply Heqb in H. congruence.
  - intros g Hg Hne. apply filter_In. split; [assumption|].
    apply negb_true_iff. now apply String.eqb_neq.
  - rewrite List.map_map. apply List.map_ext. intros t.
    now destruct (option_string_eqb (Ui.tagId t) i).
  - intros Hres t j Ht Hj. apply in_map_iff in Ht. destruct Ht as (u & <- & Hu).
    destruct (option_string_eqb (Ui.tagId u) i) eqn:Hui; cbn in Hj; [discriminate|].
    destruct (Hres u j Hu Hj) as (g & Hg & Hgi). exists g. split; [|assumption].
    apply filter_In. split; [assumption|]. apply negb_true_iff, String.eqb_neq.
    intros E. assert (Ui.tagId u = Some i) by congruence.
    apply Heqb in H. congruence.
Qed.

(** X22. A click on the day's timeline drafts a task on the quarter-hour
    grid: wherever the pointer is, the draft starts at a multiple of 15
    minutes between 06:00 and 22:15 and ends 45 minutes later, but never
    after 22:55, so a draft at 22:15 is 40 minutes long; it is flexible,
    untitled, and carries the tag of the filter or else the first tag. *)
Theorem timeline_click_drafts_on_grid
        (draggingId : option string) (y : QArith_base.Q)
        (uuid selectedDate : string) (tgs : list Tag) (filter : option string) :
  exists draft s,
    handleTimelineClick DayView false draggingId y uuid selectedDate tgs filter
    = Some draft /\
    360 <= s <= 1335 /\ s mod 15 = 0 /\
    toMins (Ui.startTime draft) = Num s /\
    toMins (Ui.endTime draft) = Num (Z.min (s + 45) 1375) /\
    Ui.fixed draft = false /\ Ui.title draft = "" /\ Ui.id draft = uuid /\
    (forall f, filter = Some f -> Ui.tagId draft = Some f).
Proof.
  unfold handleTimelineClick.
  set (snapped := Math_round _ * 15).
  assert (Hsn : snapped mod 15 = 0) by (unfold snapped; apply Z.mod_mul; lia).
  clearbody snapped.
  set (clamped := Z.max (TIMELINE_START * 60) (Z.min (TIMELINE_END * 60 - 45) snapped)).
  assert (Hrange : 360 <= clamped <= 1335)
    by (unfold clamped, TIMELINE_START, TIMELINE_END; lia).
  assert (Hgrid : clamped mod 15 = 0).
  { unfold clamped, TIMELINE_START, TIMELINE_END.
    destruct (Z.max_spec (6 * 60) (Z.min (23 * 60 - 45) snapped)) as [[_ ->]|[_ ->]];
      [|reflexivity].
    destruct (Z.min_spec (23 * 60 - 45) snapped) as [[_ ->]|[_ ->]];
      [reflexivity | assumption]. }
  clearbody clamped.
  eexists. exists clamped. split; [reflexivity|].
  unfold openNewTask. cbn [Ui.startTime Ui.endTime Ui.fixed Ui.title Ui.id Ui.tagId].
  unfold timeToMins, minsToTime. rewrite toMins_fromMins by lia.
  cbn [num_add num_lift2 Math_min]. unfold TIMELINE_END.
  change (23 * 60 - 5) with 1375.
  rewrite toMins_fromMins by lia.
  repeat split; try lia; try reflexivity.
  intros f ->. reflexivity.
Qed.

Module FrameFacts.
Import QArith_base Qround Qminmax.
Local Open Scope Z_scope.



End FrameFacts.


